(** * Shift-report parser of the Telegram bot ([main.py]): a shallow embedding

    The development models [parse_report] of [main.py]: the seven compiled
    patterns, the backtracking search of Python's [re] module they are run
    with, [datetime.strptime] for the two formats the function uses,
    [float], [str.strip], and the [try]/[except] around the whole body.

    Python strings are sequences of Unicode code points, so a text is a
    [list Z].  Python floats are IEEE 754 binary64 numbers, modelled with
    [spec_float] at precision 53 and maximal exponent 1024. *)

From Stdlib Require Import ZArith List Bool Lia String Ascii QArith SpecFloat.
Import ListNotations.
Open Scope Z_scope.

(** ** Text literals *)

Module Utf8.

(** The source file is UTF-8; its Cyrillic labels and messages are written
    here as UTF-8 string literals and decoded to code points. *)
Fixpoint decode_from (s : string) (need : nat) (acc : Z) : list Z :=
  match s with
  | EmptyString => []
  | String a s' =>
      let b := Z.of_nat (nat_of_ascii a) in
      match need with
      | O =>
          if b <? 128 then b :: decode_from s' 0 0
          else if b <? 224 then decode_from s' 1 (b - 192)
          else if b <? 240 then decode_from s' 2 (b - 224)
          else decode_from s' 3 (b - 240)
      | S O => (acc * 64 + (b - 128)) :: decode_from s' 0 0
      | S n => decode_from s' n (acc * 64 + (b - 128))
      end
  end.

Definition decode (s : string) : list Z := decode_from s 0 0.

End Utf8.

Definition u8 (s : string) : list Z := Utf8.decode s.

(** A Python [str]. *)
Definition str := list Z.

Definition NL : Z := 10.

(** ** Floats *)

Module PyFloat.

Definition prec : Z := 53.
Definition emax : Z := 1024.

(** [float(n)] for an integer [n], and the value of a decimal digit string:
    the nearest binary64 number, ties to even, infinity on overflow. *)
Definition of_Z (n : Z) : spec_float := binary_normalize prec emax n 0 false.

Definition add (x y : spec_float) : spec_float := SFadd prec emax x y.
Definition div (x y : spec_float) : spec_float := SFdiv prec emax x y.

(** [a / b] on two Python ints whose values binary64 represents exactly. *)
Definition int_truediv (a b : Z) : spec_float := div (of_Z a) (of_Z b).

Definition is_negative (x : spec_float) : bool :=
  SFltb x (S754_zero false).

(** The rational a finite float stands for. *)
Definition to_Q (x : spec_float) : option Q :=
  match x with
  | S754_zero _ => Some 0%Q
  | S754_finite s m e =>
      let v := (inject_Z (Zpos m) * Qpower 2 e)%Q in
      Some (Qred (if s then Qopp v else v))
  | _ => None
  end.

Definition eqb (x y : spec_float) : bool :=
  match x, y with
  | S754_zero a, S754_zero b => Bool.eqb a b
  | S754_infinity a, S754_infinity b => Bool.eqb a b
  | S754_nan, S754_nan => true
  | S754_finite a m e, S754_finite b m' e' =>
      Bool.eqb a b && Pos.eqb m m' && Z.eqb e e'
  | _, _ => false
  end.

End PyFloat.

(** A number stored in a record: [main.py] leaves the literal [0] an [int]
    where a field defaults, and stores a [float] otherwise. *)
Inductive pynum :=
| PyInt (n : Z)
| PyFloat (x : spec_float).

(** ** Regular expressions: the fragment the patterns use *)

(** Character classes. *)
Inductive cls :=
| Digit                  (* \d *)
| Space                  (* \s *)
| NotNewline             (* [^\n] *)
| Range (lo hi : Z).     (* [lo-hi] *)

Inductive regex :=
| Lit (l : str)                  (* a literal string *)
| Chr (c : cls)                  (* one character of a class *)
| Rep (n : nat) (c : cls)        (* c{n} *)
| Plus (c : cls)                 (* c+, greedy *)
| Star (c : cls)                 (* c*, greedy *)
| Cat (r1 r2 : regex)
| Alt (r1 r2 : regex)            (* r1|r2, r1 tried first *)
| Opt (r : regex)                (* (?:r)?, greedy *)
| Grp (i : nat) (r : regex).     (* capturing group number i *)

(** Captured groups, most recent binding first. *)
Definition caps := list (nat * str).

Fixpoint group (i : nat) (c : caps) : option str :=
  match c with
  | [] => None
  | (j, v) :: c' => if Nat.eqb i j then Some v else group i c'
  end.

(** A match object: where the match starts and what the groups hold. *)
Record match_obj := MatchObj { m_start : nat; m_caps : caps }.

Definition m_group (i : nat) (m : match_obj) : option str := group i (m_caps m).

Fixpoint strip_prefix (l s : str) : option str :=
  match l with
  | [] => Some s
  | a :: l' =>
      match s with
      | [] => None
      | b :: s' => if a =? b then strip_prefix l' s' else None
      end
  end.

(** [Py_UNICODE_ISSPACE]: what [\s] matches and what [str.strip] removes. *)
Definition is_space (c : Z) : bool :=
  ((9 <=? c) && (c <=? 13)) || ((28 <=? c) && (c <=? 32))
  || (c =? 133) || (c =? 160) || (c =? 5760)
  || ((8192 <=? c) && (c <=? 8202))
  || (c =? 8232) || (c =? 8233) || (c =? 8239) || (c =? 8287) || (c =? 12288).

Definition lstrip (s : str) : str :=
  (fix go (s : str) : str :=
     match s with
     | c :: s' => if is_space c then go s' else s
     | [] => []
     end) s.

Definition rstrip (s : str) : str := rev (lstrip (rev s)).

(** [s.strip()] *)
Definition strip (s : str) : str := rstrip (lstrip s).

(** A table of digits past ASCII to run examples with: the ARABIC-INDIC
    DIGITS U+0660 to U+0669. *)
Definition arabic_indic (c : Z) : option Z :=
  if (1632 <=? c) && (c <=? 1641) then Some (c - 1632) else None.

(** The lines of a text, joined by line feeds. *)
Fixpoint lines (ls : list str) : str :=
  match ls with
  | [] => []
  | [l] => l
  | l :: ls' => l ++ NL :: lines ls'
  end.

Section Parser.

(** The decimal digit value of the code points from U+0660 on, that is
    [Py_UNICODE_TODECIMAL] of the Unicode database the interpreter was built
    with.  Whatever the version of the database, a digit value is between 0
    and 9, no whitespace character is a decimal digit, and below U+0660 the
    only decimal digits are ASCII [0]-[9]; [decimal] consults the table
    within these limits. *)
Variable unicode_decimal : Z -> option Z.

Definition decimal (c : Z) : option Z :=
  if c <? 1632 then
    if (48 <=? c) && (c <=? 57) then Some (c - 48) else None
  else if is_space c then None
  else
    match unicode_decimal c with
    | Some v => if (0 <=? v) && (v <=? 9) then Some v else None
    | None => None
    end.

Definition is_digit (c : Z) : bool :=
  match decimal c with Some _ => true | None => false end.

Definition in_cls (k : cls) (c : Z) : bool :=
  match k with
  | Digit => is_digit c
  | Space => is_space c
  | NotNewline => negb (c =? NL)
  | Range lo hi => (lo <=? c) && (c <=? hi)
  end.

(** *** The backtracking matcher

    [rmatch r s c k] matches [r] at the front of [s] and hands the rest of
    the text and the groups to the continuation [k]; when [k] fails the
    matcher backtracks into [r], alternatives left to right and greedy
    repetitions from the longest.  This is the order in which [re] explores
    matches. *)
Section Matcher.

Context {R : Type}.

Fixpoint rep (k : cls) (n : nat) (s : str) (cont : str -> option R) : option R :=
  match n with
  | O => cont s
  | S n' =>
      match s with
      | x :: s' => if in_cls k x then rep k n' s' cont else None
      | [] => None
      end
  end.

Fixpoint many (k : cls) (s : str) (cont : str -> option R) : option R :=
  match s with
  | x :: s' =>
      if in_cls k x then
        match many k s' cont with
        | Some r => Some r
        | None => cont s
        end
      else cont s
  | [] => cont []
  end.

Fixpoint rmatch (r : regex) (s : str) (c : caps)
                (cont : str -> caps -> option R) : option R :=
  match r with
  | Lit l =>
      match strip_prefix l s with
      | Some s' => cont s' c
      | None => None
      end
  | Chr k => rep k 1 s (fun s' => cont s' c)
  | Rep n k => rep k n s (fun s' => cont s' c)
  | Plus k =>
      match s with
      | x :: s' => if in_cls k x then many k s' (fun s'' => cont s'' c) else None
      | [] => None
      end
  | Star k => many k s (fun s' => cont s' c)
  | Cat r1 r2 => rmatch r1 s c (fun s' c' => rmatch r2 s' c' cont)
  | Alt r1 r2 =>
      match rmatch r1 s c cont with
      | Some x => Some x
      | None => rmatch r2 s c cont
      end
  | Opt r1 =>
      match rmatch r1 s c cont with
      | Some x => Some x
      | None => cont s c
      end
  | Grp i r1 =>
      rmatch r1 s c
        (fun s' c' => cont s' ((i, firstn (List.length s - List.length s') s) :: c'))
  end.

End Matcher.

(** [pattern.match(s)]: a match anchored at the start; the result is the
    unmatched rest and the groups. *)
Definition re_match (r : regex) (s : str) : option (str * caps) :=
  rmatch r s [] (fun s' c => Some (s', c)).

(** [pattern.search(s)]: the first start position, left to right, at which
    the pattern matches. *)
Fixpoint search_from (r : regex) (pos : nat) (s : str) : option match_obj :=
  match re_match r s with
  | Some (_, c) => Some (MatchObj pos c)
  | None =>
      match s with
      | [] => None
      | _ :: s' => search_from r (S pos) s'
      end
  end.

Definition search (r : regex) (s : str) : option match_obj := search_from r 0 s.

(** *** The patterns of [main.py] *)

Definition alts (ls : list str) : regex :=
  match ls with
  | [] => Lit []
  | l :: ls' =>
      (fix go (l : str) (ls : list str) : regex :=
         match ls with
         | [] => Lit l
         | l' :: ls' => Alt (Lit l) (go l' ls')
         end) l ls'
  end.

Definition DOT : str := [46].
Definition COLON : str := [58].

Definition date_shape : regex :=
  Cat (Rep 2 Digit) (Cat (Lit DOT) (Cat (Rep 2 Digit) (Cat (Lit DOT) (Rep 4 Digit)))).

Definition time_shape : regex :=
  Cat (Rep 2 Digit) (Cat (Lit COLON) (Rep 2 Digit)).

Definition VEHICLE_LABELS : list str :=
  [u8 "ТС"; u8 "Смена"; u8 "Наименование ТС"].
Definition START_LABELS : list str := [u8 "Начало смены"; u8 "Начало"].
Definition END_LABELS : list str :=
  [u8 "Окончание смены"; u8 "Конец смены"; u8 "Окончание"].
Definition OVERTIME_LABELS : list str := [u8 "Переработка"; u8 "Переработки"].
Definition KM_LABELS : list str := [u8 "Общий пробег"; u8 "Пробег общий"].
Definition MKAD_LABEL : str := u8 "Пробег за МКАД".
Definition KM_MKAD_LABELS : list str := [MKAD_LABEL].

(* (\d{2}\.\d{2}\.\d{4}) *)
Definition DATE_PATTERN : regex := Grp 1 date_shape.

(* (?:ТС|Смена|Наименование ТС)\s+([^\n]+) *)
Definition VEHICLE_PATTERN : regex :=
  Cat (alts VEHICLE_LABELS) (Cat (Plus Space) (Grp 1 (Plus NotNewline))).

(* (?:Начало смены|Начало)\s+(\d{2}:\d{2}) *)
Definition START_PATTERN : regex :=
  Cat (alts START_LABELS) (Cat (Plus Space) (Grp 1 time_shape)).

(* (?:Окончание смены|Конец смены|Окончание)\s+(\d{2}:\d{2}) *)
Definition END_PATTERN : regex :=
  Cat (alts END_LABELS) (Cat (Plus Space) (Grp 1 time_shape)).

(* (?:Переработка|Переработки)\s+(\d+)(?:\s*(\d+))? *)
Definition OVERTIME_PATTERN : regex :=
  Cat (alts OVERTIME_LABELS)
      (Cat (Plus Space)
           (Cat (Grp 1 (Plus Digit)) (Opt (Cat (Star Space) (Grp 2 (Plus Digit)))))).

(* (?:Общий пробег|Пробег общий)\s+(\d+) *)
Definition KM_PATTERN : regex :=
  Cat (alts KM_LABELS) (Cat (Plus Space) (Grp 1 (Plus Digit))).

(* (?:Пробег за МКАД)\s+(\d+) *)
Definition KM_MKAD_PATTERN : regex :=
  Cat (alts KM_MKAD_LABELS) (Cat (Plus Space) (Grp 1 (Plus Digit))).

(** *** Exceptions

    A computation either returns or raises; the message of the exception is
    all that [parse_report] looks at ([str(e)]). *)
Inductive outcome (A : Type) :=
| Ret (a : A)
| Raise (msg : str).
Arguments Ret {A} a.
Arguments Raise {A} msg.

Definition bind {A B : Type} (x : outcome A) (f : A -> outcome B) : outcome B :=
  match x with
  | Ret a => f a
  | Raise msg => Raise msg
  end.

Notation "x <- e ;; k" := (bind e (fun x => k))
  (at level 61, e at next level, right associativity).

(** *** Conversions of the Python library

    The messages of the exceptions are the ones of CPython 3.8 to 3.13. *)

(** The value of a string of decimal digits, [None] when the string is
    empty or holds another character. *)
Fixpoint digits_value_from (acc : Z) (s : str) : option Z :=
  match s with
  | [] => Some acc
  | c :: s' =>
      match decimal c with
      | Some v => digits_value_from (acc * 10 + v) s'
      | None => None
      end
  end.

Definition digits_value (s : str) : option Z :=
  match s with
  | [] => None
  | _ => digits_value_from 0 s
  end.

(** [repr(s)] of a string without quotes, backslashes or unprintable
    characters, which is every string the patterns capture for a date or a
    time. *)
Definition py_repr (s : str) : str := [39] ++ s ++ [39].

(** [int(s)]: surrounding whitespace is dropped. *)
Definition py_int (g : option str) : outcome Z :=
  match g with
  | None =>
      Raise (u8 "int() argument must be a string, a bytes-like object or a real number, not 'NoneType'")
  | Some s =>
      match digits_value (strip s) with
      | Some n => Ret n
      | None => Raise (u8 "invalid literal for int() with base 10: " ++ py_repr s)
      end
  end.

(** [float(s)] *)
Definition py_float (g : option str) : outcome spec_float :=
  match g with
  | None =>
      Raise (u8 "float() argument must be a string or a real number, not 'NoneType'")
  | Some s =>
      match digits_value (strip s) with
      | Some n => Ret (PyFloat.of_Z n)
      | None => Raise (u8 "could not convert string to float: " ++ py_repr s)
      end
  end.

(** Decimal rendering of integers. *)
Fixpoint digits_of (fuel : nat) (n : Z) (acc : str) : str :=
  match fuel with
  | O => acc
  | S fuel' =>
      let acc' := (48 + n mod 10) :: acc in
      if n <? 10 then acc' else digits_of fuel' (n / 10) acc'
  end.

Definition str_of_int (n : Z) : str :=
  if n <? 0 then 45 :: digits_of (Z.to_nat (Z.log2 (- n)) + 1) (- n) []
  else digits_of (Z.to_nat (Z.log2 n) + 1) n [].

(** [%02d], [%04d] of a number that fits the width. *)
Definition zero_padded (width : nat) (n : Z) : str :=
  map (fun i => 48 + (n / 10 ^ Z.of_nat i) mod 10) (rev (seq 0 width)).

(** *** Dates and times ([datetime]) *)

Record date := Date { year : Z; month : Z; day : Z }.
Record time := Time { hour : Z; minute : Z; second : Z }.
Record datetime := DateTime { dt_date : date; dt_time : time }.
Record timedelta := TimeDelta { days : Z; seconds : Z; microseconds : Z }.

Definition is_leap (y : Z) : bool :=
  (y mod 4 =? 0) && (negb (y mod 100 =? 0) || (y mod 400 =? 0)).

Definition DAYS_IN_MONTH : list Z := [31; 28; 31; 30; 31; 30; 31; 31; 30; 31; 30; 31].

Definition days_in_month (y m : Z) : Z :=
  if (m =? 2) && is_leap y then 29
  else nth (Z.to_nat (m - 1)) DAYS_IN_MONTH 0.

Definition days_before_year (y : Z) : Z :=
  let y1 := y - 1 in y1 * 365 + y1 / 4 - y1 / 100 + y1 / 400.

Definition days_before_month (y m : Z) : Z :=
  fold_right Z.add 0 (firstn (Z.to_nat (m - 1)) DAYS_IN_MONTH)
  + (if (2 <? m) && is_leap y then 1 else 0).

Definition ymd2ord (d : date) : Z :=
  days_before_year (year d) + days_before_month (year d) (month d) + day d.

(** [date(y, m, d)]: the constructor checks its arguments. *)
Definition date_new (y m d : Z) : outcome date :=
  if negb ((1 <=? y) && (y <=? 9999)) then
    Raise (u8 "year " ++ str_of_int y ++ u8 " is out of range")
  else if negb ((1 <=? m) && (m <=? 12)) then
    Raise (u8 "month must be in 1..12")
  else if negb ((1 <=? d) && (d <=? days_in_month y m)) then
    Raise (u8 "day is out of range for month")
  else Ret (Date y m d).

(** [str(d)] is [d.isoformat()]. *)
Definition date_str (d : date) : str :=
  zero_padded 4 (year d) ++ u8 "-" ++ zero_padded 2 (month d)
  ++ u8 "-" ++ zero_padded 2 (day d).

(** [str(t)] of a time without microseconds. *)
Definition time_str (t : time) : str :=
  zero_padded 2 (hour t) ++ u8 ":" ++ zero_padded 2 (minute t)
  ++ u8 ":" ++ zero_padded 2 (second t).

Definition combine (d : date) (t : time) : datetime := DateTime d t.

(** [timedelta(days, seconds, microseconds)] normalises its fields. *)
Definition timedelta_new (d s us : Z) : timedelta :=
  let s1 := s + us / 1000000 in
  TimeDelta (d + s1 / 86400) (s1 mod 86400) (us mod 1000000).

(** [a - b] on two datetimes (which here never carry microseconds). *)
Definition datetime_sub (a b : datetime) : timedelta :=
  let secs (x : datetime) :=
    second (dt_time x) + minute (dt_time x) * 60 + hour (dt_time x) * 3600 in
  timedelta_new (ymd2ord (dt_date a) - ymd2ord (dt_date b)) (secs a - secs b) 0.

Definition total_seconds (td : timedelta) : spec_float :=
  PyFloat.int_truediv
    ((days td * 86400 + seconds td) * 1000000 + microseconds td) 1000000.

(** *** [datetime.strptime]

    [_strptime] turns the format into a regular expression, one named group
    per directive, and matches it at the start of the string. *)

(* (?P<d>3[0-1]|[1-2]\d|0[1-9]|[1-9]| [1-9]) *)
Definition RE_d : regex :=
  Grp 1 (Alt (Cat (Lit [51]) (Chr (Range 48 49)))
        (Alt (Cat (Chr (Range 49 50)) (Chr Digit))
        (Alt (Cat (Lit [48]) (Chr (Range 49 57)))
        (Alt (Chr (Range 49 57))
             (Cat (Lit [32]) (Chr (Range 49 57))))))).

(* (?P<m>1[0-2]|0[1-9]|[1-9]) *)
Definition RE_m : regex :=
  Grp 2 (Alt (Cat (Lit [49]) (Chr (Range 48 50)))
        (Alt (Cat (Lit [48]) (Chr (Range 49 57)))
             (Chr (Range 49 57)))).

(* (?P<Y>\d\d\d\d) *)
Definition RE_Y : regex :=
  Grp 3 (Cat (Chr Digit) (Cat (Chr Digit) (Cat (Chr Digit) (Chr Digit)))).

(* (?P<H>2[0-3]|[0-1]\d|\d) *)
Definition RE_H : regex :=
  Grp 4 (Alt (Cat (Lit [50]) (Chr (Range 48 51)))
        (Alt (Cat (Chr (Range 48 49)) (Chr Digit))
             (Chr Digit))).

(* (?P<M>[0-5]\d|\d) *)
Definition RE_M : regex :=
  Grp 5 (Alt (Cat (Chr (Range 48 53)) (Chr Digit)) (Chr Digit)).

Definition DATE_FORMAT : str := u8 "%d.%m.%Y".
Definition TIME_FORMAT : str := u8 "%H:%M".

Definition DATE_FORMAT_RE : regex :=
  Cat RE_d (Cat (Lit DOT) (Cat RE_m (Cat (Lit DOT) RE_Y))).

Definition TIME_FORMAT_RE : regex := Cat RE_H (Cat (Lit COLON) RE_M).

(** The part of [_strptime] both formats share: match, then insist that
    nothing is left over. *)
Definition strptime_groups (fmt : str) (fmt_re : regex) (g : option str)
  : outcome caps :=
  match g with
  | None => Raise (u8 "strptime() argument 1 must be str, not None")
  | Some s =>
      match re_match fmt_re s with
      | None =>
          Raise (u8 "time data " ++ py_repr s ++ u8 " does not match format "
                 ++ py_repr fmt)
      | Some (rest, c) =>
          match rest with
          | [] => Ret c
          | _ => Raise (u8 "unconverted data remains: " ++ rest)
          end
      end
  end.

(** [datetime.strptime(g, "%d.%m.%Y")] *)
Definition strptime_date (g : option str) : outcome datetime :=
  c <- strptime_groups DATE_FORMAT DATE_FORMAT_RE g ;;
  y <- py_int (group 3 c) ;;
  m <- py_int (group 2 c) ;;
  d <- py_int (group 1 c) ;;
  dd <- date_new y m d ;;
  Ret (DateTime dd (Time 0 0 0)).

(** [datetime.strptime(g, "%H:%M")]: the date defaults to 1900-01-01. *)
Definition strptime_time (g : option str) : outcome datetime :=
  c <- strptime_groups TIME_FORMAT TIME_FORMAT_RE g ;;
  h <- py_int (group 4 c) ;;
  mi <- py_int (group 5 c) ;;
  dd <- date_new 1900 1 1 ;;
  Ret (DateTime dd (Time h mi 0)).

(** *** [parse_report] *)

Record report := Report {
  r_date : str;
  r_vehicle : str;
  r_start_time : str;
  r_end_time : str;
  r_work_hours : spec_float;
  r_overtime : spec_float;
  r_total_km : spec_float;
  r_km_mkad : pynum
}.

(** What the function returns: the pair [(record or None, message or None)]. *)
Definition result := (option report * option str)%type.

Definition MSG_NO_DATE : str := u8 "Не найдена дата".
Definition MSG_NO_VEHICLE : str := u8 "Не найдено наименование ТС".
Definition MSG_NO_START : str := u8 "Не найдено время начала".
Definition MSG_NO_END : str := u8 "Не найдено время окончания".
Definition MSG_NO_OVERTIME : str := u8 "Не найдена переработка".
Definition MSG_NO_KM : str := u8 "Не найден общий пробег".

(** [vehicle_match.group(1).strip()] *)
Definition py_strip (g : option str) : outcome str :=
  match g with
  | None => Raise (u8 "'NoneType' object has no attribute 'strip'")
  | Some s => Ret (strip s)
  end.

(** [x / 60] where [x] is the float of the minutes group or the int [0]. *)
Definition div60 (x : pynum) : spec_float :=
  match x with
  | PyInt n => PyFloat.int_truediv n 60
  | PyFloat f => PyFloat.div f (PyFloat.of_Z 60)
  end.

(** [float(overtime_match.group(2)) if overtime_match.group(2) else 0]:
    [None] and the empty string are false. *)
Definition overtime_minutes (overtime_match : match_obj) : outcome pynum :=
  match m_group 2 overtime_match with
  | Some ((_ :: _) as g2) => f <- py_float (Some g2) ;; Ret (PyFloat f)
  | _ => Ret (PyInt 0)
  end.

(** [float(km_mkad_match.group(1)) if km_mkad_match else 0] *)
Definition km_mkad_of (km_mkad_match : option match_obj) : outcome pynum :=
  match km_mkad_match with
  | Some m => f <- py_float (m_group 1 m) ;; Ret (PyFloat f)
  | None => Ret (PyInt 0)
  end.

(** The body of the [try] block. *)
Definition parse_report_body (report_text : str) : outcome result :=
  match search DATE_PATTERN report_text with
  | None => Ret (None, Some MSG_NO_DATE)
  | Some date_match =>
  dt <- strptime_date (m_group 1 date_match) ;;
  let report_date := dt_date dt in
  match search VEHICLE_PATTERN report_text with
  | None => Ret (None, Some MSG_NO_VEHICLE)
  | Some vehicle_match =>
  vehicle <- py_strip (m_group 1 vehicle_match) ;;
  match search START_PATTERN report_text with
  | None => Ret (None, Some MSG_NO_START)
  | Some start_match =>
  st <- strptime_time (m_group 1 start_match) ;;
  let start_time := dt_time st in
  match search END_PATTERN report_text with
  | None => Ret (None, Some MSG_NO_END)
  | Some end_match =>
  et <- strptime_time (m_group 1 end_match) ;;
  let end_time := dt_time et in
  match search OVERTIME_PATTERN report_text with
  | None => Ret (None, Some MSG_NO_OVERTIME)
  | Some overtime_match =>
  hours <- py_float (m_group 1 overtime_match) ;;
  minutes <- overtime_minutes overtime_match ;;
  let overtime := PyFloat.add hours (div60 minutes) in
  match search KM_PATTERN report_text with
  | None => Ret (None, Some MSG_NO_KM)
  | Some km_match =>
  total_km <- py_float (m_group 1 km_match) ;;
  km_mkad <- km_mkad_of (search KM_MKAD_PATTERN report_text) ;;
  let start_dt := combine report_date start_time in
  let end_dt := combine report_date end_time in
  let work_hours :=
    PyFloat.div (total_seconds (datetime_sub end_dt start_dt)) (PyFloat.of_Z 3600) in
  Ret (Some (Report (date_str report_date) vehicle (time_str start_time)
                    (time_str end_time) work_hours overtime total_km km_mkad),
       None)
  end end end end end end.

(** [parse_report]: any exception of the body is caught and its message
    returned. *)
Definition parse_report (report_text : str) : result :=
  match parse_report_body report_text with
  | Ret res => res
  | Raise msg => (None, Some msg)
  end.

(** ** The reply and the store

    What [handle_message] does with the result of [parse_report]: a record
    is stored by [save_report] and shown by [format_report], a message is
    sent back as it is. *)

(** *** Numbers as text *)

(** The integer nearest to [a / b] for a positive [b]; of two integers that
    are as near, the even one. *)
Definition round_half_even (a b : Z) : Z :=
  let q := a / b in
  match 2 * (a mod b) ?= b with
  | Lt => q
  | Gt => q + 1
  | Eq => if Z.even q then q else q + 1
  end.

Definition sign_str (s : bool) : str := if s then [45] else [].

(** The hundredths in the float of mantissa [m] and exponent [e], rounded. *)
Definition hundredths (m : positive) (e : Z) : Z :=
  if 0 <=? e then 100 * Zpos m * 2 ^ e
  else round_half_even (100 * Zpos m) (2 ^ (- e)).

(** [format(x, ".2f")], the [{x:.2f}] of an f-string: the exact value of the
    float rounded to two decimals, the sign of the float in front. *)
Definition format_2f (x : spec_float) : str :=
  match x with
  | S754_nan => u8 "nan"
  | S754_infinity s => sign_str s ++ u8 "inf"
  | S754_zero s => sign_str s ++ u8 "0.00"
  | S754_finite s m e =>
      let h := hundredths m e in
      sign_str s ++ str_of_int (h / 100) ++ [46] ++ zero_padded 2 (h mod 100)
  end.

(** [repr] of a float writes the shortest decimal number that [float] reads
    back as the same float, and of the shortest ones the nearest.  The float
    [m * 2^e], half the gap to the float above it, half the gap to the one
    below it (which is half as far when [m * 2^e] is a power of two) and the
    multiples of [10^p] are compared as integers, each multiplied by
    [2^(scale2 e) * 10^(scale10 p)]. *)
Definition scale2 (e : Z) : Z := Z.max 0 (2 - e).
Definition scale10 (p : Z) : Z := Z.max 0 (- p).

(** [2^x] and [10^p], so multiplied. *)
Definition scaled_pow2 (e p x : Z) : Z := 2 ^ (x + scale2 e) * 10 ^ scale10 p.
Definition scaled_pow10 (e p : Z) : Z := 2 ^ scale2 e * 10 ^ (p + scale10 p).

(** [float] reads the number [D] (so multiplied) back as [m * 2^e]: it is
    nearer to it than to the floats next to it, or half-way and the mantissa
    [m] is even. *)
Definition reads_back (m : positive) (e p D : Z) : bool :=
  let v := Zpos m * scaled_pow2 e p e in
  let above := scaled_pow2 e p (e - 1) in
  let below :=
    if (Zpos m =? 2 ^ 52) && (-1074 <? e) then scaled_pow2 e p (e - 2) else above in
  if Z.even (Zpos m) then (v - below <=? D) && (D <=? v + above)
  else (v - below <? D) && (D <? v + above).

(** The [k] whose multiple [k * 10^p] reads back as [m * 2^e], the nearest
    if there are two. *)
Definition nearest_multiple (m : positive) (e p : Z) : option Z :=
  let v := Zpos m * scaled_pow2 e p e in
  let g := scaled_pow10 e p in
  let k := v / g in
  match reads_back m e p (k * g), reads_back m e p ((k + 1) * g) with
  | true, false => Some k
  | false, true => Some (k + 1)
  | false, false => None
  | true, true =>
      match 2 * (v mod g) ?= g with
      | Lt => Some k
      | Gt => Some (k + 1)
      | Eq => Some (if Z.even k then k else k + 1)
      end
  end.

(** The largest power of ten that has such a multiple gives the fewest
    digits.  No float reaches [10^309], and every float is a multiple of
    [10^-1074]. *)
Fixpoint shortest_from (m : positive) (e : Z) (fuel : nat) (p : Z) : Z * Z :=
  match nearest_multiple m e p with
  | Some k => (k, p)
  | None =>
      match fuel with
      | O => (Zpos m * scaled_pow2 e p e / scaled_pow10 e p, p)
      | S fuel' => shortest_from m e fuel' (p - 1)
      end
  end.

Definition shortest_digits (m : positive) (e : Z) : Z * Z :=
  shortest_from m e 1383 309.

(** The exponent of the scientific notation: a sign and two digits at least. *)
Definition exponent_str (x : Z) : str :=
  (if x <? 0 then [45] else [43])
  ++ (if Z.abs x <? 10 then [48] else []) ++ str_of_int (Z.abs x).

(** [repr(x)], which is [str(x)], of a float: the digits [k] with the point
    after the first [decpt] of them; the scientific notation from [1e16] on
    and below [0.0001]. *)
Definition float_repr (x : spec_float) : str :=
  match x with
  | S754_nan => u8 "nan"
  | S754_infinity s => sign_str s ++ u8 "inf"
  | S754_zero s => sign_str s ++ u8 "0.0"
  | S754_finite s m e =>
      let '(k, p) := shortest_digits m e in
      let digits := str_of_int k in
      let n := Z.of_nat (List.length digits) in
      let decpt := n + p in
      sign_str s ++
      if (-4 <? decpt) && (decpt <=? 16) then
        if decpt <=? 0 then u8 "0." ++ repeat 48 (Z.to_nat (- decpt)) ++ digits
        else if n <=? decpt then digits ++ repeat 48 (Z.to_nat (decpt - n)) ++ u8 ".0"
        else firstn (Z.to_nat decpt) digits ++ [46] ++ skipn (Z.to_nat decpt) digits
      else
        firstn 1 digits ++ (if 1 <? n then [46] ++ skipn 1 digits else [])
        ++ [101] ++ exponent_str (decpt - 1)
  end.

(** [str(x)] of a number of a record, as an f-string renders a field that
    has no format. *)
Definition pynum_str (x : pynum) : str :=
  match x with
  | PyInt n => str_of_int n
  | PyFloat f => float_repr f
  end.

(** *** [format_report] *)

Definition format_report (r : report) : str :=
  lines [u8 "📅 Дата: " ++ r_date r;
         u8 "🚘 Машина: " ++ r_vehicle r;
         u8 "⏰ Смена: " ++ r_start_time r ++ u8 " - " ++ r_end_time r;
         u8 "⏲️ Общее время: " ++ format_2f (r_work_hours r) ++ u8 " ч";
         u8 "⚡️ Переработка: " ++ format_2f (r_overtime r) ++ u8 " ч";
         u8 "🛣 Пробег: " ++ float_repr (r_total_km r) ++ u8 " км (за МКАД "
           ++ pynum_str (r_km_mkad r) ++ u8 " км)"].

(** *** The store ([sqlite3])

    The file [reports.db] holds the table [reports] once [init_db] has
    created it: its rows in the order they were inserted, and the largest
    identifier AUTOINCREMENT has given so far (the table [sqlite_sequence]).
    [init_db] and [save_report] each open a connection, run one statement,
    commit and close, so the state of the file is all there is between two
    calls.  A file that cannot be opened or written is outside the model,
    and so is a value longer than SQLite takes ([SQLITE_MAX_LENGTH]), which
    it refuses with an exception that depends on the version of the
    module. *)

Inductive sql_value :=
| SqlNull
| SqlInteger (n : Z)
| SqlReal (x : spec_float)
| SqlText (s : str).

(** A row of [reports]: the identifier and the eight columns. *)
Record row := Row {
  c_id : Z;
  c_date : sql_value;
  c_vehicle : sql_value;
  c_start_time : sql_value;
  c_end_time : sql_value;
  c_work_hours : sql_value;
  c_overtime : sql_value;
  c_total_km : sql_value;
  c_km_mkad : sql_value
}.

Record table := Table { t_rows : list row; t_seq : Z }.

(** The file: [None] as long as it has no table [reports]. *)
Definition database := option table.

(** [CREATE TABLE IF NOT EXISTS reports (...)] *)
Definition init_db (db : database) : database :=
  match db with
  | None => Some (Table [] 0)
  | Some t => Some t
  end.

Definition INT_MAX : Z := 2147483647.
Definition SQLITE_MAX_LENGTH : Z := 1000000000.
Definition MAX_ROWID : Z := 9223372036854775807.

Definition is_surrogate (c : Z) : bool := (55296 <=? c) && (c <=? 57343).

(** The number of bytes of a string in UTF-8. *)
Definition utf8_size (s : str) : Z :=
  fold_right (fun c n =>
                (if c <? 128 then 1 else if c <? 2048 then 2
                 else if c <? 65536 then 3 else 4) + n) 0 s.

Fixpoint leading_surrogates (s : str) : Z :=
  match s with
  | c :: s' => if is_surrogate c then 1 + leading_surrogates s' else 0
  | [] => 0
  end.

(** The first surrogates of a string: the first of them, where they start
    and where they end. *)
Fixpoint first_surrogates (s : str) (pos : Z) : option (Z * Z * Z) :=
  match s with
  | [] => None
  | c :: s' =>
      if is_surrogate c then Some (c, pos, pos + leading_surrogates s' + 1)
      else first_surrogates s' (pos + 1)
  end.

Definition hex_digit (n : Z) : Z := if n <? 10 then 48 + n else 87 + n.

(** The message of the [UnicodeEncodeError] of a string with surrogates. *)
Definition surrogates_msg (c start stop : Z) : str :=
  if stop =? start + 1 then
    u8 "'utf-8' codec can't encode character '\u"
    ++ [hex_digit (c / 4096 mod 16); hex_digit (c / 256 mod 16);
        hex_digit (c / 16 mod 16); hex_digit (c mod 16)]
    ++ u8 "' in position " ++ str_of_int start ++ u8 ": surrogates not allowed"
  else
    u8 "'utf-8' codec can't encode characters in position " ++ str_of_int start
    ++ u8 "-" ++ str_of_int (stop - 1) ++ u8 ": surrogates not allowed".

(** A [str] bound to a [?]: it is encoded in UTF-8. *)
Definition bind_text (s : str) : outcome sql_value :=
  match first_surrogates s 0 with
  | Some (c, start, stop) => Raise (surrogates_msg c start stop)
  | None =>
      if INT_MAX <? utf8_size s then Raise (u8 "string longer than INT_MAX bytes")
      else Ret (SqlText s)
  end.

(** A number bound to a [?]: an [int] has to fit 64 bits, a [float] that is
    not a number becomes NULL. *)
Definition bind_number (x : pynum) : outcome sql_value :=
  match x with
  | PyInt n =>
      if (- 2 ^ 63 <=? n) && (n <? 2 ^ 63) then Ret (SqlInteger n)
      else Raise (u8 "Python int too large to convert to SQLite INTEGER")
  | PyFloat S754_nan => Ret SqlNull
  | PyFloat f => Ret (SqlReal f)
  end.

(** A column declared REAL stores an integer as a float. *)
Definition real_affinity (v : sql_value) : sql_value :=
  match v with
  | SqlInteger n => SqlReal (PyFloat.of_Z n)
  | _ => v
  end.

Definition largest_rowid (t : table) : Z :=
  fold_right (fun r n => Z.max (c_id r) n) 0 (t_rows t).

(** [save_report]: the argument is a record or [None]; the statement is
    compiled, which needs the table, its eight parameters are bound in
    order, and the row goes in under the identifier after the largest one
    there ever was. *)
Definition save_report (report_data : option report) (db : database)
  : outcome database :=
  match report_data with
  | None => Raise (u8 "'NoneType' object is not subscriptable")
  | Some r =>
      match db with
      | None => Raise (u8 "no such table: reports")
      | Some t =>
          d <- bind_text (r_date r) ;;
          v <- bind_text (r_vehicle r) ;;
          st <- bind_text (r_start_time r) ;;
          et <- bind_text (r_end_time r) ;;
          wh <- bind_number (PyFloat (r_work_hours r)) ;;
          ot <- bind_number (PyFloat (r_overtime r)) ;;
          km <- bind_number (PyFloat (r_total_km r)) ;;
          mkad <- bind_number (r_km_mkad r) ;;
          let last := Z.max (largest_rowid t) (t_seq t) in
          if MAX_ROWID <=? last then Raise (u8 "database or disk is full")
          else
            Ret (Some (Table (t_rows t
                              ++ [Row (last + 1) d v st et (real_affinity wh)
                                      (real_affinity ot) (real_affinity km)
                                      (real_affinity mkad)])
                             (last + 1)))
      end
  end.

(** *** [handle_message]

    The bot as far as the handler goes: the store, and the replies it has
    sent, the oldest first. *)
Record bot := Bot { bot_db : database; bot_replies : list str }.

(** [if error:] takes a message that is not empty; [save_report] runs
    before [format_report] does.  [reply_text] is taken to deliver the
    reply: what Telegram does with it is not part of the model. *)
Definition handle_message (text : str) (b : bot) : outcome bot :=
  let '(report, error) := parse_report text in
  match error with
  | Some ((_ :: _) as e) =>
      Ret (Bot (bot_db b) (bot_replies b ++ [u8 "⚠️ Ошибка: " ++ e]))
  | _ =>
      db <- save_report report (bot_db b) ;;
      match report with
      | Some r =>
          Ret (Bot db (bot_replies b
                       ++ [u8 "✅ Отчёт сохранён!" ++ [NL; NL] ++ format_report r]))
      | None => Raise (u8 "'NoneType' object is not subscriptable")
      end
  end.

(** The text messages of a chat, handled one after the other as they come
    in, up to the first exception that leaves the handler. *)
Fixpoint handle_messages (texts : list str) (b : bot) : outcome bot :=
  match texts with
  | [] => Ret b
  | text :: rest => b' <- handle_message text b ;; handle_messages rest b'
  end.

(** ** The vocabulary of the specification *)

(** [l] occurs in [text] as a substring. *)
Definition occurs (l text : str) : Prop :=
  exists pre post, text = pre ++ l ++ post.

(** The six required fields, in the order [parse_report] looks for them. *)
Inductive field := FDate | FVehicle | FStart | FEnd | FOvertime | FKm.

Definition FIELDS : list field := [FDate; FVehicle; FStart; FEnd; FOvertime; FKm].

Definition fields_before (f : field) : list field :=
  match f with
  | FDate => []
  | FVehicle => [FDate]
  | FStart => [FDate; FVehicle]
  | FEnd => [FDate; FVehicle; FStart]
  | FOvertime => [FDate; FVehicle; FStart; FEnd]
  | FKm => [FDate; FVehicle; FStart; FEnd; FOvertime]
  end.

Definition pattern_of (f : field) : regex :=
  match f with
  | FDate => DATE_PATTERN
  | FVehicle => VEHICLE_PATTERN
  | FStart => START_PATTERN
  | FEnd => END_PATTERN
  | FOvertime => OVERTIME_PATTERN
  | FKm => KM_PATTERN
  end.

Definition labels_of (f : field) : list str :=
  match f with
  | FDate => []
  | FVehicle => VEHICLE_LABELS
  | FStart => START_LABELS
  | FEnd => END_LABELS
  | FOvertime => OVERTIME_LABELS
  | FKm => KM_LABELS
  end.

(** The message that names a missing field. *)
Definition missing_msg (f : field) : str :=
  match f with
  | FDate => MSG_NO_DATE
  | FVehicle => MSG_NO_VEHICLE
  | FStart => MSG_NO_START
  | FEnd => MSG_NO_END
  | FOvertime => MSG_NO_OVERTIME
  | FKm => MSG_NO_KM
  end.

(** The conversion [parse_report] applies to what the pattern of a field
    matched. *)
Definition convert (f : field) (m : match_obj) : outcome unit :=
  match f with
  | FDate => _ <- strptime_date (m_group 1 m) ;; Ret tt
  | FVehicle => _ <- py_strip (m_group 1 m) ;; Ret tt
  | FStart | FEnd => _ <- strptime_time (m_group 1 m) ;; Ret tt
  | FOvertime =>
      _ <- py_float (m_group 1 m) ;; _ <- overtime_minutes m ;; Ret tt
  | FKm => _ <- py_float (m_group 1 m) ;; Ret tt
  end.

(** A field of a text is missing (its pattern matches nowhere), present with
    a value that converts, or present with a value whose conversion raises. *)
Inductive status :=
| Valid
| Missing
| Invalid (msg : str).

Definition field_status (f : field) (text : str) : status :=
  match search (pattern_of f) text with
  | None => Missing
  | Some m =>
      match convert f m with
      | Ret _ => Valid
      | Raise msg => Invalid msg
      end
  end.

(** The shape DD.MM.YYYY: digits and dots, nothing about their values. *)
Definition is_date_shaped (g : str) : bool :=
  match g with
  | [d1; d2; p1; m1; m2; p2; y1; y2; y3; y4] =>
      is_digit d1 && is_digit d2 && (p1 =? 46) && is_digit m1 && is_digit m2
      && (p2 =? 46) && is_digit y1 && is_digit y2 && is_digit y3 && is_digit y4
  | _ => false
  end.

(** The shape HH:MM. *)
Definition is_time_shaped (g : str) : bool :=
  match g with
  | [h1; h2; p; m1; m2] =>
      is_digit h1 && is_digit h2 && (p =? 58) && is_digit m1 && is_digit m2
  | _ => false
  end.

(** The label of a field is missing from a text: none of its synonyms occurs
    in it.  The date has no label; it is missing when nothing in the text has
    the shape of a date. *)
Definition field_absent (f : field) (text : str) : Prop :=
  match f with
  | FDate => forall pre g post, text = pre ++ g ++ post -> is_date_shaped g = false
  | _ => forall l, In l (labels_of f) -> ~ occurs l text
  end.

(** The clock time a pattern finds in a text: what its first labelled HH:MM
    converts to. *)
Definition clock_time_of (p : regex) (text : str) : option time :=
  match search p text with
  | Some m =>
      match strptime_time (m_group 1 m) with
      | Ret dt => Some (dt_time dt)
      | Raise _ => None
      end
  | None => None
  end.

Definition start_time_of (text : str) : option time :=
  clock_time_of START_PATTERN text.

Definition end_time_of (text : str) : option time :=
  clock_time_of END_PATTERN text.

(** Seconds since midnight. *)
Definition clock_seconds (t : time) : Z :=
  hour t * 3600 + minute t * 60 + second t.

(** A standalone token of the shape DD.MM.YYYY: an occurrence with no digit
    right before it and none right after it. *)
Definition standalone_date_at (text pre g post : str) : Prop :=
  text = pre ++ g ++ post /\ is_date_shaped g = true
  /\ (forall p c, pre = p ++ [c] -> is_digit c = false)
  /\ (forall c p, post = c :: p -> is_digit c = false).

Definition has_standalone_date (text : str) : Prop :=
  exists pre g post, standalone_date_at text pre g post.

(** *** The shape of what a pattern captured *)

Definition value_shaped (f : field) (g : str) : bool :=
  match f with
  | FDate => is_date_shaped g
  | FVehicle =>
      negb (Nat.eqb (List.length g) 0) && forallb (fun c => negb (c =? NL)) g
  | FStart | FEnd => is_time_shaped g
  | FOvertime | FKm => negb (Nat.eqb (List.length g) 0) && forallb is_digit g
  end.

(** The pattern of the field matches, and its first group has the shape of
    a value of the field. *)
Definition field_shaped (f : field) (text : str) : bool :=
  match search (pattern_of f) text with
  | Some m =>
      match m_group 1 m with
      | Some g => value_shaped f g
      | None => false
      end
  | None => false
  end.


(** The overtime of so many hours and, when the text gives them, minutes. *)
Definition overtime_of (hours : Z) (minutes : option Z) : spec_float :=
  PyFloat.add (PyFloat.of_Z hours)
    match minutes with
    | Some mi => PyFloat.div (PyFloat.of_Z mi) (PyFloat.of_Z 60)
    | None => PyFloat.int_truediv 0 60
    end.

(** The exact value of the overtime of a result, when it holds a record. *)
Definition overtime_value (res : result) : option Q :=
  match res with
  | (Some r, None) => PyFloat.to_Q (r_overtime r)
  | _ => None
  end.

(** [occurs], decided. *)
Fixpoint occursb (l s : str) : bool :=
  match strip_prefix l s with
  | Some _ => true
  | None =>
      match s with
      | [] => false
      | _ :: s' => occursb l s'
      end
  end.

(** The reading of the vehicle field by the line of its label: the text
    after the first vehicle label up to the end of that line, stripped. *)
Fixpoint rest_of_line (s : str) : str :=
  match s with
  | [] => []
  | c :: s' => if c =? NL then [] else c :: rest_of_line s'
  end.

Fixpoint strip_any (ls : list str) (s : str) : option str :=
  match ls with
  | [] => None
  | l :: ls' =>
      match strip_prefix l s with
      | Some rest => Some rest
      | None => strip_any ls' s
      end
  end.

Fixpoint after_first_label (ls : list str) (s : str) : option str :=
  match strip_any ls s with
  | Some rest => Some rest
  | None =>
      match s with
      | [] => None
      | _ :: s' => after_first_label ls s'
      end
  end.

Definition vehicle_on_label_line (text : str) : option str :=
  match after_first_label VEHICLE_LABELS text with
  | Some rest => Some (strip (rest_of_line rest))
  | None => None
  end.

(** A vehicle label stands in [text] right after [pre], with the whitespace
    [ws] after it and then [g], one character at least and no line end. *)
Definition vehicle_at (text pre l ws g post : str) : Prop :=
  text = pre ++ l ++ ws ++ g ++ post /\ In l VEHICLE_LABELS
  /\ ws <> [] /\ forallb is_space ws = true
  /\ g <> [] /\ forallb (fun c => negb (c =? NL)) g = true.

(** What the vehicle pattern captures in [text]: [g] stands after the
    leftmost vehicle label that whitespace and a character other than a line
    end follow, past the longest whitespace that such a character follows,
    and runs to the end of its line. *)
Definition vehicle_capture (text g : str) : Prop :=
  exists pre l ws post,
    vehicle_at text pre l ws g post
    /\ (post = [] \/ exists post', post = NL :: post')
    /\ forall pre' l' ws' g' post',
         vehicle_at text pre' l' ws' g' post' ->
         (List.length pre <= List.length pre')%nat
         /\ (List.length pre' = List.length pre ->
             (List.length ws' <= List.length ws)%nat).

(** The longest prefix of a class is skipped. *)
Fixpoint skip (k : cls) (s : str) : str :=
  match s with
  | x :: s' => if in_cls k x then skip k s' else s
  | [] => []
  end.

(** Where the first of some labels stands in a text. *)
Fixpoint label_index (ls : list str) (s : str) (pos : nat) : option nat :=
  match strip_any ls s with
  | Some _ => Some pos
  | None =>
      match s with
      | [] => None
      | _ :: s' => label_index ls s' (S pos)
      end
  end.

(** The overtime line of a text: a whole line, [pre] before it and [post]
    after it, that starts with the first overtime label of the text. *)
Definition overtime_line_is (text line pre post : str) : Prop :=
  text = pre ++ line ++ post
  /\ (pre = [] \/ exists p, pre = p ++ [NL])
  /\ (post = [] \/ exists p, post = NL :: p)
  /\ label_index OVERTIME_LABELS text 0 = Some (List.length pre).

(** What follows, past any whitespace, starts with a digit. *)
Definition digit_follows (post : str) : bool :=
  match skip Space post with
  | d :: _ => is_digit d
  | [] => false
  end.

(** The vehicle of a result, when it holds a record. *)
Definition vehicle_value (res : result) : option str :=
  match res with
  | (Some r, None) => Some (r_vehicle r)
  | _ => None
  end.

(** Two times of one day differ by a whole number [j] of minutes between
    -1439 and 1439; two facts about floats are checked on each of them. *)

Definition clock_differences : list Z :=
  map (fun n => Z.of_nat n - 1439) (seq 0 2879).

Definition seconds_exact (j : Z) : bool :=
  PyFloat.eqb (PyFloat.int_truediv (60 * j * 1000000) 1000000)
              (PyFloat.of_Z (60 * j)).

Definition hours_negative (j : Z) : bool :=
  (0 <=? j)
  || PyFloat.is_negative (PyFloat.div (PyFloat.of_Z (60 * j)) (PyFloat.of_Z 3600)).

(** *** Dates and times as one writes them *)

(** DD.MM.YYYY and HH:MM in ASCII digits. *)
Definition date_text (y mo d : Z) : str :=
  zero_padded 2 d ++ DOT ++ zero_padded 2 mo ++ DOT ++ zero_padded 4 y.

Definition clock_text (h mi : Z) : str :=
  zero_padded 2 h ++ COLON ++ zero_padded 2 mi.

(** A date of the calendar, a time of the clock. *)
Definition valid_date (y mo d : Z) : Prop :=
  1 <= y <= 9999 /\ 1 <= mo <= 12 /\ 1 <= d <= days_in_month y mo.

Definition valid_clock (h mi : Z) : Prop := 0 <= h <= 23 /\ 0 <= mi <= 59.

(** [r], tried on [m] followed by anything, takes [m] and turns the groups
    [c] into [c'], as soon as what follows succeeds. *)
Definition consumes (r : regex) (m : str) (c c' : caps) : Prop :=
  forall R rest (cont : str -> caps -> option R) res,
    cont rest c' = Some res -> rmatch r (m ++ rest) c cont = Some res.

(** The numbers of two digits; the check that a clock time converts. *)
Definition two_digits : list Z := map Z.of_nat (seq 0 100).

Definition clock_converts (h mi : Z) : bool :=
  match strptime_time (Some (clock_text h mi)) with
  | Ret (DateTime (Date y mo d) (Time h' mi' s')) =>
      (y =? 1900) && (mo =? 1) && (d =? 1) && (h' =? h) && (mi' =? mi) && (s' =? 0)
  | Raise _ => false
  end.

(** *** The vocabulary of the reply and the store *)

(** A float that is a number, zero or an infinity, with the sign bit clear. *)
Definition nonnegative (x : spec_float) : bool :=
  match x with
  | S754_zero s | S754_infinity s | S754_finite s _ _ => negb s
  | S754_nan => false
  end.

(** A text without a line feed, and the line feeds of a text. *)
Definition one_line (s : str) : Prop := Forall (fun c => c <> NL) s.

Definition line_breaks (s : str) : nat := count_occ Z.eq_dec s NL.

(** The lines of a text, as [lines] joins them. *)
Fixpoint split_lines (s : str) : list str :=
  match s with
  | [] => [[]]
  | c :: s' =>
      if c =? NL then [] :: split_lines s'
      else
        match split_lines s' with
        | l :: ls => (c :: l) :: ls
        | [] => [[c]]
        end
  end.

(** The six lines of the reply that shows a record. *)
Definition reply_lines (r : report) : list str :=
  split_lines (format_report r).

Fixpoint str_eqb (s t : str) : bool :=
  match s, t with
  | [], [] => true
  | a :: s', b :: t' => (a =? b) && str_eqb s' t'
  | _, _ => false
  end.

(** So many minutes in hours, to the hundredth: [j] minutes are [5j/3]
    hundredths of an hour, which is never half-way between two integers. *)
Definition shown_hours (j : Z) : str :=
  let h := (10 * Z.abs j + 3) / 6 in
  (if j <? 0 then [45] else [])
  ++ str_of_int (h / 100) ++ [46] ++ zero_padded 2 (h mod 100).

(** Two checks on the float of each difference of two clock times, and one
    on the float of each overtime of two digits of hours and of minutes. *)
Definition hours_shown (j : Z) : bool :=
  str_eqb (format_2f (PyFloat.div (PyFloat.of_Z (60 * j)) (PyFloat.of_Z 3600)))
          (shown_hours j).

Definition hours_within_a_day (j : Z) : bool :=
  let work_hours := PyFloat.div (PyFloat.of_Z (60 * j)) (PyFloat.of_Z 3600) in
  SFltb (PyFloat.of_Z (-24)) work_hours && SFltb work_hours (PyFloat.of_Z 24).

Definition overtime_shown (hours : Z) : bool :=
  str_eqb (format_2f (overtime_of hours None)) (shown_hours (60 * hours))
  && forallb (fun minutes =>
                str_eqb (format_2f (overtime_of hours (Some minutes)))
                        (shown_hours (60 * hours + minutes)))
             two_digits.

(** The messages [parse_report] can return in place of a record: the name
    of a missing field, or what [strptime] says of a date or a time. *)
Inductive diagnostic : str -> Prop :=
| no_date : diagnostic MSG_NO_DATE
| no_vehicle : diagnostic MSG_NO_VEHICLE
| no_start : diagnostic MSG_NO_START
| no_end : diagnostic MSG_NO_END
| no_overtime : diagnostic MSG_NO_OVERTIME
| no_km : diagnostic MSG_NO_KM
| no_such_date g :
    is_date_shaped g = true ->
    diagnostic (u8 "time data " ++ py_repr g ++ u8 " does not match format "
                ++ py_repr DATE_FORMAT)
| no_such_time g :
    is_time_shaped g = true ->
    diagnostic (u8 "time data " ++ py_repr g ++ u8 " does not match format "
                ++ py_repr TIME_FORMAT)
| minute_left_over c :
    is_digit c = true -> diagnostic (u8 "unconverted data remains: " ++ [c])
| no_such_day : diagnostic (u8 "day is out of range for month")
| year_zero : diagnostic (u8 "year 0 is out of range").

(** The digits of a date DD.MM.YYYY and of a time HH:MM, read as numbers. *)
Definition written_date (g : str) (y mo d : Z) : Prop :=
  digits_value (firstn 2 g) = Some d
  /\ digits_value (firstn 2 (skipn 3 g)) = Some mo
  /\ digits_value (skipn 6 g) = Some y.

Definition written_time (g : str) (h mi : Z) : Prop :=
  digits_value (firstn 2 g) = Some h /\ digits_value (skipn 3 g) = Some mi.

(** A text SQLite stores: well-formed Unicode within the length it takes. *)
Definition storable (s : str) : Prop :=
  forallb (fun c => negb (is_surrogate c)) s = true
  /\ utf8_size s <= SQLITE_MAX_LENGTH.

(** The identifier the next row gets, and a table that has one left. *)
Definition next_rowid (t : table) : Z := Z.max (largest_rowid t) (t_seq t) + 1.

Definition has_room (t : table) : Prop := next_rowid t <= MAX_ROWID.

(** The row a record is to be stored as: four texts and four floats. *)
Definition real_of (x : pynum) : spec_float :=
  match x with
  | PyInt n => PyFloat.of_Z n
  | PyFloat f => f
  end.

Definition row_of (id : Z) (r : report) : row :=
  Row id (SqlText (r_date r)) (SqlText (r_vehicle r))
      (SqlText (r_start_time r)) (SqlText (r_end_time r))
      (SqlReal (r_work_hours r)) (SqlReal (r_overtime r))
      (SqlReal (r_total_km r)) (SqlReal (real_of (r_km_mkad r))).

Fixpoint rows_from (id : Z) (rs : list report) : list row :=
  match rs with
  | [] => []
  | r :: rs' => row_of id r :: rows_from (id + 1) rs'
  end.

(** The records of the texts that [parse_report] accepts, in their order. *)
Fixpoint records_of (texts : list str) : list report :=
  match texts with
  | [] => []
  | text :: rest =>
      match parse_report text with
      | (Some r, _) => r :: records_of rest
      | (None, _) => records_of rest
      end
  end.

(** The replies to some texts, each on its own. *)
Definition reply_to (text : str) : str :=
  match parse_report text with
  | (Some r, _) => u8 "✅ Отчёт сохранён!" ++ [NL; NL] ++ format_report r
  | (None, Some e) => u8 "⚠️ Ошибка: " ++ e
  | (None, None) => []
  end.

(** *** Reports to run the parser on *)

(** The example of the specification. *)
Definition day_shift : str :=
  lines [u8 "15.03.2024"; u8 "ТС Газель"; u8 "Начало смены 08:00";
         u8 "Окончание смены 16:30"; u8 "Переработка 1 15";
         u8 "Общий пробег 120"; u8 "Пробег за МКАД 40"].

Definition day_shift_record : report :=
  Report (u8 "2024-03-15") (u8 "Газель") (u8 "08:00:00") (u8 "16:30:00")
         (PyFloat.div (PyFloat.of_Z 17) (PyFloat.of_Z 2))
         (PyFloat.div (PyFloat.of_Z 5) (PyFloat.of_Z 4))
         (PyFloat.of_Z 120) (PyFloat (PyFloat.of_Z 40)).

(** A shift over midnight, and no distance beyond the ring road. *)
Definition night_shift : str :=
  lines [u8 "15.03.2024"; u8 "ТС Газель"; u8 "Начало смены 22:00";
         u8 "Окончание смены 02:00"; u8 "Переработка 2";
         u8 "Общий пробег 120"].

Definition night_shift_record : report :=
  Report (u8 "2024-03-15") (u8 "Газель") (u8 "22:00:00") (u8 "02:00:00")
         (PyFloat.of_Z (-20)) (PyFloat.of_Z 2) (PyFloat.of_Z 120) (PyInt 0).

(** Every label and every shape, but no such time of the clock. *)
Definition bad_clock_report : str :=
  lines [u8 "15.03.2024"; u8 "ТС Газель"; u8 "Начало смены 25:99";
         u8 "Окончание смены 16:30"; u8 "Переработка 1 15";
         u8 "Общий пробег 120"].

Definition BAD_CLOCK_MSG : str :=
  u8 "time data '25:99' does not match format '%H:%M'".

Definition no_start_report : str :=
  lines [u8 "15.03.2024"; u8 "ТС Газель"; u8 "Окончание смены 16:30";
         u8 "Переработка 1 15"; u8 "Общий пробег 120"].

Definition no_start_no_km_report : str :=
  lines [u8 "15.03.2024"; u8 "ТС Газель"; u8 "Окончание смены 16:30";
         u8 "Переработка 1 15"].

(** A date of the right shape and no such day, and nothing else. *)
Definition invalid_date_only : str := u8 "31.02.2024".

Definition DAY_RANGE_MSG : str := u8 "day is out of range for month".

(** Nothing but a blank after the vehicle label on its line. *)
Definition blank_vehicle_report : str :=
  lines [u8 "15.03.2024"; u8 "ТС "; u8 "Начало смены 08:00";
         u8 "Окончание смены 16:30"; u8 "Переработка 1";
         u8 "Общий пробег 120"].

(** Two vehicle labels on one line, and a vehicle label that no whitespace
    follows. *)
Definition label_in_vehicle : str :=
  lines [u8 "15.03.2024"; u8 "ТС Смена 1"; u8 "Начало смены 08:00";
         u8 "Окончание смены 16:30"; u8 "Переработка 1";
         u8 "Общий пробег 120"].

Definition label_with_colon : str :=
  lines [u8 "15.03.2024"; u8 "ТС: Газель"; u8 "Смена дневная";
         u8 "Начало смены 08:00"; u8 "Окончание смены 16:30";
         u8 "Переработка 1"; u8 "Общий пробег 120"].

(** The overtime line "Переработка 2" with the date on the line below. *)
Definition date_after_overtime : str :=
  lines [u8 "ТС Газель"; u8 "Начало смены 08:00"; u8 "Окончание смены 16:30";
         u8 "Общий пробег 120"; u8 "Переработка 2"; u8 "15.03.2024"].

(** The shape of a date only inside a longer run of digits. *)
Definition embedded_date : str := u8 "115.03.20245".


(** A vehicle whose name ends in one half of a surrogate pair. *)
Definition lone_surrogate_report : str :=
  lines [u8 "15.03.2024"; u8 "ТС Газель" ++ [55357]; u8 "Начало смены 08:00";
         u8 "Окончание смены 16:30"; u8 "Переработка 1 15";
         u8 "Общий пробег 120"].

Definition lone_surrogate_record : report :=
  Report (u8 "2024-03-15") (u8 "Газель" ++ [55357]) (u8 "08:00:00") (u8 "16:30:00")
         (PyFloat.div (PyFloat.of_Z 17) (PyFloat.of_Z 2))
         (PyFloat.div (PyFloat.of_Z 5) (PyFloat.of_Z 4))
         (PyFloat.of_Z 120) (PyInt 0).

(** The replies to the two reports. *)
Definition day_shift_reply : str :=
  lines [u8 "✅ Отчёт сохранён!"; [];
         u8 "📅 Дата: 2024-03-15"; u8 "🚘 Машина: Газель";
         u8 "⏰ Смена: 08:00:00 - 16:30:00";
         u8 "⏲️ Общее время: 8.50 ч"; u8 "⚡️ Переработка: 1.25 ч";
         u8 "🛣 Пробег: 120.0 км (за МКАД 40.0 км)"].

Definition night_shift_reply : str :=
  lines [u8 "✅ Отчёт сохранён!"; [];
         u8 "📅 Дата: 2024-03-15"; u8 "🚘 Машина: Газель";
         u8 "⏰ Смена: 22:00:00 - 02:00:00";
         u8 "⏲️ Общее время: -20.00 ч"; u8 "⚡️ Переработка: 2.00 ч";
         u8 "🛣 Пробег: 120.0 км (за МКАД 0 км)"].

(** *** What the patterns denote

    [sem r m c c']: the pattern [r] matches exactly the string [m], turning
    the groups [c] into [c']. *)
Inductive sem : regex -> str -> caps -> caps -> Prop :=
| sem_Lit l c : sem (Lit l) l c c
| sem_Chr k x c : in_cls k x = true -> sem (Chr k) [x] c c
| sem_Rep n k m c :
    List.length m = n -> forallb (in_cls k) m = true -> sem (Rep n k) m c c
| sem_Plus k m c :
    m <> [] -> forallb (in_cls k) m = true -> sem (Plus k) m c c
| sem_Star k m c : forallb (in_cls k) m = true -> sem (Star k) m c c
| sem_Cat r1 r2 m1 m2 c c1 c2 :
    sem r1 m1 c c1 -> sem r2 m2 c1 c2 -> sem (Cat r1 r2) (m1 ++ m2) c c2
| sem_AltL r1 r2 m c c' : sem r1 m c c' -> sem (Alt r1 r2) m c c'
| sem_AltR r1 r2 m c c' : sem r2 m c c' -> sem (Alt r1 r2) m c c'
| sem_OptSome r m c c' : sem r m c c' -> sem (Opt r) m c c'
| sem_OptNone r c : sem (Opt r) [] c c
| sem_Grp i r m c c' : sem r m c c' -> sem (Grp i r) m c ((i, m) :: c').

(** ** The matcher *)

Lemma strip_prefix_sound : forall l s s',
  strip_prefix l s = Some s' -> s = l ++ s'.
Proof.
  induction l as [|a l IH]; intros s s' H; simpl in H.
  - now inversion H.
  - destruct s as [|b s]; [discriminate|].
    destruct (Z.eqb_spec a b); [|discriminate].
    subst b. simpl. f_equal. now apply IH.
Qed.

Lemma strip_prefix_app : forall l s, strip_prefix l (l ++ s) = Some s.
Proof.
  induction l as [|a l IH]; intros s; simpl; [reflexivity|].
  now rewrite Z.eqb_refl.
Qed.

Lemma rep_sound : forall R k n s (cont : str -> option R) res,
  rep k n s cont = Some res ->
  exists m s', s = m ++ s' /\ List.length m = n
               /\ forallb (in_cls k) m = true /\ cont s' = Some res.
Proof.
  induction n as [|n IH]; intros s cont res H; simpl in H.
  - exists [], s. auto.
  - destruct s as [|x s]; [discriminate|].
    destruct (in_cls k x) eqn:Hx; [|discriminate].
    destruct (IH _ _ _ H) as (m & s' & -> & Hl & Hall & Hc).
    exists (x :: m), s'. simpl. rewrite Hx, Hall, Hl. auto.
Qed.

Lemma rep_complete : forall R k n s (cont : str -> option R),
  rep k n s cont = None ->
  forall m s', s = m ++ s' -> List.length m = n ->
               forallb (in_cls k) m = true -> cont s' = None.
Proof.
  induction n as [|n IH]; intros s cont H m s' -> Hl Hall; simpl in H.
  - destruct m; [assumption|discriminate].
  - destruct m as [|x m]; [discriminate|]. simpl in *.
    apply andb_prop in Hall as [Hx Hall]. rewrite Hx in H.
    eapply IH; eauto.
Qed.

Lemma many_sound : forall R k s (cont : str -> option R) res,
  many k s cont = Some res ->
  exists m s', s = m ++ s' /\ forallb (in_cls k) m = true /\ cont s' = Some res.
Proof.
  induction s as [|x s IH]; intros cont res H; simpl in H.
  - exists [], []. auto.
  - destruct (in_cls k x) eqn:Hx.
    + destruct (many k s cont) eqn:Hm.
      * inversion H; subst.
        destruct (IH _ _ Hm) as (m & s' & -> & Hall & Hc).
        exists (x :: m), s'. simpl. rewrite Hx, Hall. auto.
      * exists [], (x :: s). auto.
    + exists [], (x :: s). auto.
Qed.

Lemma many_complete : forall R k s (cont : str -> option R),
  many k s cont = None ->
  forall m s', s = m ++ s' -> forallb (in_cls k) m = true -> cont s' = None.
Proof.
  induction s as [|x s IH]; intros cont H m s' E Hall; simpl in H.
  - destruct m; [|discriminate]. simpl in E. now subst.
  - destruct m as [|y m].
    + simpl in E. subst s'.
      destruct (in_cls k x); [|assumption].
      destruct (many k s cont); [discriminate|assumption].
    + simpl in E. inversion E; subst y s. simpl in Hall.
      apply andb_prop in Hall as [Hx Hall]. rewrite Hx in H.
      destruct (many k (m ++ s') cont) eqn:Hm; [discriminate|].
      eapply IH; eauto.
Qed.

(** When the continuation cannot fail, a greedy repetition takes all it can. *)
Lemma many_greedy : forall R k s (cont : str -> option R),
  (forall s', cont s' <> None) -> many k s cont = cont (skip k s).
Proof.
  induction s as [|x s IH]; intros cont Hc; simpl; [reflexivity|].
  destruct (in_cls k x); [|reflexivity].
  rewrite IH by assumption.
  destruct (cont (skip k s)) eqn:E; [reflexivity|]. now apply Hc in E.
Qed.

Lemma firstn_app_exact : forall (m s' : str),
  firstn (List.length (m ++ s') - List.length s') (m ++ s') = m.
Proof.
  intros m s'. rewrite length_app.
  replace (List.length m + List.length s' - List.length s')%nat
    with (List.length m + 0)%nat by lia.
  rewrite firstn_app_2. simpl. now rewrite app_nil_r.
Qed.

Lemma rmatch_sound : forall R r s c (cont : str -> caps -> option R) res,
  rmatch r s c cont = Some res ->
  exists m s' c', s = m ++ s' /\ sem r m c c' /\ cont s' c' = Some res.
Proof.
  induction r as [l|k|n k|k|k|r1 IH1 r2 IH2|r1 IH1 r2 IH2|r1 IH1|i r1 IH1];
    intros s c cont res H; simpl in H.
  - destruct (strip_prefix l s) as [s'|] eqn:E; [|discriminate].
    apply strip_prefix_sound in E. exists l, s', c. split; [assumption|].
    split; [constructor|assumption].
  - destruct s as [|x s]; [discriminate|].
    destruct (in_cls k x) eqn:Hx; [|discriminate].
    exists [x], s, c. split; [reflexivity|]. split; [now constructor|assumption].
  - apply rep_sound in H as (m & s' & -> & Hl & Hall & Hc).
    exists m, s', c. split; [reflexivity|]. split; [now constructor|assumption].
  - destruct s as [|x s]; [discriminate|].
    destruct (in_cls k x) eqn:Hx; [|discriminate].
    apply many_sound in H as (m & s' & -> & Hall & Hc).
    exists (x :: m), s', c. split; [reflexivity|]. split; [|assumption].
    constructor; [discriminate|]. simpl. now rewrite Hx.
  - apply many_sound in H as (m & s' & -> & Hall & Hc).
    exists m, s', c. split; [reflexivity|]. split; [now constructor|assumption].
  - apply IH1 in H as (m1 & s1 & c1 & -> & Hs1 & H).
    apply IH2 in H as (m2 & s2 & c2 & -> & Hs2 & H).
    exists (m1 ++ m2), s2, c2. rewrite app_assoc. split; [reflexivity|].
    split; [econstructor; eassumption|assumption].
  - destruct (rmatch r1 s c cont) eqn:E.
    + inversion H; subst. apply IH1 in E as (m & s' & c' & -> & Hs & Hc).
      exists m, s', c'. split; [reflexivity|]. split; [now apply sem_AltL|assumption].
    + apply IH2 in H as (m & s' & c' & -> & Hs & Hc).
      exists m, s', c'. split; [reflexivity|]. split; [now apply sem_AltR|assumption].
  - destruct (rmatch r1 s c cont) eqn:E.
    + inversion H; subst. apply IH1 in E as (m & s' & c' & -> & Hs & Hc).
      exists m, s', c'. split; [reflexivity|]. split; [now apply sem_OptSome|assumption].
    + exists [], s, c. split; [reflexivity|]. split; [apply sem_OptNone|assumption].
  - apply IH1 in H as (m & s' & c' & -> & Hs & Hc).
    rewrite firstn_app_exact in Hc.
    exists m, s', ((i, m) :: c'). split; [reflexivity|].
    split; [now constructor|assumption].
Qed.

Lemma rmatch_complete : forall R r s c (cont : str -> caps -> option R),
  rmatch r s c cont = None ->
  forall m s' c', s = m ++ s' -> sem r m c c' -> cont s' c' = None.
Proof.
  induction r as [l|k|n k|k|k|r1 IH1 r2 IH2|r1 IH1 r2 IH2|r1 IH1|i r1 IH1];
    intros s c cont H m s' c' E Hs; subst s; simpl in H;
    inversion Hs; subst; clear Hs.
  - now rewrite strip_prefix_app in H.
  - simpl in H.
    match goal with Hx : in_cls _ _ = true |- _ => now rewrite Hx in H end.
  - match goal with Hall : forallb _ _ = true |- _ =>
      exact (rep_complete _ _ _ _ _ H _ _ eq_refl eq_refl Hall) end.
  - destruct m as [|x m]; [congruence|]. simpl in *.
    match goal with Hall : _ && _ = true |- _ =>
      apply andb_prop in Hall as [Hx Hall]; rewrite Hx in H;
      exact (many_complete _ _ _ _ H _ _ eq_refl Hall) end.
  - match goal with Hall : forallb _ _ = true |- _ =>
      exact (many_complete _ _ _ _ H _ _ eq_refl Hall) end.
  - rewrite <- app_assoc in H.
    match goal with H1 : sem r1 _ _ _, H2 : sem r2 _ _ _ |- _ =>
      pose proof (IH1 _ _ _ H _ _ _ eq_refl H1) as H'; simpl in H';
      exact (IH2 _ _ _ H' _ _ _ eq_refl H2) end.
  - destruct (rmatch r1 (m ++ s') c cont) eqn:E1; [discriminate|].
    eapply IH1; eauto.
  - destruct (rmatch r1 (m ++ s') c cont) eqn:E1; [discriminate|].
    eapply IH2; eauto.
  - destruct (rmatch r1 (m ++ s') c cont) eqn:E1; [discriminate|].
    eapply IH1; eauto.
  - simpl in H. destruct (rmatch r1 s' c' cont); [discriminate|assumption].
  - match goal with H1 : sem r1 _ _ _ |- _ =>
      pose proof (IH1 _ _ _ H _ _ _ eq_refl H1) as H'; simpl in H';
      now rewrite firstn_app_exact in H' end.
Qed.

Lemma re_match_sound : forall r s rest c,
  re_match r s = Some (rest, c) -> exists m, s = m ++ rest /\ sem r m [] c.
Proof.
  intros r s rest c H. unfold re_match in H.
  apply rmatch_sound in H as (m & s' & c' & -> & Hs & Hc).
  inversion Hc; subst. now exists m.
Qed.

Lemma re_match_complete : forall r m rest c,
  sem r m [] c -> re_match r (m ++ rest) <> None.
Proof.
  intros r m rest c Hs H. unfold re_match in H.
  pose proof (rmatch_complete _ _ _ _ _ H _ _ _ eq_refl Hs). discriminate.
Qed.

(** *** Search: the leftmost position that matches *)

Lemma search_from_inv : forall r s pos mo,
  search_from r pos s = Some mo ->
  exists pre suf rest,
    s = pre ++ suf /\ re_match r suf = Some (rest, m_caps mo)
    /\ m_start mo = (pos + List.length pre)%nat
    /\ forall pre' suf', s = pre' ++ suf' ->
         (List.length pre' < List.length pre)%nat -> re_match r suf' = None.
Proof.
  induction s as [|x s IH]; intros pos mo H; simpl in H.
  - destruct (re_match r []) as [[rest c]|] eqn:E; [|discriminate].
    inversion H; subst. exists [], [], rest. simpl.
    repeat split; auto. intros; lia.
  - destruct (re_match r (x :: s)) as [[rest c]|] eqn:E.
    + inversion H; subst. exists [], (x :: s), rest. simpl.
      repeat split; auto. intros; lia.
    + apply IH in H as (pre & suf & rest & -> & Hm & Hst & Hmin).
      exists (x :: pre), suf, rest. simpl. repeat split; auto; [lia|].
      intros pre' suf' E' Hlt. destruct pre' as [|y pre'].
      * simpl in E'. now subst suf'.
      * simpl in E'. inversion E'; subst y. eapply Hmin; eauto. simpl in Hlt. lia.
Qed.

Lemma search_from_none : forall r s pos,
  search_from r pos s = None ->
  forall pre suf, s = pre ++ suf -> re_match r suf = None.
Proof.
  induction s as [|x s IH]; intros pos H pre suf E; simpl in H.
  - destruct (re_match r []) as [[rest c]|] eqn:E0; [discriminate|].
    destruct pre; [|discriminate]. simpl in E. now subst suf.
  - destruct (re_match r (x :: s)) as [[rest c]|] eqn:E0; [discriminate|].
    destruct pre as [|y pre].
    + simpl in E. now subst suf.
    + simpl in E. inversion E; subst. eapply IH; eauto.
Qed.

(** What a successful search found: the leftmost substring the pattern
    denotes. *)
Lemma search_found : forall r text mo,
  search r text = Some mo ->
  exists pre g post,
    text = pre ++ g ++ post /\ sem r g [] (m_caps mo)
    /\ m_start mo = List.length pre
    /\ forall pre' g' post' c', text = pre' ++ g' ++ post' -> sem r g' [] c' ->
         (List.length pre <= List.length pre')%nat.
Proof.
  intros r text mo H. unfold search in H.
  apply search_from_inv in H as (pre & suf & rest & -> & Hm & Hst & Hmin).
  apply re_match_sound in Hm as (g & -> & Hs).
  exists pre, g, rest. repeat split; auto.
  intros pre' g' post' c' E Hs'.
  destruct (Nat.le_gt_cases (List.length pre) (List.length pre')) as [|Hlt]; [assumption|].
  specialize (Hmin _ _ E Hlt). exfalso. eapply re_match_complete; eauto.
Qed.

Lemma search_none : forall r text,
  search r text = None ->
  forall pre g post c', text = pre ++ g ++ post -> ~ sem r g [] c'.
Proof.
  intros r text H pre g post c' E Hs. unfold search in H.
  pose proof (search_from_none _ _ _ H _ _ E) as Hn.
  eapply re_match_complete; eauto.
Qed.

Lemma search_some : forall r text pre g post c',
  text = pre ++ g ++ post -> sem r g [] c' -> search r text <> None.
Proof.
  intros r text pre g post c' E Hs H. eapply search_none; eauto.
Qed.

(** *** What the patterns of [main.py] denote *)

Lemma sem_alts : forall ls m c c',
  ls <> [] -> sem (alts ls) m c c' -> In m ls /\ c' = c.
Proof.
  intros [|l ls] m c c' Hne H; [congruence|]. clear Hne. simpl in H.
  revert l m H. induction ls as [|l' ls IH]; intros l m H.
  - inversion H; subst. simpl; auto.
  - inversion H; subst.
    + match goal with H1 : sem (Lit _) _ _ _ |- _ => inversion H1; subst end.
      simpl; auto.
    + match goal with H1 : sem _ _ _ _ |- _ => apply IH in H1 as [Hin ->] end.
      simpl in *; auto.
Qed.

Lemma sem_labelled : forall ls r g c c',
  ls <> [] -> sem (Cat (alts ls) r) g c c' ->
  exists l m, In l ls /\ g = l ++ m /\ sem r m c c'.
Proof.
  intros ls r g c c' Hne H. inversion H; subst.
  match goal with H1 : sem (alts _) _ _ _ |- _ =>
    apply sem_alts in H1 as [Hin ->]; [|assumption] end.
  eauto.
Qed.

Lemma forallb_length2 : forall (p : Z -> bool) m,
  List.length m = 2%nat -> forallb p m = true ->
  exists a b, m = [a; b] /\ p a = true /\ p b = true.
Proof.
  intros p [|a [|b [|? ?]]] Hl Hp; try discriminate. simpl in Hp.
  apply andb_prop in Hp as [Ha Hp]. apply andb_prop in Hp as [Hb _]. eauto.
Qed.

Lemma forallb_length4 : forall (p : Z -> bool) m,
  List.length m = 4%nat -> forallb p m = true ->
  exists a b c d, m = [a; b; c; d]
                  /\ p a = true /\ p b = true /\ p c = true /\ p d = true.
Proof.
  intros p [|a [|b [|c [|d [|? ?]]]]] Hl Hp; try discriminate. simpl in Hp.
  repeat (apply andb_prop in Hp as [? Hp]). exists a, b, c, d. auto.
Qed.

Lemma sem_date_shape : forall g c c',
  sem date_shape g c c' <-> is_date_shaped g = true /\ c' = c.
Proof.
  intros g c c'. split.
  - intros H. unfold date_shape in H.
    repeat match goal with
    | H : sem (Cat _ _) _ _ _ |- _ => inversion H; subst; clear H
    | H : sem (Lit _) _ _ _ |- _ => inversion H; subst; clear H
    | H : sem (Rep _ _) _ _ _ |- _ => inversion H; subst; clear H
    end.
    repeat match goal with
    | Hl : List.length ?m = 2%nat, Hp : forallb _ ?m = true |- _ =>
        destruct (forallb_length2 _ _ Hl Hp) as (? & ? & -> & ? & ?); clear Hl Hp
    | Hl : List.length ?m = 4%nat, Hp : forallb _ ?m = true |- _ =>
        destruct (forallb_length4 _ _ Hl Hp) as (? & ? & ? & ? & -> & ? & ? & ? & ?);
        clear Hl Hp
    end.
    simpl in *. split; [|reflexivity].
    repeat match goal with H : is_digit _ = true |- _ => rewrite H; clear H end.
    reflexivity.
  - intros [H ->]. unfold is_date_shaped in H.
    destruct g as [|d1 [|d2 [|p1 [|m1 [|m2 [|p2 [|y1 [|y2 [|y3 [|y4 [|? ?]]]]]]]]]]];
      try discriminate.
    repeat (apply andb_prop in H as [H ?]).
    repeat match goal with H : (_ =? _) = true |- _ => apply Z.eqb_eq in H; subst end.
    change [d1; d2; 46; m1; m2; 46; y1; y2; y3; y4]
      with ([d1; d2] ++ DOT ++ [m1; m2] ++ DOT ++ [y1; y2; y3; y4]).
    unfold date_shape.
    repeat (eapply sem_Cat; [|]); try apply sem_Lit;
      apply sem_Rep; simpl; auto;
      repeat match goal with H : is_digit _ = true |- _ => rewrite H end; reflexivity.
Qed.

Lemma sem_time_shape : forall g c c',
  sem time_shape g c c' -> is_time_shaped g = true /\ c' = c.
Proof.
  intros g c c' H. unfold time_shape in H.
  repeat match goal with
  | H : sem (Cat _ _) _ _ _ |- _ => inversion H; subst; clear H
  | H : sem (Lit _) _ _ _ |- _ => inversion H; subst; clear H
  | H : sem (Rep _ _) _ _ _ |- _ => inversion H; subst; clear H
  end.
  repeat match goal with
  | Hl : List.length ?m = 2%nat, Hp : forallb _ ?m = true |- _ =>
      destruct (forallb_length2 _ _ Hl Hp) as (? & ? & -> & ? & ?); clear Hl Hp
  end.
  simpl in *. split; [|reflexivity].
  repeat match goal with H : is_digit _ = true |- _ => rewrite H; clear H end.
  reflexivity.
Qed.

(** A text without the label of a field has the field missing. *)
Lemma field_absent_missing : forall f text,
  field_absent f text -> search (pattern_of f) text = None.
Proof.
  intros f text Habs.
  destruct (search (pattern_of f) text) as [mo|] eqn:E; [exfalso|reflexivity].
  apply search_found in E as (pre & g & post & -> & Hs & _).
  destruct f; simpl in Habs, Hs;
    try (apply sem_labelled in Hs as (l & m & Hin & -> & _); [|discriminate];
         apply (Habs l Hin); exists pre, (m ++ post); now rewrite <- app_assoc).
  unfold DATE_PATTERN in Hs. inversion Hs; subst.
  match goal with H1 : sem date_shape _ _ _ |- _ =>
    apply sem_date_shape in H1 as [H1 _];
    rewrite (Habs _ _ _ eq_refl) in H1; discriminate end.
Qed.

(** *** Digits *)

Lemma decimal_bound : forall x v, decimal x = Some v -> 0 <= v <= 9.
Proof.
  intros x v H. unfold decimal in H.
  destruct (x <? 1632) eqn:E.
  - destruct ((48 <=? x) && (x <=? 57)) eqn:E1; [|discriminate].
    inversion H; subst. lia.
  - destruct (is_space x); [discriminate|].
    destruct (unicode_decimal x) as [w|]; [|discriminate].
    destruct ((0 <=? w) && (w <=? 9)) eqn:E1; [|discriminate].
    inversion H; subst. lia.
Qed.

Lemma is_digit_decimal : forall x,
  is_digit x = true -> exists v, decimal x = Some v /\ 0 <= v <= 9.
Proof.
  intros x H. unfold is_digit in H.
  destruct (decimal x) as [v|] eqn:E; [|discriminate].
  exists v. split; [reflexivity|]. eapply decimal_bound; eauto.
Qed.

Lemma decimal_is_digit : forall x v, decimal x = Some v -> is_digit x = true.
Proof. intros x v H. unfold is_digit. now rewrite H. Qed.

Lemma digit_not_space : forall x, is_digit x = true -> is_space x = false.
Proof.
  intros x H. unfold is_digit, decimal in H.
  destruct (x <? 1632) eqn:E.
  - destruct ((48 <=? x) && (x <=? 57)) eqn:E1; [|discriminate].
    unfold is_space. lia.
  - destruct (is_space x); [discriminate|reflexivity].
Qed.

Lemma range_decimal : forall lo hi x,
  48 <= lo -> hi <= 57 -> in_cls (Range lo hi) x = true ->
  decimal x = Some (x - 48) /\ lo <= x <= hi.
Proof.
  intros lo hi x Hlo Hhi H. simpl in H.
  apply andb_prop in H as [H1 H2]. apply Z.leb_le in H1, H2.
  split; [|lia]. unfold decimal.
  replace (x <? 1632) with true by lia.
  now replace ((48 <=? x) && (x <=? 57)) with true by lia.
Qed.

Lemma ascii_digit_decimal : forall x,
  48 <= x <= 57 -> decimal x = Some (x - 48).
Proof.
  intros x H. unfold decimal.
  replace (x <? 1632) with true by lia.
  now replace ((48 <=? x) && (x <=? 57)) with true by lia.
Qed.

Lemma lstrip_head : forall x s, is_space x = false -> lstrip (x :: s) = x :: s.
Proof. intros x s H. simpl. now rewrite H. Qed.

Lemma strip_digits : forall g, forallb is_digit g = true -> strip g = g.
Proof.
  intros g H. unfold strip, rstrip.
  assert (L : forall s, forallb is_digit s = true -> lstrip s = s).
  { intros [|x s] Hs; [reflexivity|]. simpl in Hs.
    apply andb_prop in Hs as [Hx _]. apply lstrip_head. now apply digit_not_space. }
  rewrite (L g H). rewrite L; [apply rev_involutive|].
  rewrite forallb_forall in *. intros x Hx. apply H. now apply in_rev.
Qed.

Lemma digits_value_from_total : forall g acc,
  forallb is_digit g = true -> exists n, digits_value_from acc g = Some n.
Proof.
  induction g as [|x g IH]; intros acc H; simpl in *; [eauto|].
  apply andb_prop in H as [Hx H].
  apply is_digit_decimal in Hx as (v & -> & _). now apply IH.
Qed.

Lemma digits_value_total : forall g,
  g <> [] -> forallb is_digit g = true -> exists n, digits_value g = Some n.
Proof.
  intros [|x g] Hne H; [congruence|]. unfold digits_value.
  now apply digits_value_from_total.
Qed.

(** [float] does not raise on a nonempty string of digits. *)
Lemma py_float_digits : forall g : str,
  g <> [] -> forallb is_digit g = true ->
  exists n, digits_value g = Some n /\ py_float (Some g) = Ret (PyFloat.of_Z n).
Proof.
  intros g Hne H. destruct (digits_value_total g Hne H) as [n Hn].
  exists n. split; [assumption|]. unfold py_float. now rewrite strip_digits, Hn.
Qed.

Lemma py_int_digits : forall g n,
  forallb is_digit g = true -> digits_value g = Some n -> py_int (Some g) = Ret n.
Proof. intros g n H Hn. unfold py_int. now rewrite strip_digits, Hn. Qed.

Lemma py_int_digits_inv : forall g n,
  forallb is_digit g = true -> py_int (Some g) = Ret n -> digits_value g = Some n.
Proof.
  intros g n H Hn. unfold py_int in Hn. rewrite strip_digits in Hn by assumption.
  destruct (digits_value g); [now inversion Hn|discriminate].
Qed.

(** *** [strptime] *)

Ltac inv_sem :=
  repeat match goal with
  | H : sem (Cat _ _) _ _ _ |- _ => inversion H; subst; clear H
  | H : sem (Alt _ _) _ _ _ |- _ => inversion H; subst; clear H
  | H : sem (Lit _) _ _ _ |- _ => inversion H; subst; clear H
  | H : sem (Chr _) _ _ _ |- _ => inversion H; subst; clear H
  | H : sem (Grp _ _) _ _ _ |- _ => inversion H; subst; clear H
  end.

Ltac digit_facts :=
  repeat match goal with
  | H : in_cls (Range ?lo ?hi) ?x = true |- _ =>
      let D := fresh "D" in let B := fresh "B" in
      assert (D : decimal x = Some (x - 48) /\ lo <= x <= hi)
        by (apply range_decimal; [lia|lia|exact H]);
      destruct D as [D B]; clear H
  | H : in_cls Digit ?x = true |- _ =>
      let v := fresh "v" in let D := fresh "D" in let B := fresh "B" in
      destruct (is_digit_decimal x H) as (v & D & B); clear H
  end.

Lemma digits_value_1 : forall a va,
  decimal a = Some va -> digits_value [a] = Some va.
Proof. intros a va H. unfold digits_value. simpl. now rewrite H. Qed.

Lemma digits_value_2 : forall a b va vb,
  decimal a = Some va -> decimal b = Some vb ->
  digits_value [a; b] = Some (va * 10 + vb).
Proof. intros a b va vb Ha Hb. unfold digits_value. simpl. now rewrite Ha, Hb. Qed.

Lemma digits_value_4 : forall a b c d va vb vc vd,
  decimal a = Some va -> decimal b = Some vb ->
  decimal c = Some vc -> decimal d = Some vd ->
  digits_value [a; b; c; d] = Some (((va * 10 + vb) * 10 + vc) * 10 + vd).
Proof.
  intros a b c d va vb vc vd Ha Hb Hc Hd. unfold digits_value. simpl.
  now rewrite Ha, Hb, Hc, Hd.
Qed.

Lemma py_int_1 : forall a va, decimal a = Some va -> py_int (Some [a]) = Ret va.
Proof.
  intros a va H. apply py_int_digits; [|now apply digits_value_1].
  simpl. now rewrite (decimal_is_digit _ _ H).
Qed.

Lemma py_int_2 : forall a b va vb,
  decimal a = Some va -> decimal b = Some vb ->
  py_int (Some [a; b]) = Ret (va * 10 + vb).
Proof.
  intros a b va vb Ha Hb. apply py_int_digits; [|now apply digits_value_2].
  simpl. now rewrite (decimal_is_digit _ _ Ha), (decimal_is_digit _ _ Hb).
Qed.

Lemma py_int_4 : forall a b c d va vb vc vd,
  decimal a = Some va -> decimal b = Some vb ->
  decimal c = Some vc -> decimal d = Some vd ->
  py_int (Some [a; b; c; d]) = Ret (((va * 10 + vb) * 10 + vc) * 10 + vd).
Proof.
  intros a b c d va vb vc vd Ha Hb Hc Hd.
  apply py_int_digits; [|now apply digits_value_4].
  simpl. now rewrite (decimal_is_digit _ _ Ha), (decimal_is_digit _ _ Hb),
    (decimal_is_digit _ _ Hc), (decimal_is_digit _ _ Hd).
Qed.

Lemma date_new_1900 : date_new 1900 1 1 = Ret (Date 1900 1 1).
Proof. reflexivity. Qed.

(** A time [strptime] accepts is a time of the clock. *)
Lemma strptime_time_inv : forall g dt,
  strptime_time g = Ret dt ->
  0 <= hour (dt_time dt) <= 23 /\ 0 <= minute (dt_time dt) <= 59
  /\ second (dt_time dt) = 0.
Proof.
  intros g dt H. unfold strptime_time, strptime_groups in H.
  destruct g as [s|]; [|discriminate].
  destruct (re_match TIME_FORMAT_RE s) as [[rest c]|] eqn:E; [|discriminate].
  destruct rest; [|discriminate]. cbn [bind] in H.
  apply re_match_sound in E as (m & -> & Hs).
  unfold TIME_FORMAT_RE, RE_H, RE_M in Hs.
  inv_sem; digit_facts; cbn [group Nat.eqb app] in H;
    repeat first [ erewrite py_int_2 in H by (eassumption || reflexivity)
                 | erewrite py_int_1 in H by (eassumption || reflexivity) ];
    cbn [bind] in H; try rewrite date_new_1900 in H; cbn [bind] in H;
    match type of H with Ret ?X = Ret _ =>
      assert (E : X = dt) by congruence; rewrite <- E end;
    cbv [dt_time hour minute second]; lia.
Qed.

(** *** Floats of clock differences *)

Lemma PyFloat_eqb_eq : forall x y, PyFloat.eqb x y = true -> x = y.
Proof.
  intros [a| a| |a m e] [b| b| |b m' e'] H; simpl in H; try discriminate;
    try reflexivity.
  - apply Bool.eqb_prop in H. now subst.
  - apply Bool.eqb_prop in H. now subst.
  - apply andb_prop in H as [H He]. apply andb_prop in H as [Ha Hm].
    apply Bool.eqb_prop in Ha. apply Pos.eqb_eq in Hm. apply Z.eqb_eq in He.
    now subst.
Qed.

Lemma in_clock_differences : forall j, -1439 <= j <= 1439 -> In j clock_differences.
Proof.
  intros j H. unfold clock_differences. apply in_map_iff.
  exists (Z.to_nat (j + 1439)). split; [lia|]. apply in_seq. lia.
Qed.

Lemma all_seconds_exact : forallb seconds_exact clock_differences = true.
Proof. vm_compute. reflexivity. Qed.

Lemma all_hours_negative : forallb hours_negative clock_differences = true.
Proof. vm_compute. reflexivity. Qed.

Lemma total_seconds_of_minutes : forall j,
  -1439 <= j <= 1439 ->
  PyFloat.int_truediv (60 * j * 1000000) 1000000 = PyFloat.of_Z (60 * j).
Proof.
  intros j H. apply PyFloat_eqb_eq.
  exact (proj1 (forallb_forall _ _) all_seconds_exact j (in_clock_differences j H)).
Qed.

Lemma negative_hours_of_minutes : forall j,
  -1439 <= j < 0 ->
  PyFloat.is_negative (PyFloat.div (PyFloat.of_Z (60 * j)) (PyFloat.of_Z 3600)) = true.
Proof.
  intros j H.
  pose proof (proj1 (forallb_forall _ _) all_hours_negative j
                (in_clock_differences j ltac:(lia))) as Hn.
  unfold hours_negative in Hn. apply orb_prop in Hn as [Hn|Hn]; [lia|assumption].
Qed.

(** *** The pipeline of [parse_report] *)

Lemma bind_Ret_inv : forall A B (x : outcome A) (f : A -> outcome B) b,
  bind x f = Ret b -> exists a, x = Ret a /\ f a = Ret b.
Proof. intros A B [a|msg] f b H; simpl in H; [eauto|discriminate]. Qed.

Lemma valid_FDate : forall text,
  field_status FDate text = Valid ->
  exists m dt, search DATE_PATTERN text = Some m
               /\ strptime_date (m_group 1 m) = Ret dt.
Proof.
  intros text H. cbv beta iota delta [field_status pattern_of convert bind] in H.
  destruct (search DATE_PATTERN text) as [m|] eqn:?; [|discriminate].
  destruct (strptime_date (m_group 1 m)) as [dt|] eqn:?; [|discriminate]. eauto 10.
Qed.

Lemma valid_FVehicle : forall text,
  field_status FVehicle text = Valid ->
  exists m v, search VEHICLE_PATTERN text = Some m
              /\ py_strip (m_group 1 m) = Ret v.
Proof.
  intros text H. cbv beta iota delta [field_status pattern_of convert bind] in H.
  destruct (search VEHICLE_PATTERN text) as [m|] eqn:?; [|discriminate].
  destruct (py_strip (m_group 1 m)) as [v|] eqn:?; [|discriminate]. eauto 10.
Qed.

Lemma valid_FStart : forall text,
  field_status FStart text = Valid ->
  exists m dt, search START_PATTERN text = Some m
               /\ strptime_time (m_group 1 m) = Ret dt.
Proof.
  intros text H. cbv beta iota delta [field_status pattern_of convert bind] in H.
  destruct (search START_PATTERN text) as [m|] eqn:?; [|discriminate].
  destruct (strptime_time (m_group 1 m)) as [dt|] eqn:?; [|discriminate]. eauto 10.
Qed.

Lemma valid_FEnd : forall text,
  field_status FEnd text = Valid ->
  exists m dt, search END_PATTERN text = Some m
               /\ strptime_time (m_group 1 m) = Ret dt.
Proof.
  intros text H. cbv beta iota delta [field_status pattern_of convert bind] in H.
  destruct (search END_PATTERN text) as [m|] eqn:?; [|discriminate].
  destruct (strptime_time (m_group 1 m)) as [dt|] eqn:?; [|discriminate]. eauto 10.
Qed.

Lemma valid_FOvertime : forall text,
  field_status FOvertime text = Valid ->
  exists m h mins, search OVERTIME_PATTERN text = Some m
                   /\ py_float (m_group 1 m) = Ret h
                   /\ overtime_minutes m = Ret mins.
Proof.
  intros text H. cbv beta iota delta [field_status pattern_of convert bind] in H.
  destruct (search OVERTIME_PATTERN text) as [m|] eqn:?; [|discriminate].
  destruct (py_float (m_group 1 m)) as [h|] eqn:?; [|discriminate].
  destruct (overtime_minutes m) as [mins|] eqn:?; [|discriminate]. eauto 10.
Qed.

Lemma valid_FKm : forall text,
  field_status FKm text = Valid ->
  exists m km, search KM_PATTERN text = Some m
               /\ py_float (m_group 1 m) = Ret km.
Proof.
  intros text H. cbv beta iota delta [field_status pattern_of convert bind] in H.
  destruct (search KM_PATTERN text) as [m|] eqn:?; [|discriminate].
  destruct (py_float (m_group 1 m)) as [km|] eqn:?; [|discriminate]. eauto 10.
Qed.

Ltac valid_before Hb :=
  try (let m := fresh "md" in let x := fresh "dt" in
       let Hs := fresh "Sd" in let Hc := fresh "Cd" in
       destruct (valid_FDate _ (Hb FDate ltac:(simpl; auto 10))) as (m & x & Hs & Hc));
  try (let m := fresh "mv" in let x := fresh "v" in
       let Hs := fresh "Sv" in let Hc := fresh "Cv" in
       destruct (valid_FVehicle _ (Hb FVehicle ltac:(simpl; auto 10))) as (m & x & Hs & Hc));
  try (let m := fresh "ms" in let x := fresh "st" in
       let Hs := fresh "Ss" in let Hc := fresh "Cs" in
       destruct (valid_FStart _ (Hb FStart ltac:(simpl; auto 10))) as (m & x & Hs & Hc));
  try (let m := fresh "me" in let x := fresh "et" in
       let Hs := fresh "Se" in let Hc := fresh "Ce" in
       destruct (valid_FEnd _ (Hb FEnd ltac:(simpl; auto 10))) as (m & x & Hs & Hc));
  try (let m := fresh "mo" in let x := fresh "h" in let y := fresh "mins" in
       let Hs := fresh "So" in let Hc := fresh "Co" in let Hc' := fresh "Co'" in
       destruct (valid_FOvertime _ (Hb FOvertime ltac:(simpl; auto 10)))
         as (m & x & y & Hs & Hc & Hc'));
  try (let m := fresh "mk" in let x := fresh "km" in
       let Hs := fresh "Sk" in let Hc := fresh "Ck" in
       destruct (valid_FKm _ (Hb FKm ltac:(simpl; auto 10))) as (m & x & Hs & Hc)).

Ltac run_body :=
  unfold parse_report, parse_report_body, bind;
  repeat match goal with
  | H : search _ _ = _ |- _ => rewrite H; cbv beta iota
  | H : strptime_date _ = _ |- _ => rewrite H; cbv beta iota
  | H : strptime_time _ = _ |- _ => rewrite H; cbv beta iota
  | H : py_strip _ = _ |- _ => rewrite H; cbv beta iota
  | H : py_float _ = _ |- _ => rewrite H; cbv beta iota
  | H : overtime_minutes _ = _ |- _ => rewrite H; cbv beta iota
  | H : km_mkad_of _ = _ |- _ => rewrite H; cbv beta iota
  end.

(** The first field, in the order of the pipeline, that is not valid decides
    the result: its name when it is missing, the message of its conversion
    when that raised. *)
Lemma parse_report_first_failure : forall f text,
  (forall f', In f' (fields_before f) -> field_status f' text = Valid) ->
  match field_status f text with
  | Valid => True
  | Missing => parse_report text = (None, Some (missing_msg f))
  | Invalid msg => parse_report text = (None, Some msg)
  end.
Proof.
  intros f text Hb.
  destruct f; valid_before Hb; clear Hb;
    cbv beta iota delta [field_status pattern_of convert missing_msg];
    match goal with |- context [search ?p text] =>
      destruct (search p text) as [m|] eqn:Es end;
    try (run_body; reflexivity).
  - destruct (strptime_date (m_group 1 m)) as [x|msg] eqn:Ec; simpl; [exact I|].
    run_body; reflexivity.
  - destruct (py_strip (m_group 1 m)) as [x|msg] eqn:Ec; simpl; [exact I|].
    run_body; reflexivity.
  - destruct (strptime_time (m_group 1 m)) as [x|msg] eqn:Ec; simpl; [exact I|].
    run_body; reflexivity.
  - destruct (strptime_time (m_group 1 m)) as [x|msg] eqn:Ec; simpl; [exact I|].
    run_body; reflexivity.
  - destruct (py_float (m_group 1 m)) as [x|msg] eqn:Ec; simpl.
    + destruct (overtime_minutes m) as [y|msg] eqn:Ec'; simpl; [exact I|].
      run_body; reflexivity.
    + run_body; reflexivity.
  - destruct (py_float (m_group 1 m)) as [x|msg] eqn:Ec; simpl; [exact I|].
    run_body; reflexivity.
Qed.

(** *** What a match of each pattern holds *)

Lemma labelled_found : forall L V text m,
  L <> [] ->
  search (Cat (alts L) (Cat (Plus Space) (Grp 1 V))) text = Some m ->
  exists pre l ws g post c1,
    text = pre ++ l ++ ws ++ g ++ post /\ In l L
    /\ ws <> [] /\ forallb is_space ws = true
    /\ sem V g [] c1 /\ m_caps m = (1%nat, g) :: c1.
Proof.
  intros L V text m HL H.
  apply search_found in H as (pre & g0 & post & -> & Hs & _).
  apply sem_labelled in Hs as (l & m1 & Hin & -> & Hs); [|assumption].
  inversion Hs; subst; clear Hs.
  match goal with H1 : sem (Plus _) _ _ _ |- _ => inversion H1; subst; clear H1 end.
  match goal with H1 : sem (Grp _ _) _ _ _ |- _ => inversion H1; subst; clear H1 end.
  match goal with H1 : _ = m_caps m |- _ => symmetry in H1; rename H1 into Hc end.
  match goal with
  | Hp : forallb (in_cls Space) ?ws = true, Hv : sem V ?g [] ?c1 |- _ =>
      exists pre, l, ws, g, post, c1;
        split; [repeat rewrite <- app_assoc; reflexivity|];
        split; [assumption|]; split; [assumption|]; split; [exact Hp|];
        split; [exact Hv|first [exact Hc|reflexivity]]
  end.
Qed.

Lemma sem_plus_digits : forall g c c',
  sem (Plus Digit) g c c' -> g <> [] /\ forallb is_digit g = true /\ c' = c.
Proof. intros g c c' H. inversion H; subst. auto. Qed.

(** The value of a time pattern has the shape HH:MM. *)
Lemma time_found : forall L text m,
  L <> [] ->
  search (Cat (alts L) (Cat (Plus Space) (Grp 1 time_shape))) text = Some m ->
  exists g, m_group 1 m = Some g /\ is_time_shaped g = true.
Proof.
  intros L text m HL H.
  apply labelled_found in H as (pre & l & ws & g & post & c1 & _ & _ & _ & _ & Hs & Hc);
    [|assumption].
  apply sem_time_shape in Hs as [Hs ->].
  exists g. unfold m_group. rewrite Hc. auto.
Qed.

(** The value of a distance pattern is a nonempty string of digits. *)
Lemma digits_found : forall L text m,
  L <> [] ->
  search (Cat (alts L) (Cat (Plus Space) (Grp 1 (Plus Digit)))) text = Some m ->
  exists g, m_group 1 m = Some g /\ g <> [] /\ forallb is_digit g = true.
Proof.
  intros L text m HL H.
  apply labelled_found in H as (pre & l & ws & g & post & c1 & _ & _ & _ & _ & Hs & Hc);
    [|assumption].
  apply sem_plus_digits in Hs as (Hne & Hd & ->).
  exists g. unfold m_group. rewrite Hc. auto.
Qed.

(** The overtime pattern captures the hours, and the minutes or nothing. *)
Lemma overtime_found : forall text m,
  search OVERTIME_PATTERN text = Some m ->
  exists g1, m_group 1 m = Some g1 /\ g1 <> [] /\ forallb is_digit g1 = true
    /\ (m_group 2 m = None
        \/ exists g2, m_group 2 m = Some g2 /\ g2 <> []
                      /\ forallb is_digit g2 = true).
Proof.
  intros text m H.
  apply search_found in H as (pre & g0 & post & -> & Hs & _).
  unfold OVERTIME_PATTERN in Hs.
  apply sem_labelled in Hs as (l & m1 & Hin & -> & Hs); [|discriminate].
  inversion Hs; subst; clear Hs.
  match goal with H1 : sem (Cat (Grp _ _) _) _ _ _ |- _ =>
    inversion H1; subst; clear H1 end.
  match goal with H1 : sem (Plus Space) _ _ _ |- _ => inversion H1; subst; clear H1 end.
  match goal with H1 : sem (Grp 1 _) _ _ _ |- _ => inversion H1; subst; clear H1 end.
  match goal with H1 : sem (Plus Digit) _ _ _ |- _ =>
    apply sem_plus_digits in H1 as (Hne1 & Hd1 & ->) end.
  match goal with H1 : sem (Opt _) _ _ _ |- _ => inversion H1; subst; clear H1 end.
  - match goal with H1 : sem (Cat _ _) _ _ _ |- _ => inversion H1; subst; clear H1 end.
    match goal with H1 : sem (Star _) _ _ _ |- _ => inversion H1; subst; clear H1 end.
    match goal with H1 : sem (Grp 2 _) _ _ _ |- _ => inversion H1; subst; clear H1 end.
    match goal with H1 : sem (Plus Digit) _ _ _ |- _ =>
      apply sem_plus_digits in H1 as (Hne2 & Hd2 & ->) end.
    match goal with H1 : _ = m_caps m |- _ => symmetry in H1; rename H1 into Hc end.
    eexists. unfold m_group. rewrite Hc. simpl.
    split; [reflexivity|]. split; [assumption|]. split; [assumption|].
    right. eexists. split; [reflexivity|]. auto.
  - match goal with H1 : _ = m_caps m |- _ => symmetry in H1; rename H1 into Hc end.
    eexists. unfold m_group. rewrite Hc. simpl.
    split; [reflexivity|]. split; [assumption|]. split; [assumption|]. now left.
Qed.

Lemma overtime_minutes_total : forall text m,
  search OVERTIME_PATTERN text = Some m ->
  (m_group 2 m = None /\ overtime_minutes m = Ret (PyInt 0))
  \/ exists g2 n, m_group 2 m = Some g2 /\ digits_value g2 = Some n
                  /\ overtime_minutes m = Ret (PyFloat (PyFloat.of_Z n)).
Proof.
  intros text m H.
  destruct (overtime_found _ _ H) as (g1 & _ & _ & _ & [H2|(g2 & H2 & Hne & Hd)]).
  - left. split; [assumption|]. unfold overtime_minutes. now rewrite H2.
  - right. destruct (py_float_digits g2 Hne Hd) as (n & Hn & Hf).
    exists g2, n. split; [assumption|]. split; [assumption|].
    unfold overtime_minutes. rewrite H2.
    destruct g2 as [|x g2]; [congruence|]. cbv beta iota. now rewrite Hf.
Qed.

(** The numbers of a report always convert: a distance or an overtime that
    is found is valid. *)
Lemma found_km_valid : forall text m,
  search KM_PATTERN text = Some m ->
  exists g n, m_group 1 m = Some g /\ digits_value g = Some n
              /\ py_float (m_group 1 m) = Ret (PyFloat.of_Z n).
Proof.
  intros text m H. apply digits_found in H as (g & Hg & Hne & Hd); [|discriminate].
  destruct (py_float_digits g Hne Hd) as (n & Hn & Hf).
  exists g, n. rewrite Hg. auto.
Qed.

Lemma found_overtime_valid : forall text m,
  search OVERTIME_PATTERN text = Some m ->
  exists g n, m_group 1 m = Some g /\ digits_value g = Some n
              /\ py_float (m_group 1 m) = Ret (PyFloat.of_Z n).
Proof.
  intros text m H.
  destruct (overtime_found _ _ H) as (g & Hg & Hne & Hd & _).
  destruct (py_float_digits g Hne Hd) as (n & Hn & Hf).
  exists g, n. rewrite Hg. auto.
Qed.

Lemma km_mkad_of_total : forall text,
  exists x, km_mkad_of (search KM_MKAD_PATTERN text) = Ret x.
Proof.
  intros text. destruct (search KM_MKAD_PATTERN text) as [m|] eqn:E.
  - apply digits_found in E as (g & Hg & Hne & Hd); [|discriminate].
    destruct (py_float_digits g Hne Hd) as (n & Hn & Hf).
    eexists. unfold km_mkad_of. rewrite Hg, Hf. reflexivity.
  - eexists. reflexivity.
Qed.

(** *** The record of a report whose fields are all valid *)

Lemma parse_report_valid :
  forall text md dt mv v ms st me et mo h mins mk km mkad,
    search DATE_PATTERN text = Some md -> strptime_date (m_group 1 md) = Ret dt ->
    search VEHICLE_PATTERN text = Some mv -> py_strip (m_group 1 mv) = Ret v ->
    search START_PATTERN text = Some ms -> strptime_time (m_group 1 ms) = Ret st ->
    search END_PATTERN text = Some me -> strptime_time (m_group 1 me) = Ret et ->
    search OVERTIME_PATTERN text = Some mo ->
    py_float (m_group 1 mo) = Ret h -> overtime_minutes mo = Ret mins ->
    search KM_PATTERN text = Some mk -> py_float (m_group 1 mk) = Ret km ->
    km_mkad_of (search KM_MKAD_PATTERN text) = Ret mkad ->
    parse_report text =
      (Some (Report (date_str (dt_date dt)) v
                    (time_str (dt_time st)) (time_str (dt_time et))
                    (PyFloat.div
                       (total_seconds
                          (datetime_sub (combine (dt_date dt) (dt_time et))
                                        (combine (dt_date dt) (dt_time st))))
                       (PyFloat.of_Z 3600))
                    (PyFloat.add h (div60 mins)) km mkad),
       None).
Proof.
  intros text md dt mv v ms st me et mo h mins mk km mkad
    Sd Cd Sv Cv Ss Cs Se Ce So Co Co' Sk Ck Cm.
  unfold parse_report, parse_report_body, bind.
  rewrite Sd; cbv beta iota. rewrite Cd; cbv beta iota.
  rewrite Sv; cbv beta iota. rewrite Cv; cbv beta iota.
  rewrite Ss; cbv beta iota. rewrite Cs; cbv beta iota.
  rewrite Se; cbv beta iota. rewrite Ce; cbv beta iota.
  rewrite So; cbv beta iota. rewrite Co; cbv beta iota.
  rewrite Co'; cbv beta iota.
  rewrite Sk; cbv beta iota. rewrite Ck; cbv beta iota.
  rewrite Cm; cbv beta iota. reflexivity.
Qed.

(** Two clock times of one date: the float of their difference in seconds. *)
Lemma total_seconds_same_date : forall d st et,
  0 <= hour st <= 23 -> 0 <= minute st <= 59 -> second st = 0 ->
  0 <= hour et <= 23 -> 0 <= minute et <= 59 -> second et = 0 ->
  total_seconds (datetime_sub (combine d et) (combine d st))
  = PyFloat.of_Z (clock_seconds et - clock_seconds st).
Proof.
  intros d st et Hh1 Hm1 Hs1 Hh2 Hm2 Hs2.
  unfold total_seconds, datetime_sub, combine, timedelta_new, clock_seconds.
  cbv [dt_date dt_time days seconds microseconds].
  rewrite Hs1, Hs2.
  set (j := (hour et * 60 + minute et) - (hour st * 60 + minute st)).
  assert (Hj : -1439 <= j <= 1439) by (unfold j; lia).
  change (0 / 1000000) with 0. change (0 mod 1000000) with 0.
  set (D := 0 + minute et * 60 + hour et * 3600
            - (0 + minute st * 60 + hour st * 3600) + 0).
  assert (HD : D = 60 * j) by (unfold D, j; lia).
  pose proof (Z.div_mod D 86400 ltac:(lia)) as Hdm.
  replace ((ymd2ord d - ymd2ord d + D / 86400) * 86400 + D mod 86400)
    with (60 * j) by lia.
  replace (60 * j * 1000000 + 0) with (60 * j * 1000000) by lia.
  rewrite total_seconds_of_minutes by assumption.
  f_equal. unfold j. lia.
Qed.

(** What [parse_report] went through when it returns a record. *)
Lemma parse_report_some_inv : forall text r e,
  parse_report text = (Some r, e) ->
  exists md dt mv v ms st me et mo h mins mk km mkad,
    search DATE_PATTERN text = Some md /\ strptime_date (m_group 1 md) = Ret dt
    /\ search VEHICLE_PATTERN text = Some mv /\ py_strip (m_group 1 mv) = Ret v
    /\ search START_PATTERN text = Some ms /\ strptime_time (m_group 1 ms) = Ret st
    /\ search END_PATTERN text = Some me /\ strptime_time (m_group 1 me) = Ret et
    /\ search OVERTIME_PATTERN text = Some mo
    /\ py_float (m_group 1 mo) = Ret h /\ overtime_minutes mo = Ret mins
    /\ search KM_PATTERN text = Some mk /\ py_float (m_group 1 mk) = Ret km
    /\ km_mkad_of (search KM_MKAD_PATTERN text) = Ret mkad
    /\ e = None
    /\ r = Report (date_str (dt_date dt)) v
                  (time_str (dt_time st)) (time_str (dt_time et))
                  (PyFloat.div
                     (total_seconds
                        (datetime_sub (combine (dt_date dt) (dt_time et))
                                      (combine (dt_date dt) (dt_time st))))
                     (PyFloat.of_Z 3600))
                  (PyFloat.add h (div60 mins)) km mkad.
Proof.
  intros text r e H. unfold parse_report, parse_report_body, bind in H.
  destruct (search DATE_PATTERN text) as [md|] eqn:Sd; cbv beta iota in H;
    [|discriminate H].
  destruct (strptime_date (m_group 1 md)) as [dt|] eqn:Cd; cbv beta iota in H;
    [|discriminate H].
  destruct (search VEHICLE_PATTERN text) as [mv|] eqn:Sv; cbv beta iota in H;
    [|discriminate H].
  destruct (py_strip (m_group 1 mv)) as [v|] eqn:Cv; cbv beta iota in H;
    [|discriminate H].
  destruct (search START_PATTERN text) as [ms|] eqn:Ss; cbv beta iota in H;
    [|discriminate H].
  destruct (strptime_time (m_group 1 ms)) as [st|] eqn:Cs; cbv beta iota in H;
    [|discriminate H].
  destruct (search END_PATTERN text) as [me|] eqn:Se; cbv beta iota in H;
    [|discriminate H].
  destruct (strptime_time (m_group 1 me)) as [et|] eqn:Ce; cbv beta iota in H;
    [|discriminate H].
  destruct (search OVERTIME_PATTERN text) as [mo|] eqn:So; cbv beta iota in H;
    [|discriminate H].
  destruct (py_float (m_group 1 mo)) as [h|] eqn:Co; cbv beta iota in H;
    [|discriminate H].
  destruct (overtime_minutes mo) as [mins|] eqn:Co'; cbv beta iota in H;
    [|discriminate H].
  destruct (search KM_PATTERN text) as [mk|] eqn:Sk; cbv beta iota in H;
    [|discriminate H].
  destruct (py_float (m_group 1 mk)) as [km|] eqn:Ck; cbv beta iota in H;
    [|discriminate H].
  destruct (km_mkad_of (search KM_MKAD_PATTERN text)) as [mkad|] eqn:Cm;
    cbv beta iota in H; [|discriminate H].
  exists md, dt, mv, v, ms, st, me, et, mo, h, mins, mk, km, mkad.
  repeat (split; [first [assumption|reflexivity]|]). split; congruence.
Qed.

(** *** The vehicle *)

Lemma skip_span : forall k s,
  exists g, s = g ++ skip k s /\ forallb (in_cls k) g = true.
Proof.
  induction s as [|x s (g & E & Hg)]; simpl.
  - exists []. auto.
  - destruct (in_cls k x) eqn:Hx.
    + exists (x :: g). simpl. rewrite Hx, Hg. split; [congruence|reflexivity].
    + exists []. auto.
Qed.

Lemma skip_stops : forall k s x s', skip k s = x :: s' -> in_cls k x = false.
Proof.
  induction s as [|y s IH]; intros x s' H; simpl in H; [discriminate|].
  destruct (in_cls k y) eqn:Hy; [eauto|]. now inversion H; subst.
Qed.

(** A final group [(c+)] captures the longest run of [c]. *)
Lemma grp_plus_greedy : forall k i s c rest cs,
  rmatch (Grp i (Plus k)) s c (fun s' c' => Some (s', c')) = Some (rest, cs) ->
  exists g, s = g ++ rest /\ g <> [] /\ forallb (in_cls k) g = true
            /\ cs = (i, g) :: c
            /\ (rest = [] \/ exists x rest', rest = x :: rest' /\ in_cls k x = false).
Proof.
  intros k i s c rest cs H. simpl in H.
  destruct s as [|x s]; [discriminate|].
  destruct (in_cls k x) eqn:Hx; [|discriminate].
  rewrite many_greedy in H by discriminate.
  destruct (skip_span k s) as (g & E & Hg).
  assert (Hr : rest = skip k s) by congruence.
  exists (x :: g). split; [simpl; congruence|]. split; [discriminate|].
  split; [simpl; now rewrite Hx, Hg|]. split.
  - rewrite <- Hr in H.
    assert (Hf : firstn (List.length (x :: s) - List.length rest) (x :: s) = x :: g).
    { replace (x :: s) with ((x :: g) ++ rest) by (simpl; congruence).
      apply firstn_app_exact. }
    rewrite Hf in H. congruence.
  - destruct rest as [|y rest']; [now left|right].
    exists y, rest'. split; [reflexivity|]. symmetry in Hr. eapply skip_stops; eauto.
Qed.

Lemma rmatch_Cat : forall R r1 r2 s c (cont : str -> caps -> option R),
  rmatch (Cat r1 r2) s c cont
  = rmatch r1 s c (fun s' c' => rmatch r2 s' c' cont).
Proof. reflexivity. Qed.

(** What the vehicle pattern finds: the first label, whitespace, and then
    everything up to the end of the line. *)
Lemma vehicle_found : forall text m,
  search VEHICLE_PATTERN text = Some m ->
  exists pre l ws g post,
    text = pre ++ l ++ ws ++ g ++ post /\ In l VEHICLE_LABELS
    /\ ws <> [] /\ forallb is_space ws = true
    /\ g <> [] /\ forallb (fun c => negb (c =? NL)) g = true
    /\ (post = [] \/ exists post', post = NL :: post')
    /\ m_group 1 m = Some g.
Proof.
  intros text m H. unfold search in H.
  apply search_from_inv in H as (pre & suf & rest & -> & Hm & _ & _).
  unfold re_match, VEHICLE_PATTERN in Hm. rewrite rmatch_Cat in Hm.
  apply rmatch_sound in Hm as (l & s1 & c1 & -> & Hl & Hm).
  apply sem_alts in Hl as [Hin ->]; [|discriminate].
  rewrite rmatch_Cat in Hm.
  apply rmatch_sound in Hm as (ws & s2 & c2 & -> & Hws & Hm).
  inversion Hws; subst; clear Hws.
  apply grp_plus_greedy in Hm as (g & -> & Hne & Hg & Hc & Hrest).
  exists pre, l, ws, g, rest.
  split; [reflexivity|]. split; [assumption|]. split; [assumption|].
  split; [assumption|]. split; [assumption|]. split; [exact Hg|]. split.
  - destruct Hrest as [->|(x & rest' & -> & Hx)]; [now left|right].
    exists rest'. simpl in Hx. apply negb_false_iff, Z.eqb_eq in Hx. now subst.
  - unfold m_group. now rewrite Hc.
Qed.

(** A greedy repetition takes the longest run that what follows accepts. *)
Lemma many_longest : forall R k s (cont : str -> option R) res,
  many k s cont = Some res ->
  exists ws rest,
    s = ws ++ rest /\ forallb (in_cls k) ws = true /\ cont rest = Some res
    /\ forall ws' rest', s = ws' ++ rest' -> forallb (in_cls k) ws' = true ->
         (List.length ws < List.length ws')%nat -> cont rest' = None.
Proof.
  induction s as [|x s IH]; intros cont res H; simpl in H.
  - exists [], []. repeat split; auto.
    intros ws' rest' E _ Hlt. destruct ws'; [simpl in Hlt; lia|discriminate E].
  - destruct (in_cls k x) eqn:Hx.
    + destruct (many k s cont) as [r|] eqn:Hm.
      * injection H as ->.
        destruct (IH _ _ Hm) as (ws & rest & -> & Hall & Hc & Hlong).
        exists (x :: ws), rest. simpl. rewrite Hx, Hall.
        repeat split; auto.
        intros ws' rest' E Hall' Hlt. destruct ws' as [|y ws']; [simpl in Hlt; lia|].
        simpl in E, Hall', Hlt. injection E as <- E.
        apply andb_prop in Hall' as [_ Hall'].
        eapply Hlong; [exact E|exact Hall'|lia].
      * exists [], (x :: s). repeat split; auto.
        intros ws' rest' E Hall' Hlt. destruct ws' as [|y ws']; [simpl in Hlt; lia|].
        simpl in E, Hall'. injection E as <- E.
        apply andb_prop in Hall' as [_ Hall'].
        eapply many_complete; eauto.
    + exists [], (x :: s). repeat split; auto.
      intros ws' rest' E Hall' Hlt. destruct ws' as [|y ws']; [simpl in Hlt; lia|].
      simpl in E, Hall'. injection E as <- E.
      apply andb_prop in Hall' as [Hy _]. congruence.
Qed.

Lemma plus_longest : forall R k s c (cont : str -> caps -> option R) res,
  rmatch (Plus k) s c cont = Some res ->
  exists ws rest,
    s = ws ++ rest /\ ws <> [] /\ forallb (in_cls k) ws = true
    /\ cont rest c = Some res
    /\ forall ws' rest', s = ws' ++ rest' -> forallb (in_cls k) ws' = true ->
         (List.length ws < List.length ws')%nat -> cont rest' c = None.
Proof.
  intros R k s c cont res H. simpl in H.
  destruct s as [|x s]; [discriminate|].
  destruct (in_cls k x) eqn:Hx; [|discriminate].
  apply many_longest in H as (ws & rest & -> & Hall & Hc & Hlong).
  exists (x :: ws), rest. simpl. rewrite Hx, Hall.
  split; [reflexivity|]. split; [discriminate|]. split; [reflexivity|].
  split; [assumption|].
  intros ws' rest' E Hall' Hlt. destruct ws' as [|y ws']; [simpl in Hlt; lia|].
  simpl in E, Hall', Hlt. injection E as <- E.
  apply andb_prop in Hall' as [_ Hall'].
  apply (Hlong ws' rest' E Hall'). lia.
Qed.

Lemma sem_alts_in : forall ls l c, In l ls -> sem (alts ls) l c c.
Proof.
  intros [|l0 ls] l c H; [contradiction|]. simpl.
  revert l0 H. induction ls as [|l1 ls IH]; intros l0 H.
  - destruct H as [<-|[]]. constructor.
  - destruct H as [<-|H].
    + apply sem_AltL. constructor.
    + apply sem_AltR. now apply IH.
Qed.

Lemma app_length_inv : forall (a a' b b' : str),
  List.length a = List.length a' -> a ++ b = a' ++ b' -> a = a' /\ b = b'.
Proof.
  induction a as [|x a IH]; intros [|y a'] b b' Hl E; try discriminate Hl.
  - auto.
  - simpl in Hl, E. injection E as <- E. injection Hl as Hl.
    destruct (IH _ _ _ Hl E) as [-> ->]. auto.
Qed.

(** No two vehicle labels start with the same letter: at one place of a
    text there is one of them at most. *)
Lemma vehicle_labels_apart : forall l l' s s',
  In l VEHICLE_LABELS -> In l' VEHICLE_LABELS -> l ++ s = l' ++ s' -> l = l'.
Proof.
  intros l l' s s' H H' E.
  destruct H as [<-|[<-|[<-|[]]]]; destruct H' as [<-|[<-|[<-|[]]]];
    try reflexivity; cbv in E; discriminate E.
Qed.

Lemma vehicle_at_sem : forall text pre l ws g post,
  vehicle_at text pre l ws g post ->
  sem VEHICLE_PATTERN (l ++ ws ++ g) [] [(1%nat, g)].
Proof.
  intros text pre l ws g post (_ & Hin & Hne & Hws & Hgne & Hg).
  unfold VEHICLE_PATTERN.
  apply sem_Cat with (c1 := []); [now apply sem_alts_in|].
  apply sem_Cat with (c1 := []); [now apply sem_Plus|].
  apply sem_Grp. now apply sem_Plus.
Qed.

(** What the vehicle pattern finds, to the letter: the leftmost label that
    whitespace and a character of one line follow, the longest whitespace,
    the whole rest of the line. *)
Lemma vehicle_match : forall text m,
  search VEHICLE_PATTERN text = Some m ->
  exists g, vehicle_capture text g /\ m_group 1 m = Some g.
Proof.
  intros text m H. unfold search in H.
  apply search_from_inv in H as (pre & suf & rest & -> & Hm & _ & Hmin).
  unfold re_match, VEHICLE_PATTERN in Hm. rewrite rmatch_Cat in Hm.
  apply rmatch_sound in Hm as (l & s1 & c1 & -> & Hl & Hm).
  apply sem_alts in Hl as [Hin ->]; [|discriminate].
  rewrite rmatch_Cat in Hm.
  apply plus_longest in Hm as (ws & s2 & -> & Hne & Hws & Hm & Hlong).
  apply grp_plus_greedy in Hm as (g & -> & Hgne & Hg & Hc & Hrest).
  exists g. split; [|unfold m_group; now rewrite Hc].
  exists pre, l, ws, rest. split; [|split].
  - split; [reflexivity|]. split; [assumption|]. split; [assumption|].
    split; [exact Hws|]. split; [assumption|exact Hg].
  - destruct Hrest as [->|(x & rest' & -> & Hx)]; [now left|right].
    exists rest'. simpl in Hx. apply negb_false_iff, Z.eqb_eq in Hx. now subst.
  - intros pre' l' ws' g' post' Hat.
    pose proof (vehicle_at_sem _ _ _ _ _ _ Hat) as Hs.
    destruct Hat as (E & Hin' & Hne' & Hws' & Hgne' & Hg'). split.
    + destruct (Nat.le_gt_cases (List.length pre) (List.length pre')) as [|Hlt];
        [assumption|exfalso].
      specialize (Hmin _ _ E Hlt).
      apply (re_match_complete _ _ post' _ Hs).
      now rewrite <- !app_assoc.
    + intros Hlen. symmetry in Hlen.
      destruct (app_length_inv _ _ _ _ Hlen E) as [<- E1].
      pose proof (vehicle_labels_apart _ _ _ _ Hin Hin' E1) as <-.
      apply app_inv_head in E1.
      destruct (Nat.le_gt_cases (List.length ws') (List.length ws)) as [|Hlt];
        [assumption|exfalso].
      pose proof (Hlong ws' (g' ++ post') E1 Hws' Hlt) as Hnone.
      assert (Hsg : sem (Grp 1 (Plus NotNewline)) g' [] [(1%nat, g')])
        by (apply sem_Grp; now apply sem_Plus).
      pose proof (rmatch_complete _ _ _ _ _ Hnone g' post' _ eq_refl Hsg).
      discriminate.
Qed.

(** A run of characters of one line up to the line end, or the end of the
    text, is determined by where it starts. *)
Lemma rest_of_line_unique : forall (g g' post post' : str),
  forallb (fun c => negb (c =? NL)) g = true ->
  forallb (fun c => negb (c =? NL)) g' = true ->
  (post = [] \/ exists p, post = NL :: p) ->
  (post' = [] \/ exists p, post' = NL :: p) ->
  g ++ post = g' ++ post' -> g = g'.
Proof.
  induction g as [|x g IH]; intros [|y g'] post post' Hg Hg' Hp Hp' E;
    simpl in *.
  - reflexivity.
  - apply andb_prop in Hg' as [Hy _].
    destruct Hp as [->|[p ->]]; [discriminate E|].
    injection E as <- _. discriminate Hy.
  - apply andb_prop in Hg as [Hx _].
    destruct Hp' as [->|[p ->]]; [discriminate E|].
    injection E as -> _. discriminate Hx.
  - apply andb_prop in Hg as [_ Hg]. apply andb_prop in Hg' as [_ Hg'].
    injection E as <- E. f_equal. apply (IH g' post post'); assumption.
Qed.

(** The conditions of [vehicle_capture] leave one text only. *)
Lemma vehicle_capture_unique : forall text g g',
  vehicle_capture text g -> vehicle_capture text g' -> g = g'.
Proof.
  intros text g g' (pre & l & ws & post & Hat & Hp & Hmin)
                   (pre' & l' & ws' & post' & Hat' & Hp' & Hmin').
  destruct (Hmin _ _ _ _ _ Hat') as [Hle Hws].
  destruct (Hmin' _ _ _ _ _ Hat) as [Hle' Hws'].
  assert (Hlen : List.length pre = List.length pre') by lia.
  specialize (Hws (eq_sym Hlen)). specialize (Hws' Hlen).
  destruct Hat as (E & Hin & _ & _ & _ & Hg).
  destruct Hat' as (E' & Hin' & _ & _ & _ & Hg').
  rewrite E in E'.
  destruct (app_length_inv _ _ _ _ Hlen E') as [<- E1].
  pose proof (vehicle_labels_apart _ _ _ _ Hin Hin' E1) as <-.
  apply app_inv_head in E1.
  destruct (app_length_inv ws ws' _ _ ltac:(lia) E1) as [<- E2].
  exact (rest_of_line_unique g g' post post' Hg Hg' Hp Hp' E2).
Qed.

Lemma lstrip_no_leading : forall s c rest,
  lstrip s = c :: rest -> is_space c = false.
Proof.
  induction s as [|x s IH]; intros c rest H; simpl in H; [discriminate|].
  destruct (is_space x) eqn:Hx; [eauto|]. now inversion H; subst.
Qed.

Lemma lstrip_suffix : forall s, exists p, s = p ++ lstrip s.
Proof.
  induction s as [|x s [p E]]; [now exists []|]. simpl.
  destruct (is_space x).
  - exists (x :: p). simpl. now f_equal.
  - now exists [].
Qed.

Lemma rstrip_prefix : forall s, exists q, s = rstrip s ++ q.
Proof.
  intros s. unfold rstrip. destruct (lstrip_suffix (rev s)) as [p E].
  exists (rev p). rewrite <- rev_app_distr, <- E. now rewrite rev_involutive.
Qed.

(** [strip] leaves no whitespace at either end. *)
Lemma strip_no_leading : forall s c rest,
  strip s = c :: rest -> is_space c = false.
Proof.
  intros s c rest H. unfold strip in H.
  destruct (rstrip_prefix (lstrip s)) as [q E]. rewrite H in E.
  simpl in E. eapply lstrip_no_leading; eauto.
Qed.

Lemma strip_no_trailing : forall s rest c,
  strip s = rest ++ [c] -> is_space c = false.
Proof.
  intros s rest c H. unfold strip, rstrip in H.
  apply (f_equal (@rev Z)) in H. rewrite rev_involutive, rev_app_distr in H.
  simpl in H. eapply lstrip_no_leading; eauto.
Qed.

(** *** Substrings, decided *)

Lemma occurs_occursb : forall l text, occurs l text -> occursb l text = true.
Proof.
  intros l text (pre & post & ->).
  induction pre as [|x pre IH]; simpl.
  - destruct (l ++ post) eqn:E; simpl;
      rewrite <- E, strip_prefix_app; reflexivity.
  - destruct (strip_prefix l (x :: pre ++ l ++ post)); [reflexivity|assumption].
Qed.


(** *** Dates *)

Lemma date_shaped_sem : forall g,
  is_date_shaped g = true -> sem DATE_PATTERN g [] [(1%nat, g)].
Proof.
  intros g H. unfold DATE_PATTERN. apply sem_Grp. now apply sem_date_shape.
Qed.

(** What the date pattern finds: the leftmost substring of the shape
    DD.MM.YYYY, whatever stands around it. *)
Lemma date_found : forall text m,
  search DATE_PATTERN text = Some m ->
  exists pre g post,
    text = pre ++ g ++ post /\ is_date_shaped g = true
    /\ m_group 1 m = Some g /\ m_start m = List.length pre
    /\ forall pre' g' post', text = pre' ++ g' ++ post' ->
         is_date_shaped g' = true -> (List.length pre <= List.length pre')%nat.
Proof.
  intros text m H.
  apply search_found in H as (pre & g & post & -> & Hs & Hst & Hmin).
  unfold DATE_PATTERN in Hs. inversion Hs; subst; clear Hs.
  match goal with H1 : sem date_shape _ _ _ |- _ =>
    apply sem_date_shape in H1 as [Hshape ->] end.
  match goal with H1 : _ = m_caps m |- _ => symmetry in H1; rename H1 into Hc end.
  exists pre, g, post. split; [reflexivity|]. split; [assumption|].
  split; [unfold m_group; now rewrite Hc|]. split; [assumption|].
  intros pre' g' post' E Hg'. eapply Hmin; [exact E|]. now apply date_shaped_sem.
Qed.

Lemma date_shaped_found : forall text pre g post,
  text = pre ++ g ++ post -> is_date_shaped g = true ->
  search DATE_PATTERN text <> None.
Proof.
  intros text pre g post E H. eapply search_some; [exact E|].
  now apply date_shaped_sem.
Qed.

Lemma date_shaped_inv : forall g,
  is_date_shaped g = true ->
  exists d1 d2 m1 m2 y1 y2 y3 y4,
    g = [d1; d2; 46; m1; m2; 46; y1; y2; y3; y4]
    /\ is_digit d1 = true /\ is_digit d2 = true.
Proof.
  intros g H. unfold is_date_shaped in H.
  destruct g as [|d1 [|d2 [|p1 [|m1 [|m2 [|p2 [|y1 [|y2 [|y3 [|y4 [|? ?]]]]]]]]]]];
    try discriminate.
  repeat (apply andb_prop in H as [H ?]).
  repeat match goal with H : (_ =? _) = true |- _ => apply Z.eqb_eq in H; subst end.
  exists d1, d2, m1, m2, y1, y2, y3, y4. auto.
Qed.

(** *** The shape of what a pattern captured *)

Lemma nonempty_length : forall g : str, g <> [] -> Nat.eqb (List.length g) 0 = false.
Proof. intros [|x g] H; [congruence|reflexivity]. Qed.

Lemma found_is_shaped : forall f text m,
  search (pattern_of f) text = Some m ->
  exists g, m_group 1 m = Some g /\ value_shaped f g = true.
Proof.
  intros f text m H. destruct f; cbv beta iota delta [pattern_of] in H.
  - apply date_found in H as (pre & g & post & _ & Hs & Hg & _). eauto.
  - apply vehicle_found in H as (pre & l & ws & g & post & _ & _ & _ & _ & Hne & Hg & _ & Hm).
    exists g. split; [assumption|]. simpl. now rewrite nonempty_length, Hg.
  - apply time_found in H; [assumption|discriminate].
  - apply time_found in H; [assumption|discriminate].
  - apply overtime_found in H as (g & Hg & Hne & Hd & _).
    exists g. split; [assumption|]. simpl. now rewrite nonempty_length, Hd.
  - apply digits_found in H as (g & Hg & Hne & Hd); [|discriminate].
    exists g. split; [assumption|]. simpl. now rewrite nonempty_length, Hd.
Qed.

(** Only a date or a time can have a value that fails to convert. *)
Lemma invalid_is_date_or_time : forall f text msg,
  field_status f text = Invalid msg -> f = FDate \/ f = FStart \/ f = FEnd.
Proof.
  intros f text msg H.
  destruct f; auto; exfalso;
    cbv beta iota delta [field_status pattern_of convert bind] in H.
  - destruct (search VEHICLE_PATTERN text) as [m|] eqn:E; [|discriminate].
    apply vehicle_found in E as (? & ? & ? & g & ? & _ & _ & _ & _ & _ & _ & _ & Hm).
    rewrite Hm in H. discriminate.
  - destruct (search OVERTIME_PATTERN text) as [m|] eqn:E; [|discriminate].
    destruct (found_overtime_valid _ _ E) as (g & n & _ & _ & Hf). rewrite Hf in H.
    destruct (overtime_minutes_total _ _ E) as [[_ Hm]|(g2 & n2 & _ & _ & Hm)];
      rewrite Hm in H; discriminate.
  - destruct (search KM_PATTERN text) as [m|] eqn:E; [|discriminate].
    destruct (found_km_valid _ _ E) as (g & n & _ & _ & Hf). rewrite Hf in H.
    discriminate.
Qed.

(** *** The optional distance *)

Lemma mkad_found : forall text m,
  search KM_MKAD_PATTERN text = Some m ->
  exists pre ws d rest,
    text = pre ++ MKAD_LABEL ++ ws ++ d :: rest
    /\ ws <> [] /\ forallb is_space ws = true /\ is_digit d = true.
Proof.
  intros text m H.
  apply labelled_found in H
    as (pre & l & ws & g & post & c1 & -> & Hin & Hne & Hws & Hs & _);
    [|discriminate].
  destruct Hin as [<-|[]].
  apply sem_plus_digits in Hs as (Hg & Hd & _).
  destruct g as [|d g]; [congruence|]. simpl in Hd.
  apply andb_prop in Hd as [Hd _].
  exists pre, ws, d, (g ++ post). auto.
Qed.

Lemma mkad_absent_unmatched : forall text,
  ~ occurs MKAD_LABEL text -> search KM_MKAD_PATTERN text = None.
Proof.
  intros text H. destruct (search KM_MKAD_PATTERN text) as [m|] eqn:E; [|reflexivity].
  exfalso. apply mkad_found in E as (pre & ws & d & rest & -> & _).
  apply H. now exists pre, (ws ++ d :: rest).
Qed.



(** *** Reports whose six fields are valid *)

Lemma parse_report_all_valid : forall text,
  (forall f, In f FIELDS -> field_status f text = Valid) ->
  exists dt v ms st me et h mins km mkad,
    search START_PATTERN text = Some ms /\ strptime_time (m_group 1 ms) = Ret st
    /\ search END_PATTERN text = Some me /\ strptime_time (m_group 1 me) = Ret et
    /\ km_mkad_of (search KM_MKAD_PATTERN text) = Ret mkad
    /\ parse_report text =
         (Some (Report (date_str (dt_date dt)) v
                       (time_str (dt_time st)) (time_str (dt_time et))
                       (PyFloat.div
                          (total_seconds
                             (datetime_sub (combine (dt_date dt) (dt_time et))
                                           (combine (dt_date dt) (dt_time st))))
                          (PyFloat.of_Z 3600))
                       (PyFloat.add h (div60 mins)) km mkad),
          None).
Proof.
  intros text Hb. valid_before Hb.
  destruct (km_mkad_of_total text) as [mkad Cm].
  exists dt, v, ms, st, me, et, h, mins, km, mkad.
  repeat (split; [assumption|]).
  eapply parse_report_valid; eassumption.
Qed.

Lemma valid_report_without_mkad : forall text,
  (forall f, In f FIELDS -> field_status f text = Valid) ->
  search KM_MKAD_PATTERN text = None ->
  exists r, parse_report text = (Some r, None) /\ r_km_mkad r = PyInt 0.
Proof.
  intros text Hb Hn.
  destruct (parse_report_all_valid text Hb)
    as (dt & v & ms & st & me & et & h & mins & km & mkad & _ & _ & _ & _ & Cm & Hp).
  rewrite Hn in Cm. simpl in Cm.
  assert (mkad = PyInt 0) by congruence. subst mkad.
  eexists. split; [exact Hp|reflexivity].
Qed.

Lemma before_not_self : forall f f', In f' (fields_before f) -> f' <> f.
Proof. intros f f' H. destruct f; simpl in H; intuition (subst; discriminate). Qed.

Lemma Ret_pair_inv : forall (a ro : option report) (b eo : option str),
  Ret (a, b) = Ret (ro, eo) -> ro = a /\ eo = b.
Proof. intros a ro b eo H. inversion H. auto. Qed.

(** *** The overtime line *)

Lemma rmatch_Lit_app : forall R l s c (cont : str -> caps -> option R),
  rmatch (Lit l) (l ++ s) c cont = cont s c.
Proof. intros. simpl. now rewrite strip_prefix_app. Qed.

Lemma rmatch_Alt_first : forall R r1 r2 s c (cont : str -> caps -> option R) x,
  rmatch r1 s c cont = Some x -> rmatch (Alt r1 r2) s c cont = Some x.
Proof. intros R r1 r2 s c cont x H. simpl. now rewrite H. Qed.

Lemma rmatch_Opt_some : forall R r s c (cont : str -> caps -> option R) x,
  rmatch r s c cont = Some x -> rmatch (Opt r) s c cont = Some x.
Proof. intros R r s c cont x H. simpl. now rewrite H. Qed.

Lemma rmatch_Opt_none : forall R r s c (cont : str -> caps -> option R),
  rmatch r s c cont = None -> rmatch (Opt r) s c cont = cont s c.
Proof. intros R r s c cont H. simpl. now rewrite H. Qed.

Lemma rmatch_Plus_cons : forall R k x s c (cont : str -> caps -> option R),
  in_cls k x = true ->
  rmatch (Plus k) (x :: s) c cont = many k s (fun s'' => cont s'' c).
Proof. intros R k x s c cont H. simpl. now rewrite H. Qed.

Lemma rmatch_Star : forall R k s c (cont : str -> caps -> option R),
  rmatch (Star k) s c cont = many k s (fun s' => cont s' c).
Proof. reflexivity. Qed.

Lemma rmatch_Grp : forall R i r s c (cont : str -> caps -> option R),
  rmatch (Grp i r) s c cont
  = rmatch r s c
      (fun s' c' => cont s' ((i, firstn (List.length s - List.length s') s) :: c')).
Proof. reflexivity. Qed.

Lemma many_stop : forall R k s (cont : str -> option R),
  (s = [] \/ exists x s', s = x :: s' /\ in_cls k x = false) ->
  many k s cont = cont s.
Proof.
  intros R k s cont [->|(x & s' & -> & Hx)]; simpl; [reflexivity|].
  now rewrite Hx.
Qed.

Lemma many_cons_some : forall R k x s (cont : str -> option R) r,
  in_cls k x = true -> many k s cont = Some r -> many k (x :: s) cont = Some r.
Proof. intros R k x s cont r Hx H. simpl. now rewrite Hx, H. Qed.

Lemma skip_app_stop : forall k ws d r,
  forallb (in_cls k) ws = true -> in_cls k d = false ->
  skip k (ws ++ d :: r) = d :: r.
Proof.
  induction ws as [|x ws IH]; intros d r Hws Hd; simpl.
  - now rewrite Hd.
  - simpl in Hws. apply andb_prop in Hws as [Hx Hws]. rewrite Hx. now apply IH.
Qed.

(** No minutes are captured when no digit follows. *)
Lemma no_minutes : forall R post c (cont : str -> caps -> option R),
  digit_follows post = false ->
  rmatch (Cat (Star Space) (Grp 2 (Plus Digit))) post c cont = None.
Proof.
  intros R post c cont H.
  destruct (rmatch (Cat (Star Space) (Grp 2 (Plus Digit))) post c cont) eqn:E;
    [exfalso|reflexivity].
  apply rmatch_sound in E as (m & s' & c' & -> & Hs & _).
  inversion Hs; subst; clear Hs.
  match goal with H1 : sem (Star _) _ _ _ |- _ => inversion H1; subst; clear H1 end.
  match goal with H1 : sem (Grp _ _) _ _ _ |- _ => inversion H1; subst; clear H1 end.
  match goal with H1 : sem (Plus Digit) _ _ _ |- _ =>
    apply sem_plus_digits in H1 as (Hne & Hd & _) end.
  destruct m2 as [|d m2]; [congruence|]. simpl in Hd.
  apply andb_prop in Hd as [Hd _].
  unfold digit_follows in H. rewrite <- !app_assoc in H. simpl in H.
  rewrite skip_app_stop in H; [congruence|assumption|].
  now apply digit_not_space.
Qed.

Lemma line_end_stops : forall k post,
  in_cls k NL = false -> (post = [] \/ exists p, post = NL :: p) ->
  post = [] \/ exists x s', post = x :: s' /\ in_cls k x = false.
Proof.
  intros k post Hk [->|[p ->]]; [now left|right]. now exists NL, p.
Qed.

(** The value part of the overtime pattern on " 2" at the end of a line. *)
Lemma overtime_value_hours_only : forall post c,
  (post = [] \/ exists p, post = NL :: p) -> digit_follows post = false ->
  rmatch (Cat (Plus Space)
           (Cat (Grp 1 (Plus Digit)) (Opt (Cat (Star Space) (Grp 2 (Plus Digit))))))
         ([32; 50] ++ post) c (fun s' c' => Some (s', c'))
  = Some (post, (1%nat, [50]) :: c).
Proof.
  intros post c Hpost Hd.
  change ([32; 50] ++ post) with (32 :: [50] ++ post).
  rewrite rmatch_Cat, rmatch_Plus_cons by reflexivity.
  rewrite many_stop by (right; exists 50, post; split; reflexivity).
  rewrite rmatch_Cat, rmatch_Grp.
  change ([50] ++ post) with (50 :: post) at 1.
  rewrite rmatch_Plus_cons by reflexivity.
  rewrite many_stop by (apply line_end_stops; [reflexivity|assumption]).
  rewrite firstn_app_exact.
  rewrite rmatch_Opt_none by (now apply no_minutes). reflexivity.
Qed.

(** The value part of the overtime pattern on " 2 30" at the end of a line. *)
Lemma overtime_value_hours_minutes : forall post c,
  (post = [] \/ exists p, post = NL :: p) ->
  rmatch (Cat (Plus Space)
           (Cat (Grp 1 (Plus Digit)) (Opt (Cat (Star Space) (Grp 2 (Plus Digit))))))
         ([32; 50; 32; 51; 48] ++ post) c (fun s' c' => Some (s', c'))
  = Some (post, (2%nat, [51; 48]) :: (1%nat, [50]) :: c).
Proof.
  intros post c Hpost.
  change ([32; 50; 32; 51; 48] ++ post) with (32 :: [50] ++ 32 :: [51; 48] ++ post).
  rewrite rmatch_Cat, rmatch_Plus_cons by reflexivity.
  rewrite many_stop
    by (right; exists 50, (32 :: [51; 48] ++ post); split; reflexivity).
  rewrite rmatch_Cat, rmatch_Grp.
  change ([50] ++ 32 :: [51; 48] ++ post)
    with (50 :: 32 :: [51; 48] ++ post) at 1.
  rewrite rmatch_Plus_cons by reflexivity.
  rewrite many_stop
    by (right; exists 32, ([51; 48] ++ post); split; reflexivity).
  rewrite firstn_app_exact.
  apply rmatch_Opt_some.
  rewrite rmatch_Cat, rmatch_Star.
  apply many_cons_some; [reflexivity|].
  rewrite many_stop by (right; exists 51, (48 :: post); split; reflexivity).
  rewrite rmatch_Grp.
  change ([51; 48] ++ post) with (51 :: 48 :: post) at 1.
  rewrite rmatch_Plus_cons by reflexivity.
  apply many_cons_some; [reflexivity|].
  rewrite many_stop by (apply line_end_stops; [reflexivity|assumption]).
  now rewrite firstn_app_exact.
Qed.

Lemma search_from_at : forall r pre suf rest c pos,
  (forall pre' suf', pre ++ suf = pre' ++ suf' ->
     (List.length pre' < List.length pre)%nat -> re_match r suf' = None) ->
  re_match r suf = Some (rest, c) ->
  search_from r pos (pre ++ suf) = Some (MatchObj (pos + List.length pre) c).
Proof.
  induction pre as [|x pre IH]; intros suf rest c pos Hmin Hm.
  - simpl. rewrite Nat.add_0_r. destruct suf; simpl; now rewrite Hm.
  - simpl. rewrite (Hmin [] (x :: pre ++ suf) eq_refl ltac:(simpl; lia)).
    rewrite (IH suf rest c (S pos)); [f_equal; f_equal; lia| |assumption].
    intros pre' suf' E Hlt. apply (Hmin (x :: pre') suf').
    + simpl. now rewrite E.
    + simpl. lia.
Qed.

Lemma strip_any_some : forall ls l s s',
  In l ls -> strip_prefix l s = Some s' -> strip_any ls s <> None.
Proof.
  induction ls as [|l0 ls IH]; intros l s s' Hin H; simpl in *; [contradiction|].
  destruct (strip_prefix l0 s) eqn:E; [discriminate|].
  destruct Hin as [->|Hin]; [congruence|eauto].
Qed.

Lemma label_index_before : forall ls s pos i,
  label_index ls s pos = Some i ->
  forall pre' suf', s = pre' ++ suf' -> (pos + List.length pre' < i)%nat ->
                    strip_any ls suf' = None.
Proof.
  induction s as [|x s IH]; intros pos i H pre' suf' E Hlt; simpl in H.
  - destruct (strip_any ls []) eqn:E0; [|discriminate].
    inversion H; subst. lia.
  - destruct (strip_any ls (x :: s)) eqn:E0.
    + inversion H; subst. lia.
    + destruct pre' as [|y pre']; simpl in E.
      * now subst suf'.
      * inversion E; subst. eapply IH; [exact H|reflexivity|]. simpl in Hlt. lia.
Qed.

Lemma overtime_match_has_label : forall s,
  re_match OVERTIME_PATTERN s <> None -> strip_any OVERTIME_LABELS s <> None.
Proof.
  intros s H. destruct (re_match OVERTIME_PATTERN s) as [[rest c]|] eqn:E;
    [|congruence].
  apply re_match_sound in E as (m & -> & Hs). unfold OVERTIME_PATTERN in Hs.
  apply sem_labelled in Hs as (l & m1 & Hin & -> & _); [|discriminate].
  eapply strip_any_some; [exact Hin|].
  rewrite <- app_assoc. apply strip_prefix_app.
Qed.

(** The overtime pattern finds the overtime line, when what the pattern
    captures on that line is known. *)
Lemma overtime_line_found : forall text value pre post c,
  overtime_line_is text (u8 "Переработка" ++ value) pre post ->
  rmatch (Cat (Plus Space)
           (Cat (Grp 1 (Plus Digit)) (Opt (Cat (Star Space) (Grp 2 (Plus Digit))))))
         (value ++ post) [] (fun s' c' => Some (s', c'))
  = Some (post, c) ->
  search OVERTIME_PATTERN text = Some (MatchObj (List.length pre) c).
Proof.
  intros text value pre post c (-> & _ & _ & Hidx) Hv.
  unfold search.
  apply (search_from_at OVERTIME_PATTERN pre _ post c 0).
  - intros pre' suf' E Hlt.
    destruct (re_match OVERTIME_PATTERN suf') eqn:E'; [exfalso|reflexivity].
    apply (overtime_match_has_label suf'); [congruence|].
    eapply label_index_before; [exact Hidx|exact E|]. simpl. lia.
  - unfold re_match, OVERTIME_PATTERN. rewrite rmatch_Cat.
    change (alts OVERTIME_LABELS)
      with (Alt (Lit (u8 "Переработка")) (Lit (u8 "Переработки"))).
    apply rmatch_Alt_first.
    rewrite <- app_assoc, rmatch_Lit_app. exact Hv.
Qed.

(** *** Dates and times that convert *)

Lemma consumes_Cat : forall r1 r2 m1 m2 c c1 c2,
  consumes r1 m1 c c1 -> consumes r2 m2 c1 c2 ->
  consumes (Cat r1 r2) (m1 ++ m2) c c2.
Proof.
  intros r1 r2 m1 m2 c c1 c2 H1 H2 R rest cont res H.
  rewrite rmatch_Cat, <- app_assoc. apply H1. now apply H2.
Qed.

Lemma consumes_Grp : forall i r m c c',
  consumes r m c c' -> consumes (Grp i r) m c ((i, m) :: c').
Proof.
  intros i r m c c' H1 R rest cont res H.
  rewrite rmatch_Grp. apply H1. now rewrite firstn_app_exact.
Qed.

Lemma consumes_Lit : forall l c, consumes (Lit l) l c c.
Proof. intros l c R rest cont res H. now rewrite rmatch_Lit_app. Qed.

Lemma consumes_Chr : forall k x c, in_cls k x = true -> consumes (Chr k) [x] c c.
Proof. intros k x c Hx R rest cont res H. simpl. now rewrite Hx. Qed.

Lemma zero_padded_2 : forall n,
  zero_padded 2 n = [48 + (n / 10) mod 10; 48 + (n / 1) mod 10].
Proof. reflexivity. Qed.

Lemma zero_padded_4 : forall n,
  zero_padded 4 n = [48 + (n / 1000) mod 10; 48 + (n / 100) mod 10;
                     48 + (n / 10) mod 10; 48 + (n / 1) mod 10].
Proof. reflexivity. Qed.

Lemma padded_digit : forall x, decimal (48 + x mod 10) = Some (x mod 10).
Proof.
  intros x. pose proof (Z.mod_pos_bound x 10 ltac:(lia)).
  rewrite ascii_digit_decimal by lia. f_equal. lia.
Qed.

Lemma py_int_padded_2 : forall n,
  0 <= n <= 99 -> py_int (Some (zero_padded 2 n)) = Ret n.
Proof.
  intros n H. rewrite zero_padded_2.
  erewrite py_int_2 by apply padded_digit. f_equal.
  Z.div_mod_to_equations. lia.
Qed.

Lemma py_int_padded_4 : forall n,
  0 <= n <= 9999 -> py_int (Some (zero_padded 4 n)) = Ret n.
Proof.
  intros n H. rewrite zero_padded_4.
  erewrite py_int_4 by apply padded_digit. f_equal.
  Z.div_mod_to_equations. lia.
Qed.

Lemma padded_is_digit : forall x, in_cls Digit (48 + x mod 10) = true.
Proof.
  intros x. cbv beta iota delta [in_cls is_digit]. now rewrite padded_digit.
Qed.

Lemma in_two_digits : forall n, 0 <= n <= 99 -> In n two_digits.
Proof.
  intros n H. unfold two_digits. apply in_map_iff.
  exists (Z.to_nat n). split; [lia|]. apply in_seq. lia.
Qed.

(** The day directive takes the two digits of a day of a month. *)
Lemma day_consumes : forall d c,
  1 <= d <= 31 -> consumes RE_d (zero_padded 2 d) c ((1%nat, zero_padded 2 d) :: c).
Proof.
  intros d c H. apply consumes_Grp.
  pose proof (in_two_digits d ltac:(lia)) as Hin.
  cbv [two_digits seq map Z.of_nat Pos.of_succ_nat Pos.succ] in Hin.
  repeat (destruct Hin as [<-|Hin]; [try lia|]); try contradiction;
    intros R rest cont res Hc; cbn; rewrite Hc; reflexivity.
Qed.

(** The month directive takes the two digits of a month. *)
Lemma month_consumes : forall mo c,
  1 <= mo <= 12 -> consumes RE_m (zero_padded 2 mo) c ((2%nat, zero_padded 2 mo) :: c).
Proof.
  intros mo c H. apply consumes_Grp.
  pose proof (in_two_digits mo ltac:(lia)) as Hin.
  cbv [two_digits seq map Z.of_nat Pos.of_succ_nat Pos.succ] in Hin.
  repeat (destruct Hin as [<-|Hin]; [try lia|]); try contradiction;
    intros R rest cont res Hc; cbn; rewrite Hc; reflexivity.
Qed.

(** The year directive takes four digits. *)
Lemma year_consumes : forall y c,
  consumes RE_Y (zero_padded 4 y) c ((3%nat, zero_padded 4 y) :: c).
Proof.
  intros y c. apply consumes_Grp. rewrite zero_padded_4.
  change [48 + (y / 1000) mod 10; 48 + (y / 100) mod 10;
          48 + (y / 10) mod 10; 48 + (y / 1) mod 10]
    with ([48 + (y / 1000) mod 10] ++ [48 + (y / 100) mod 10]
          ++ [48 + (y / 10) mod 10] ++ [48 + (y / 1) mod 10]).
  apply consumes_Cat with (c1 := c); [apply consumes_Chr, padded_is_digit|].
  apply consumes_Cat with (c1 := c); [apply consumes_Chr, padded_is_digit|].
  apply consumes_Cat with (c1 := c); apply consumes_Chr, padded_is_digit.
Qed.

Lemma date_new_valid : forall y mo d,
  valid_date y mo d -> date_new y mo d = Ret (Date y mo d).
Proof.
  intros y mo d (Hy & Hm & Hd). unfold date_new.
  replace ((1 <=? y) && (y <=? 9999)) with true by lia.
  replace ((1 <=? mo) && (mo <=? 12)) with true by lia.
  replace ((1 <=? d) && (d <=? days_in_month y mo)) with true by lia.
  reflexivity.
Qed.

Lemma days_in_month_bound : forall y mo, days_in_month y mo <= 31.
Proof.
  intros y mo. unfold days_in_month.
  destruct ((mo =? 2) && is_leap y); [lia|].
  unfold DAYS_IN_MONTH.
  destruct (Z.to_nat (mo - 1)) as [|[|[|[|[|[|[|[|[|[|[|[|[|?]]]]]]]]]]]]]; simpl; lia.
Qed.

(** A date of the calendar, written DD.MM.YYYY, converts. *)
Lemma valid_date_converts : forall y mo d,
  valid_date y mo d ->
  strptime_date (Some (date_text y mo d))
  = Ret (DateTime (Date y mo d) (Time 0 0 0)).
Proof.
  intros y mo d Hv. pose proof Hv as (Hy & Hm & Hd).
  pose proof (days_in_month_bound y mo).
  assert (Hre : re_match DATE_FORMAT_RE (date_text y mo d)
                = Some ([], [(3%nat, zero_padded 4 y); (2%nat, zero_padded 2 mo);
                             (1%nat, zero_padded 2 d)])).
  { unfold re_match. rewrite <- (app_nil_r (date_text y mo d)).
    unfold date_text, DATE_FORMAT_RE.
    refine (consumes_Cat _ _ _ _ _ _ _ (day_consumes d [] ltac:(lia)) _ _ _ _ _ eq_refl).
    refine (consumes_Cat _ _ _ _ _ _ _ (consumes_Lit DOT _) _).
    refine (consumes_Cat _ _ _ _ _ _ _ (month_consumes mo _ Hm) _).
    refine (consumes_Cat _ _ _ _ _ _ _ (consumes_Lit DOT _) _).
    apply year_consumes. }
  unfold strptime_date, strptime_groups. rewrite Hre. cbn [bind group Nat.eqb].
  rewrite py_int_padded_4 by lia. cbn [bind].
  rewrite py_int_padded_2 by lia. cbn [bind].
  rewrite py_int_padded_2 by lia. cbn [bind].
  rewrite date_new_valid by assumption. reflexivity.
Qed.

Lemma all_clocks_convert :
  forallb (fun h => forallb (clock_converts h) (map Z.of_nat (seq 0 60)))
          (map Z.of_nat (seq 0 24)) = true.
Proof. vm_compute. reflexivity. Qed.

(** A time of the clock, written HH:MM, converts. *)
Lemma valid_clock_converts : forall h mi,
  valid_clock h mi ->
  strptime_time (Some (clock_text h mi))
  = Ret (DateTime (Date 1900 1 1) (Time h mi 0)).
Proof.
  intros h mi [Hh Hm].
  pose proof (proj1 (forallb_forall _ _) all_clocks_convert h) as H1.
  assert (Hin1 : In h (map Z.of_nat (seq 0 24))).
  { apply in_map_iff. exists (Z.to_nat h). split; [lia|]. apply in_seq. lia. }
  pose proof (proj1 (forallb_forall _ _) (H1 Hin1) mi) as H2.
  assert (Hin2 : In mi (map Z.of_nat (seq 0 60))).
  { apply in_map_iff. exists (Z.to_nat mi). split; [lia|]. apply in_seq. lia. }
  specialize (H2 Hin2). unfold clock_converts in H2.
  destruct (strptime_time (Some (clock_text h mi)))
    as [[[y mo d] [h' mi' s']]|]; [|discriminate].
  repeat (apply andb_prop in H2 as [H2 ?]).
  repeat match goal with H : (_ =? _) = true |- _ => apply Z.eqb_eq in H end.
  now subst.
Qed.

(** A field that is found with a date of the calendar, or a time of the
    clock, is valid; a vehicle, an overtime or a distance that is found is
    valid. *)
Lemma found_date_valid : forall text m y mo d,
  search DATE_PATTERN text = Some m -> m_group 1 m = Some (date_text y mo d) ->
  valid_date y mo d -> field_status FDate text = Valid.
Proof.
  intros text m y mo d Hs Hg Hv.
  cbv beta iota delta [field_status pattern_of convert].
  rewrite Hs, Hg, (valid_date_converts y mo d Hv). reflexivity.
Qed.

Lemma found_start_valid : forall text m h mi,
  search START_PATTERN text = Some m -> m_group 1 m = Some (clock_text h mi) ->
  valid_clock h mi -> field_status FStart text = Valid.
Proof.
  intros text m h mi Hs Hg Hv.
  cbv beta iota delta [field_status pattern_of convert].
  rewrite Hs, Hg, (valid_clock_converts h mi Hv). reflexivity.
Qed.

Lemma found_end_valid : forall text m h mi,
  search END_PATTERN text = Some m -> m_group 1 m = Some (clock_text h mi) ->
  valid_clock h mi -> field_status FEnd text = Valid.
Proof.
  intros text m h mi Hs Hg Hv.
  cbv beta iota delta [field_status pattern_of convert].
  rewrite Hs, Hg, (valid_clock_converts h mi Hv). reflexivity.
Qed.

Lemma found_text_or_number_valid : forall f text,
  f = FVehicle \/ f = FOvertime \/ f = FKm ->
  search (pattern_of f) text <> None -> field_status f text = Valid.
Proof.
  intros f text Hf Hs.
  destruct (field_status f text) as [| |msg] eqn:E; [reflexivity| |].
  - unfold field_status in E.
    destruct (search (pattern_of f) text); [|congruence].
    destruct (convert f m); discriminate.
  - apply invalid_is_date_or_time in E.
    destruct Hf as [-> | [-> | ->]]; destruct E as [E | [E | E]]; discriminate.
Qed.

(** ** The claims *)

(** C1, as amended.  When the six required fields are valid (each is found
    and its date or time converts), [parse_report] returns a record whose
    [work_hours] is the binary64 quotient by 3600 of the difference in seconds
    between the end and the start clock times, taken on the same date with no
    correction for midnight; when the end is earlier than the start it is
    negative. *)
Theorem work_hours_is_clock_difference : forall text,
  (forall f, In f FIELDS -> field_status f text = Valid) ->
  exists r st et,
    start_time_of text = Some st /\ end_time_of text = Some et
    /\ parse_report text = (Some r, None)
    /\ r_work_hours r
       = PyFloat.div (PyFloat.of_Z (clock_seconds et - clock_seconds st))
                     (PyFloat.of_Z 3600)
    /\ (clock_seconds et < clock_seconds st ->
        PyFloat.is_negative (r_work_hours r) = true).
Proof.
  intros text Hb.
  destruct (parse_report_all_valid text Hb)
    as (dt & v & ms & dts & me & dte & h & mins & km & mkad
        & Ss & Cs & Se & Ce & _ & Hp).
  destruct (strptime_time_inv _ _ Cs) as (Hh1 & Hm1 & Hs1).
  destruct (strptime_time_inv _ _ Ce) as (Hh2 & Hm2 & Hs2).
  eexists. exists (dt_time dts), (dt_time dte).
  split; [unfold start_time_of, clock_time_of; now rewrite Ss, Cs|].
  split; [unfold end_time_of, clock_time_of; now rewrite Se, Ce|].
  split; [exact Hp|]. cbv [r_work_hours].
  rewrite total_seconds_same_date by assumption.
  split; [reflexivity|]. intros Hlt. unfold clock_seconds in *.
  rewrite Hs1, Hs2 in *.
  replace (hour (dt_time dte) * 3600 + minute (dt_time dte) * 60 + 0
           - (hour (dt_time dts) * 3600 + minute (dt_time dts) * 60 + 0))
    with (60 * ((hour (dt_time dte) * 60 + minute (dt_time dte))
                - (hour (dt_time dts) * 60 + minute (dt_time dts)))) by lia.
  apply negative_hours_of_minutes. lia.
Qed.

(** C2.  For every text [parse_report] returns (its body's exceptions being
    caught) a pair with exactly one side populated: a record and no message,
    or no record and a message. *)
Theorem parse_report_one_side : forall text,
  (exists r, parse_report text = (Some r, None))
  \/ (exists e, parse_report text = (None, Some e)).
Proof.
  intros text. unfold parse_report.
  destruct (parse_report_body text) as [[ro eo]|msg] eqn:H; [|right; eauto].
  assert (G : (exists r, ro = Some r /\ eo = None)
              \/ (exists e, ro = None /\ eo = Some e)).
  { unfold parse_report_body, bind in H.
    repeat match type of H with
    | Raise _ = Ret _ => discriminate H
    | Ret (None, Some ?m) = Ret _ =>
        apply Ret_pair_inv in H as [-> ->]; right; eauto
    | Ret (Some ?r, None) = Ret _ =>
        apply Ret_pair_inv in H as [-> ->]; left; eauto
    | match ?x with _ => _ end = _ => destruct x; cbv beta iota in H
    end. }
  destruct G as [(r & -> & ->)|(e & -> & ->)]; eauto.
Qed.

(** C3.  When the label of one required field is missing from the text and
    the five other fields are valid, [parse_report] returns no record and the
    message that names the missing field. *)
Theorem missing_field_is_named : forall text f,
  field_absent f text ->
  (forall f', f' <> f -> field_status f' text = Valid) ->
  parse_report text = (None, Some (missing_msg f)).
Proof.
  intros text f Habs Hval.
  pose proof (parse_report_first_failure f text) as H.
  unfold field_status in H at 2.
  rewrite (field_absent_missing f text Habs) in H.
  apply H. intros f' Hin. apply Hval. eapply before_not_self; eauto.
Qed.

(** C4, as amended.  The fields are looked for in the order date, vehicle,
    start, end, overtime, total distance: when a field is missing and every
    field before it is valid, [parse_report] returns no record and the one
    message that names this first missing field, whatever the state of the
    fields after it. *)
Theorem first_missing_field_is_named : forall text f,
  field_status f text = Missing ->
  (forall f', In f' (fields_before f) -> field_status f' text = Valid) ->
  parse_report text = (None, Some (missing_msg f)).
Proof.
  intros text f Hmiss Hval.
  pose proof (parse_report_first_failure f text Hval) as H.
  now rewrite Hmiss in H.
Qed.

(** C5, as amended.  The overtime of a record is the float of the hours
    group plus, when the minutes group took part in the match, the float of
    the minutes group divided by 60 (plus [0/60] otherwise).  A text whose
    overtime line is "Переработка 2" gives 2.0 provided what follows the line
    does not start, past whitespace and line ends, with a digit (which the
    pattern would take for the minutes); a text whose overtime line is
    "Переработка 2 30" gives 2.5. *)
Theorem overtime_is_hours_plus_minutes_over_60 :
  (forall text r,
     parse_report text = (Some r, None) ->
     exists m g1 hours,
       search OVERTIME_PATTERN text = Some m
       /\ m_group 1 m = Some g1 /\ digits_value g1 = Some hours
       /\ ((m_group 2 m = None /\ r_overtime r = overtime_of hours None)
           \/ exists g2 minutes,
                m_group 2 m = Some g2 /\ digits_value g2 = Some minutes
                /\ r_overtime r = overtime_of hours (Some minutes)))
  /\ (forall text pre post r,
        overtime_line_is text (u8 "Переработка 2") pre post ->
        digit_follows post = false ->
        parse_report text = (Some r, None) ->
        r_overtime r = overtime_of 2 None)
  /\ (forall text pre post r,
        overtime_line_is text (u8 "Переработка 2 30") pre post ->
        parse_report text = (Some r, None) ->
        r_overtime r = overtime_of 2 (Some 30))
  /\ PyFloat.to_Q (overtime_of 2 None) = Some 2%Q
  /\ PyFloat.to_Q (overtime_of 2 (Some 30)) = Some (5 # 2)%Q.
Proof.
  split; [|split; [|split; [|split; vm_compute; reflexivity]]].
  - intros text r H.
    apply parse_report_some_inv in H
      as (md & dt & mv & v & ms & st & me & et & mo & h & mins & mk & km & mkad
          & _ & _ & _ & _ & _ & _ & _ & _ & So & Co & Co' & _ & _ & _ & _ & ->).
    destruct (found_overtime_valid _ _ So) as (g1 & n1 & Hg1 & Hn1 & Hf1).
    assert (h = PyFloat.of_Z n1) by congruence. subst h.
    exists mo, g1, n1. split; [assumption|]. split; [assumption|].
    split; [assumption|]. cbv [r_overtime].
    destruct (overtime_minutes_total _ _ So) as [[H2 Hm]|(g2 & n2 & H2 & Hn2 & Hm)].
    + left. split; [assumption|].
      assert (mins = PyInt 0) by congruence. now subst mins.
    + right. exists g2, n2. split; [assumption|]. split; [assumption|].
      assert (mins = PyFloat (PyFloat.of_Z n2)) by congruence. now subst mins.
  - intros text pre post r Hline Hnd H.
    pose proof Hline as (_ & _ & Hpost & _).
    apply parse_report_some_inv in H
      as (md & dt & mv & v & ms & st & me & et & mo & h & mins & mk & km & mkad
          & _ & _ & _ & _ & _ & _ & _ & _ & So & Co & Co' & _ & _ & _ & _ & ->).
    change (u8 "Переработка 2") with (u8 "Переработка" ++ [32; 50]) in Hline.
    rewrite (overtime_line_found text [32; 50] pre post _ Hline
               (overtime_value_hours_only post [] Hpost Hnd)) in So.
    injection So as <-. cbv [r_overtime].
    assert (Hh : Ret h = Ret (PyFloat.of_Z 2)) by (rewrite <- Co; reflexivity).
    assert (Hm : Ret mins = Ret (PyInt 0)) by (rewrite <- Co'; reflexivity).
    assert (h = PyFloat.of_Z 2) by congruence.
    assert (mins = PyInt 0) by congruence. subst h mins. reflexivity.
  - intros text pre post r Hline H.
    pose proof Hline as (_ & _ & Hpost & _).
    apply parse_report_some_inv in H
      as (md & dt & mv & v & ms & st & me & et & mo & h & mins & mk & km & mkad
          & _ & _ & _ & _ & _ & _ & _ & _ & So & Co & Co' & _ & _ & _ & _ & ->).
    change (u8 "Переработка 2 30")
      with (u8 "Переработка" ++ [32; 50; 32; 51; 48]) in Hline.
    rewrite (overtime_line_found text [32; 50; 32; 51; 48] pre post _ Hline
               (overtime_value_hours_minutes post [] Hpost)) in So.
    injection So as <-. cbv [r_overtime].
    assert (Hh : Ret h = Ret (PyFloat.of_Z 2)) by (rewrite <- Co; reflexivity).
    assert (Hm : Ret mins = Ret (PyFloat (PyFloat.of_Z 30)))
      by (rewrite <- Co'; reflexivity).
    assert (h = PyFloat.of_Z 2) by congruence.
    assert (mins = PyFloat (PyFloat.of_Z 30)) by congruence. subst h mins.
    reflexivity.
Qed.

(** C6.  When the label of the distance beyond the ring road does not occur
    in the text and the six required fields are valid, [parse_report] returns
    a record whose [km_mkad] is 0. *)
Theorem km_mkad_defaults_to_zero : forall text,
  ~ occurs MKAD_LABEL text ->
  (forall f, In f FIELDS -> field_status f text = Valid) ->
  exists r, parse_report text = (Some r, None) /\ r_km_mkad r = PyInt 0.
Proof.
  intros text Habs Hval. apply valid_report_without_mkad; [assumption|].
  now apply mkad_absent_unmatched.
Qed.

(** C7.  A value that has the shape its pattern asks for but does not
    convert: the pattern matcher accepts it, and when the fields before it are
    valid [parse_report] returns no record and the message of the conversion
    error.  Only a date or a time can fail so. *)
Theorem invalid_value_reports_conversion_error : forall text f msg,
  (forall f', In f' (fields_before f) -> field_status f' text = Valid) ->
  field_status f text = Invalid msg ->
  field_shaped f text = true
  /\ (f = FDate \/ f = FStart \/ f = FEnd)
  /\ parse_report text = (None, Some msg).
Proof.
  intros text f msg Hval Hinv. split; [|split].
  - unfold field_shaped. unfold field_status in Hinv.
    destruct (search (pattern_of f) text) as [m|] eqn:E; [|discriminate].
    destruct (found_is_shaped _ _ _ E) as (g & -> & Hg). exact Hg.
  - eapply invalid_is_date_or_time; eauto.
  - pose proof (parse_report_first_failure f text Hval) as H.
    now rewrite Hinv in H.
Qed.

(** C8, as amended.  The vehicle of a record is what the vehicle pattern
    captured, stripped.  The pattern takes the leftmost vehicle label that is
    followed by whitespace and then by a character other than a line end (a
    label that is not, is passed over), the longest whitespace after it that
    such a character follows (line ends included), and from there the whole
    rest of the line.  These conditions leave one text only; the record
    stores it without whitespace at either end. *)
Theorem vehicle_is_stripped_capture : forall text r,
  parse_report text = (Some r, None) ->
  exists g,
    vehicle_capture text g
    /\ (forall g', vehicle_capture text g' -> g' = g)
    /\ r_vehicle r = strip g
    /\ (forall c rest, r_vehicle r = c :: rest -> is_space c = false)
    /\ (forall rest c, r_vehicle r = rest ++ [c] -> is_space c = false).
Proof.
  intros text r H.
  apply parse_report_some_inv in H
    as (md & dt & mv & v & ms & st & me & et & mo & h & mins & mk & km & mkad
        & _ & _ & Sv & Cv & _ & _ & _ & _ & _ & _ & _ & _ & _ & _ & _ & ->).
  apply vehicle_match in Sv as (g & Hcap & Hm).
  rewrite Hm in Cv. simpl in Cv. assert (v = strip g) by congruence. subst v.
  exists g. cbv [r_vehicle].
  split; [assumption|]. split.
  - intros g' Hcap'. eapply vehicle_capture_unique; eauto.
  - split; [reflexivity|]. split.
    + apply strip_no_leading.
    + apply strip_no_trailing.
Qed.

(** C9, as amended.  A date is found exactly when the text has a substring
    of the shape DD.MM.YYYY anywhere, inside a longer run of digits too, with
    no label; the leftmost such substring is the one that is used. *)
Theorem date_found_iff_shape_occurs : forall text,
  (search DATE_PATTERN text <> None
   <-> exists pre g post, text = pre ++ g ++ post /\ is_date_shaped g = true)
  /\ forall m,
       search DATE_PATTERN text = Some m ->
       exists pre g post,
         text = pre ++ g ++ post /\ is_date_shaped g = true
         /\ m_group 1 m = Some g /\ m_start m = List.length pre
         /\ forall pre' g' post', text = pre' ++ g' ++ post' ->
              is_date_shaped g' = true ->
              (List.length pre <= List.length pre')%nat.
Proof.
  intros text. split; [split|].
  - intros H. destruct (search DATE_PATTERN text) as [m|] eqn:E; [|congruence].
    apply date_found in E as (pre & g & post & E & Hs & _). eauto.
  - intros (pre & g & post & E & Hs). eapply date_shaped_found; eauto.
  - apply date_found.
Qed.


(** ** The reply and the store: lemmas *)

(** *** Integers in decimal digits *)

Lemma digits_of_acc : forall fuel n acc,
  digits_of fuel n acc = digits_of fuel n [] ++ acc.
Proof.
  induction fuel as [|fuel IH]; intros n acc; simpl; [reflexivity|].
  destruct (n <? 10); [reflexivity|].
  rewrite IH, (IH _ [48 + n mod 10]), <- app_assoc. reflexivity.
Qed.

Lemma digits_of_fuel : forall fuel fuel' n acc,
  0 <= n < 2 ^ Z.of_nat (S fuel) -> n < 2 ^ Z.of_nat (S fuel') ->
  digits_of (S fuel) n acc = digits_of (S fuel') n acc.
Proof.
  induction fuel as [|fuel IH]; intros fuel' n acc H H';
    cbn [digits_of]; destruct (n <? 10) eqn:E; try reflexivity;
    apply Z.ltb_ge in E.
  - change (2 ^ Z.of_nat 1) with 2 in H. lia.
  - rewrite Nat2Z.inj_succ, Z.pow_succ_r in H by lia.
    destruct fuel' as [|fuel'].
    + change (2 ^ Z.of_nat 1) with 2 in H'. lia.
    + rewrite Nat2Z.inj_succ, Z.pow_succ_r in H' by lia.
      apply IH; [split; [apply Z.div_pos; lia|]|];
        apply Z.div_lt_upper_bound; lia.
Qed.

Lemma log2_fuel : forall n, 0 <= n -> n < 2 ^ Z.of_nat (S (Z.to_nat (Z.log2 n))).
Proof.
  intros n H. rewrite Nat2Z.inj_succ, Z2Nat.id by apply Z.log2_nonneg.
  destruct (Z.eq_dec n 0) as [->|]; [reflexivity|].
  apply Z.log2_spec. lia.
Qed.

Lemma str_of_int_small : forall n, 0 <= n < 10 -> str_of_int n = [48 + n].
Proof.
  intros n H. unfold str_of_int. replace (n <? 0) with false by lia.
  rewrite Nat.add_1_r. cbn [digits_of]. replace (n <? 10) with true by lia.
  f_equal. rewrite Z.mod_small by lia. reflexivity.
Qed.

Lemma str_of_int_step : forall n,
  10 <= n -> str_of_int n = str_of_int (n / 10) ++ [48 + n mod 10].
Proof.
  intros n H. unfold str_of_int.
  replace (n <? 0) with false by lia.
  assert (H10 : 0 <= n / 10) by (apply Z.div_pos; lia).
  replace (n / 10 <? 0) with false by lia.
  remember (digits_of (Z.to_nat (Z.log2 (n / 10)) + 1) (n / 10) []) as R eqn:ER.
  rewrite Nat.add_1_r. cbn [digits_of].
  replace (n <? 10) with false by lia.
  rewrite digits_of_acc. f_equal. subst R. rewrite Nat.add_1_r.
  pose proof (Z.log2_spec n ltac:(lia)) as [Hl Hu].
  rewrite Z.pow_succ_r in Hu by apply Z.log2_nonneg.
  destruct (Z.to_nat (Z.log2 n)) as [|fuel] eqn:Ef.
  { pose proof (Z.log2_nonneg n). replace (Z.log2 n) with 0 in Hu by lia.
    change (2 ^ 0) with 1 in Hu. lia. }
  apply digits_of_fuel; [|apply log2_fuel; assumption].
  split; [assumption|]. rewrite <- Ef, Z2Nat.id by apply Z.log2_nonneg.
  apply Z.div_lt_upper_bound; lia.
Qed.

(** Induction along the digits of a number. *)
Lemma digits_ind : forall P : Z -> Prop,
  (forall n, 0 <= n < 10 -> P n) ->
  (forall n, 10 <= n -> P (n / 10) -> P n) ->
  forall n, 0 <= n -> P n.
Proof.
  intros P H0 H1 n Hn. pattern n. apply Zlt_0_ind; [|exact Hn].
  clear n Hn. intros n IH Hn.
  destruct (Z_lt_dec n 10); [apply H0; lia|].
  apply H1; [lia|]. apply IH. split; [apply Z.div_pos; lia|].
  apply Z.div_lt; lia.
Qed.

Lemma str_of_int_digits : forall n,
  0 <= n -> Forall (fun c => 48 <= c <= 57) (str_of_int n).
Proof.
  intros n Hn. pattern n. apply digits_ind; [| |exact Hn]; clear n Hn.
  - intros n H. rewrite str_of_int_small by assumption. constructor; [lia|constructor].
  - intros n H IH. rewrite str_of_int_step by assumption.
    apply Forall_app. split; [assumption|].
    pose proof (Z.mod_pos_bound n 10 ltac:(lia)). constructor; [lia|constructor].
Qed.

Lemma str_of_int_mul10 : forall k, 0 < k -> str_of_int (10 * k) = str_of_int k ++ [48].
Proof.
  intros k H. rewrite str_of_int_step by lia.
  rewrite (Z.mul_comm 10 k), Z.div_mul, Z.mod_mul by lia. reflexivity.
Qed.

Lemma str_of_int_pow10 : forall k p,
  0 < k -> (0 <= p) ->
  str_of_int (k * 10 ^ p) = str_of_int k ++ repeat 48 (Z.to_nat p).
Proof.
  intros k p Hk Hp. pattern p. apply natlike_ind; [| |exact Hp]; clear p Hp.
  - simpl. rewrite Z.mul_1_r, app_nil_r. reflexivity.
  - intros p Hp IH. rewrite Z.pow_succ_r by assumption.
    replace (k * (10 * 10 ^ p)) with (10 * (k * 10 ^ p)) by lia.
    rewrite str_of_int_mul10 by (apply Z.mul_pos_pos; [lia|apply Z.pow_pos_nonneg; lia]).
    rewrite IH, Z2Nat.inj_succ by assumption.
    rewrite <- app_assoc. f_equal.
    change [48] with (repeat 48 1). rewrite <- repeat_app.
    f_equal. lia.
Qed.

(** A number below [10^L] has at most [L] digits. *)
Lemma str_of_int_length : forall n L,
  0 <= n -> 0 < L -> n < 10 ^ L -> Z.of_nat (List.length (str_of_int n)) <= L.
Proof.
  intros n L Hn. revert L. pattern n. apply digits_ind; [| |exact Hn]; clear n Hn.
  - intros n H L HL _. rewrite str_of_int_small by assumption. simpl. lia.
  - intros n H IH L HL Hlt. rewrite str_of_int_step by assumption.
    rewrite length_app, Nat2Z.inj_add. simpl.
    assert (1 < L).
    { destruct (Z.eq_dec L 1) as [->|]; [|lia]. simpl in Hlt. lia. }
    specialize (IH (L - 1) ltac:(lia)).
    assert (n / 10 < 10 ^ (L - 1)).
    { apply Z.div_lt_upper_bound; [lia|].
      rewrite <- Z.pow_succ_r by lia. now replace (Z.succ (L - 1)) with L by lia. }
    lia.
Qed.

Lemma str_of_int_nonempty : forall n, 0 <= n -> str_of_int n <> [].
Proof.
  intros n Hn. destruct (Z_lt_dec n 10).
  - rewrite str_of_int_small by lia. discriminate.
  - rewrite str_of_int_step by lia. intros E. apply app_eq_nil in E as [_ E]. discriminate.
Qed.

(** *** Integers as floats *)

Lemma digits2_pos_bound : forall p,
  2 ^ (Zpos (digits2_pos p) - 1) <= Zpos p < 2 ^ Zpos (digits2_pos p).
Proof.
  induction p as [p IH|p IH|]; cbn [digits2_pos].
  - rewrite Pos2Z.inj_succ. replace (Z.succ (Zpos (digits2_pos p)) - 1)
      with (Z.succ (Zpos (digits2_pos p) - 1)) by lia.
    rewrite !Z.pow_succ_r by lia. lia.
  - rewrite Pos2Z.inj_succ. replace (Z.succ (Zpos (digits2_pos p)) - 1)
      with (Z.succ (Zpos (digits2_pos p) - 1)) by lia.
    rewrite !Z.pow_succ_r by lia. lia.
  - simpl. lia.
Qed.

Lemma iter_xO_value : forall k p, Zpos (Pos.iter xO p k) = Zpos p * 2 ^ Zpos k.
Proof.
  intros k p. induction k as [|k IH] using Pos.peano_ind.
  - simpl. lia.
  - rewrite Pos.iter_succ, Pos2Z.inj_succ, Z.pow_succ_r by lia.
    rewrite Pos2Z.inj_xO, IH. lia.
Qed.

Lemma iter_xO_digits : forall k p,
  Zpos (digits2_pos (Pos.iter xO p k)) = Zpos (digits2_pos p) + Zpos k.
Proof.
  intros k p. induction k as [|k IH] using Pos.peano_ind.
  - simpl. lia.
  - rewrite Pos.iter_succ. cbn [digits2_pos]. rewrite Pos2Z.inj_succ, IH. lia.
Qed.

(** A mantissa of 53 bits with an exponent in range is what rounding leaves
    as it is. *)
Lemma binary_round_aux_exact : forall s m e,
  Zpos (digits2_pos m) = 53 -> -1074 <= e <= 971 ->
  binary_round_aux 53 1024 s (Zpos m) e loc_Exact = S754_finite s m e.
Proof.
  intros s m e Hd He.
  assert (Hf : fexp 53 1024 (Zpos (digits2_pos m) + e) - e = 0).
  { unfold fexp, emin. rewrite Hd. lia. }
  unfold binary_round_aux, shr_fexp. cbn [Zdigits2 shr_record_of_loc].
  rewrite Hf. cbn [shr shr_m loc_of_shr_record round_nearest_even Zdigits2 shr_record_of_loc].
  rewrite Hf. cbn [shr shr_m].
  replace (e <=? 1024 - 53) with true by lia. reflexivity.
Qed.

(** [float(n)] of a positive integer below [2^53] is [n] itself, held in 53
    bits. *)
Lemma of_Z_exact : forall n,
  0 < n < 2 ^ 53 ->
  exists m e,
    PyFloat.of_Z n = S754_finite false m e
    /\ -52 <= e <= 0 /\ Zpos m = n * 2 ^ (- e) /\ 2 ^ 52 <= Zpos m < 2 ^ 53.
Proof.
  intros n [Hn Hlt]. destruct n as [|p|p]; try lia.
  pose proof (digits2_pos_bound p) as [Hl Hu].
  assert (Hd : Zpos (digits2_pos p) <= 53).
  { destruct (Z_le_gt_dec (Zpos (digits2_pos p)) 53); [assumption|exfalso].
    assert (2 ^ 53 <= 2 ^ (Zpos (digits2_pos p) - 1))
      by (apply Z.pow_le_mono_r; lia). lia. }
  unfold PyFloat.of_Z, PyFloat.prec, PyFloat.emax, binary_normalize, binary_round.
  assert (Hf : fexp 53 1024 (Zpos (digits2_pos p) + 0) = Zpos (digits2_pos p) - 53).
  { unfold fexp, emin. lia. }
  rewrite Hf. unfold shl_align. rewrite Z.sub_0_r.
  destruct (Zpos (digits2_pos p) - 53) as [|k|k] eqn:Ek; try lia.
  - exists p, 0. rewrite binary_round_aux_exact by lia.
    split; [reflexivity|]. split; [lia|]. split; [simpl; lia|].
    replace (Zpos (digits2_pos p)) with 53 in Hl by lia. simpl in Hl. lia.
  - assert (Hk : Zpos k = 53 - Zpos (digits2_pos p)) by lia.
    exists (Pos.iter xO p k), (Zneg k).
    rewrite binary_round_aux_exact by (rewrite ?iter_xO_digits; lia).
    split; [reflexivity|]. split; [lia|].
    rewrite iter_xO_value. change (- Zneg k) with (Zpos k).
    split; [reflexivity|]. rewrite Hk.
    split.
    + replace 52 with ((Zpos (digits2_pos p) - 1) + (53 - Zpos (digits2_pos p))) by lia.
      rewrite Z.pow_add_r by lia. apply Z.mul_le_mono_nonneg_r; [|assumption].
      apply Z.pow_nonneg; lia.
    + replace 53 with (Zpos (digits2_pos p) + (53 - Zpos (digits2_pos p))) at 2 by lia.
      rewrite Z.pow_add_r by lia. apply Z.mul_lt_mono_pos_r; [|assumption].
      apply Z.pow_pos_nonneg; lia.
Qed.

(** *** Whole numbers as the reply shows them *)

Lemma format_2f_integer : forall n,
  0 <= n < 2 ^ 53 -> format_2f (PyFloat.of_Z n) = str_of_int n ++ u8 ".00".
Proof.
  intros n [Hn Hlt]. destruct (Z.eq_dec n 0) as [->|Hz]; [reflexivity|].
  destruct (of_Z_exact n ltac:(lia)) as (m & e & -> & He & Hm & _).
  assert (Hh : hundredths m e = 100 * n).
  { unfold hundredths. destruct (0 <=? e) eqn:E.
    - apply Z.leb_le in E. replace e with 0 in * by lia.
      simpl in Hm. change (2 ^ 0) with 1. lia.
    - unfold round_half_even. rewrite Hm.
      assert (0 < 2 ^ (- e)) by (apply Z.pow_pos_nonneg; lia).
      rewrite Z.mul_assoc, Z.mod_mul, Z.div_mul by lia.
      destruct (Z.compare_spec (2 * 0) (2 ^ (- e))); lia. }
  unfold format_2f. rewrite Hh.
  rewrite (Z.mul_comm 100 n), Z.div_mul, Z.mod_mul by lia. reflexivity.
Qed.

Section WholeFloat.

Variables (n : Z) (m : positive) (e : Z).
Hypothesis Hn : 0 < n.
Hypothesis He : -52 <= e <= 0.
Hypothesis Hm : Zpos m = n * 2 ^ (- e).

Lemma scaled_whole : forall p,
  0 <= p ->
  Zpos m * scaled_pow2 e p e = n * 2 ^ (2 - e)
  /\ scaled_pow2 e p (e - 1) = 2
  /\ scaled_pow2 e p (e - 2) = 1
  /\ scaled_pow10 e p = 2 ^ (2 - e) * 10 ^ p
  /\ 4 <= 2 ^ (2 - e).
Proof.
  intros p Hp. unfold scaled_pow2, scaled_pow10, scale2, scale10.
  rewrite (Z.max_r 0 (2 - e)), (Z.max_l 0 (- p)) by lia.
  replace (e + (2 - e)) with 2 by lia.
  replace (e - 1 + (2 - e)) with 1 by lia.
  replace (e - 2 + (2 - e)) with 0 by lia.
  rewrite Z.add_0_r.
  replace (2 - e) with (2 + - e) by lia. rewrite Z.pow_add_r by lia.
  assert (0 < 2 ^ (- e)) by (apply Z.pow_pos_nonneg; lia).
  change (2 ^ 2) with 4. change (10 ^ 0) with 1. change (2 ^ 1) with 2.
  change (2 ^ 0) with 1. repeat split; try lia.
Qed.

(** Of the multiples of a power of ten that is at least 1, only [n] itself
    reads back as [n]. *)
Lemma reads_back_whole : forall p k,
  0 <= p -> reads_back m e p (k * scaled_pow10 e p) = (k * 10 ^ p =? n).
Proof.
  intros p k Hp. unfold reads_back.
  destruct (scaled_whole p Hp) as (-> & -> & -> & -> & HS).
  set (S := 2 ^ (2 - e)) in *.
  replace (k * (S * 10 ^ p)) with (k * 10 ^ p * S) by lia.
  set (D := k * 10 ^ p).
  destruct (Z.eqb_spec D n) as [->|Hne].
  - destruct ((Zpos m =? 2 ^ 52) && (-1074 <? e)), (Z.even (Zpos m)); lia.
  - assert (D * S <= n * S - S \/ n * S + S <= D * S) by nia.
    destruct ((Zpos m =? 2 ^ 52) && (-1074 <? e)), (Z.even (Zpos m)); lia.
Qed.

Lemma nearest_multiple_whole : forall p,
  0 <= p ->
  nearest_multiple m e p = if n mod 10 ^ p =? 0 then Some (n / 10 ^ p) else None.
Proof.
  intros p Hp. unfold nearest_multiple. rewrite !reads_back_whole by assumption.
  destruct (scaled_whole p Hp) as (-> & _ & _ & -> & HS).
  assert (H10 : 0 < 10 ^ p) by (apply Z.pow_pos_nonneg; lia).
  rewrite (Z.mul_comm n (2 ^ (2 - e))), Z.div_mul_cancel_l by lia.
  pose proof (Z.div_mod n (10 ^ p) ltac:(lia)) as Hdm.
  pose proof (Z.mod_pos_bound n (10 ^ p) H10) as Hb.
  replace ((n / 10 ^ p + 1) * 10 ^ p =? n) with false by lia.
  destruct (Z.eqb_spec (n mod 10 ^ p) 0) as [E|E].
  - replace (n / 10 ^ p * 10 ^ p =? n) with true by lia. reflexivity.
  - replace (n / 10 ^ p * 10 ^ p =? n) with false by lia. reflexivity.
Qed.

Lemma shortest_from_whole : forall fuel p,
  0 <= p <= Z.of_nat fuel ->
  exists p', 0 <= p' <= p /\ n mod 10 ^ p' = 0
             /\ shortest_from m e fuel p = (n / 10 ^ p', p').
Proof.
  induction fuel as [|fuel IH]; intros p Hp; cbn [shortest_from];
    rewrite nearest_multiple_whole by lia;
    destruct (Z.eqb_spec (n mod 10 ^ p) 0) as [E|E];
    try (exists p; split; [lia|]; split; [assumption|reflexivity]).
  - replace p with 0 in E by lia. rewrite Z.pow_0_r, Z.mod_1_r in E. congruence.
  - assert (p <> 0).
    { intros ->. rewrite Z.pow_0_r, Z.mod_1_r in E. congruence. }
    destruct (IH (p - 1) ltac:(lia)) as (p' & Hp' & Hd & Hs).
    exists p'. split; [lia|]. split; assumption.
Qed.

End WholeFloat.

Lemma float_repr_integer : forall n,
  0 <= n < 2 ^ 53 -> float_repr (PyFloat.of_Z n) = str_of_int n ++ u8 ".0".
Proof.
  intros n [Hn Hlt]. destruct (Z.eq_dec n 0) as [->|Hz]; [reflexivity|].
  destruct (of_Z_exact n ltac:(lia)) as (m & e & -> & He & Hm & _).
  destruct (shortest_from_whole n m e ltac:(lia) He Hm 1383%nat 309 ltac:(lia))
    as (p & Hp & Hd & Hs).
  unfold float_repr, shortest_digits. rewrite Hs.
  assert (H10 : 0 < 10 ^ p) by (apply Z.pow_pos_nonneg; lia).
  pose proof (Z.div_mod n (10 ^ p) ltac:(lia)) as Hdm. rewrite Hd in Hdm.
  set (k := n / 10 ^ p) in *.
  assert (Hk : 0 < k) by nia.
  assert (Hstr : str_of_int n = str_of_int k ++ repeat 48 (Z.to_nat p)).
  { rewrite <- str_of_int_pow10 by lia. f_equal. lia. }
  pose proof (str_of_int_length n 16 ltac:(lia) ltac:(lia) ltac:(lia)) as Hlen.
  rewrite Hstr, length_app, repeat_length, Nat2Z.inj_add, Z2Nat.id in Hlen by lia.
  pose proof (str_of_int_nonempty k ltac:(lia)) as Hne.
  set (digits := str_of_int k) in *.
  assert (0 < Z.of_nat (List.length digits)) by (destruct digits; [congruence|simpl; lia]).
  cbv zeta.
  replace ((-4 <? Z.of_nat (List.length digits) + p)
           && (Z.of_nat (List.length digits) + p <=? 16)) with true by lia.
  replace (Z.of_nat (List.length digits) + p <=? 0) with false by lia.
  replace (Z.of_nat (List.length digits) <=? Z.of_nat (List.length digits) + p)
    with true by lia.
  replace (Z.of_nat (List.length digits) + p - Z.of_nat (List.length digits))
    with p by lia.
  rewrite Hstr, <- app_assoc. reflexivity.
Qed.

(** *** The sign of a float *)

Lemma iter_pos_invariant : forall (A : Type) (f : A -> A) (P : A -> Prop),
  (forall x, P x -> P (f x)) -> forall n x, P x -> P (iter_pos f n x).
Proof.
  intros A f P Hf. induction n as [n IH|n IH|]; intros x Hx; cbn [iter_pos]; auto.
Qed.

Lemma shr_1_nonneg : forall mrs, 0 <= shr_m mrs -> 0 <= shr_m (shr_1 mrs).
Proof.
  intros [m r s] H. cbn [shr_m] in H. unfold shr_1.
  destruct m as [|[p|p|]|p]; cbn [shr_m]; lia.
Qed.

Lemma shr_fexp_nonneg : forall m e l,
  0 <= m -> 0 <= shr_m (fst (shr_fexp 53 1024 m e l)).
Proof.
  intros m e l H. unfold shr_fexp, shr.
  assert (H0 : 0 <= shr_m (shr_record_of_loc m l))
    by (destruct l as [|[| |]]; exact H).
  destruct (fexp 53 1024 (Zdigits2 m + e) - e); cbn [fst]; try exact H0.
  apply iter_pos_invariant; [apply shr_1_nonneg|exact H0].
Qed.

(** Rounding keeps the sign it is given, and gives a number. *)
Lemma binary_round_aux_sign : forall s m e l,
  0 <= m -> nonnegative (binary_round_aux 53 1024 s m e l) = negb s.
Proof.
  intros s m e l H. unfold binary_round_aux.
  pose proof (shr_fexp_nonneg m e l H) as H1.
  destruct (shr_fexp 53 1024 m e l) as [mrs' e'] eqn:E1. cbn [fst] in H1.
  set (m' := round_nearest_even (shr_m mrs') (loc_of_shr_record mrs')).
  assert (H2 : 0 <= m').
  { unfold m', round_nearest_even.
    destruct (loc_of_shr_record mrs') as [|[| |]]; try lia.
    destruct (Z.even (shr_m mrs')); lia. }
  pose proof (shr_fexp_nonneg m' e' loc_Exact H2) as H3.
  destruct (shr_fexp 53 1024 m' e' loc_Exact) as [mrs'' e''] eqn:E2.
  cbn [fst] in H3.
  destruct (shr_m mrs'') as [|p|p]; [reflexivity| |lia].
  destruct (e'' <=? 1024 - 53); reflexivity.
Qed.

Lemma of_Z_nonnegative : forall n, 0 <= n -> nonnegative (PyFloat.of_Z n) = true.
Proof.
  intros n H. unfold PyFloat.of_Z, binary_normalize.
  destruct n as [|p|p]; [reflexivity| |lia].
  unfold binary_round.
  destruct (shl_align p 0 (fexp PyFloat.prec PyFloat.emax (Zpos (digits2_pos p) + 0)))
    as [mz ez].
  apply (binary_round_aux_sign false); lia.
Qed.

Lemma div_nonnegative : forall x m e,
  nonnegative x = true ->
  nonnegative (PyFloat.div x (S754_finite false m e)) = true.
Proof.
  intros [s|s| |s mx ex] m e H; try discriminate H;
    destruct s; try discriminate H; try reflexivity.
  unfold PyFloat.div, SFdiv, SFdiv_core_binary.
  set (m' := match _ with Z.pos _ => _ | 0 => _ | Z.neg _ => _ end).
  assert (Hm' : 0 <= m').
  { unfold m'. destruct (_ - _ - _) as [|s|s]; try lia.
    rewrite Z.shiftl_mul_pow2 by lia.
    pose proof (Z.pow_pos_nonneg 2 (Zpos s) ltac:(lia) ltac:(lia)). lia. }
  pose proof (Z_div_mod m' (Zpos m) ltac:(lia)) as Hdm.
  destruct (Z.div_eucl m' (Zpos m)) as [q r].
  apply (binary_round_aux_sign false). nia.
Qed.

Lemma add_nonnegative : forall x y,
  nonnegative x = true -> nonnegative y = true ->
  nonnegative (PyFloat.add x y) = true.
Proof.
  intros [s|s| |s mx ex] [s'|s'| |s' my ey] Hx Hy; try discriminate;
    destruct s; try discriminate; destruct s'; try discriminate; try reflexivity.
  unfold PyFloat.add, SFadd. cbn [SpecFloat.cond_Zopp].
  set (a := fst (shl_align mx ex (Z.min ex ey))).
  set (b := fst (shl_align my ey (Z.min ex ey))).
  change (Zpos a + Zpos b) with (Zpos (a + b)).
  unfold binary_normalize, binary_round.
  destruct (shl_align (a + b) _ _) as [mz ez].
  apply (binary_round_aux_sign false); lia.
Qed.

(** *** Texts of one line *)

Lemma one_line_app : forall s t, one_line s -> one_line t -> one_line (s ++ t).
Proof. intros s t Hs Ht. apply Forall_app. auto. Qed.

Lemma one_line_digits : forall s,
  Forall (fun c => 48 <= c <= 57) s -> one_line s.
Proof.
  intros s H. eapply Forall_impl; [|exact H]. intros c Hc. unfold NL. simpl in Hc. lia.
Qed.

Lemma one_line_literal : forall s,
  forallb (fun c => negb (c =? NL)) s = true -> one_line s.
Proof.
  intros s H. apply Forall_forall. intros c Hc.
  apply (proj1 (forallb_forall _ _) H) in Hc.
  destruct (Z.eqb_spec c NL); [discriminate|assumption].
Qed.

Lemma one_line_firstn : forall n s, one_line s -> one_line (firstn n s).
Proof.
  intros n s H. rewrite <- (firstn_skipn n s) in H. now apply Forall_app in H.
Qed.

Lemma one_line_skipn : forall n s, one_line s -> one_line (skipn n s).
Proof.
  intros n s H. rewrite <- (firstn_skipn n s) in H. now apply Forall_app in H.
Qed.

Lemma one_line_repeat : forall c n, c <> NL -> one_line (repeat c n).
Proof.
  intros c n H. apply Forall_forall. intros x Hx. apply repeat_spec in Hx. now subst.
Qed.

Lemma one_line_str_of_int : forall n, 0 <= n -> one_line (str_of_int n).
Proof. intros n H. now apply one_line_digits, str_of_int_digits. Qed.

Lemma one_line_zero_padded : forall w n, one_line (zero_padded w n).
Proof.
  intros w n. unfold zero_padded. apply Forall_forall. intros c Hc.
  apply in_map_iff in Hc as (i & <- & _).
  pose proof (Z.mod_pos_bound (n / 10 ^ Z.of_nat i) 10 ltac:(lia)). unfold NL. lia.
Qed.

Lemma one_line_sign : forall s, one_line (sign_str s).
Proof. intros [|]; repeat constructor. discriminate. Qed.

Ltac one_line_parts :=
  repeat first
    [ apply one_line_app
    | apply one_line_sign
    | apply one_line_zero_padded
    | apply one_line_firstn
    | apply one_line_skipn
    | apply one_line_repeat; discriminate
    | apply one_line_literal; reflexivity ].

Lemma round_half_even_nonneg : forall a b, 0 <= a -> 0 < b -> 0 <= round_half_even a b.
Proof.
  intros a b Ha Hb. unfold round_half_even.
  pose proof (Z.div_pos a b Ha Hb).
  destruct (2 * (a mod b) ?= b); [destruct (Z.even (a / b))| |]; lia.
Qed.

Lemma hundredths_nonneg : forall m e, 0 <= hundredths m e.
Proof.
  intros m e. unfold hundredths. destruct (0 <=? e) eqn:E.
  - apply Z.leb_le in E. pose proof (Z.pow_pos_nonneg 2 e ltac:(lia) E). lia.
  - apply Z.leb_gt in E. apply round_half_even_nonneg; [lia|].
    apply Z.pow_pos_nonneg; lia.
Qed.

Lemma one_line_format_2f : forall x, one_line (format_2f x).
Proof.
  intros [s|s| |s m e]; unfold format_2f; one_line_parts.
  apply one_line_str_of_int. apply Z.div_pos; [apply hundredths_nonneg|lia].
Qed.

Lemma scaled_pow2_pos : forall e p x, e - 2 <= x -> 0 < scaled_pow2 e p x.
Proof.
  intros e p x H. unfold scaled_pow2, scale2, scale10.
  apply Z.mul_pos_pos; apply Z.pow_pos_nonneg; lia.
Qed.

Lemma scaled_pow10_pos : forall e p, 0 < scaled_pow10 e p.
Proof.
  intros e p. unfold scaled_pow10, scale2, scale10.
  apply Z.mul_pos_pos; apply Z.pow_pos_nonneg; lia.
Qed.

Lemma shortest_from_nonneg : forall m e fuel p,
  0 <= fst (shortest_from m e fuel p).
Proof.
  intros m e.
  assert (Hq : forall p, 0 <= Zpos m * scaled_pow2 e p e / scaled_pow10 e p).
  { intros p. apply Z.div_pos; [|apply scaled_pow10_pos].
    pose proof (scaled_pow2_pos e p e ltac:(lia)). lia. }
  assert (Hk : forall p k, nearest_multiple m e p = Some k -> 0 <= k).
  { intros p k. unfold nearest_multiple. specialize (Hq p).
    set (q := Zpos m * scaled_pow2 e p e / scaled_pow10 e p) in *.
    destruct (reads_back _ _ _ (q * _)), (reads_back _ _ _ ((q + 1) * _));
      try destruct (_ ?= _); try destruct (Z.even q);
      intros H; inversion H; lia. }
  induction fuel as [|fuel IH]; intros p; cbn [shortest_from];
    destruct (nearest_multiple m e p) as [k|] eqn:E; cbn [fst]; eauto.
Qed.

Lemma one_line_exponent : forall x, one_line (exponent_str x).
Proof.
  intros x. unfold exponent_str.
  repeat match goal with |- context [if ?b then _ else _] => destruct b end;
    one_line_parts; apply one_line_str_of_int; lia.
Qed.

Lemma one_line_float_repr : forall x, one_line (float_repr x).
Proof.
  intros [s|s| |s m e]; unfold float_repr; one_line_parts.
  pose proof (shortest_from_nonneg m e 1383 309) as Hk.
  unfold shortest_digits. destruct (shortest_from m e 1383 309) as [k p].
  cbn [fst] in Hk. cbv zeta.
  pose proof (one_line_str_of_int k Hk) as Hd.
  apply one_line_app; [apply one_line_sign|].
  repeat match goal with |- context [if ?b then _ else _] => destruct b end;
    repeat first [ assumption | apply one_line_exponent | apply one_line_app
                 | apply one_line_firstn | apply one_line_skipn
                 | apply one_line_repeat; discriminate
                 | apply one_line_literal; reflexivity ].
Qed.

Lemma one_line_pynum_str : forall x,
  match x with PyInt n => 0 <= n | PyFloat _ => True end -> one_line (pynum_str x).
Proof.
  intros [n|f] H; unfold pynum_str;
    [now apply one_line_str_of_int|apply one_line_float_repr].
Qed.

(** *** What [strptime] makes of a date and of a time *)

Lemma time_shaped_inv : forall g,
  is_time_shaped g = true ->
  exists h1 h2 m1 m2,
    g = [h1; h2; 58; m1; m2] /\ is_digit h1 = true /\ is_digit h2 = true
    /\ is_digit m1 = true /\ is_digit m2 = true.
Proof.
  intros g H. unfold is_time_shaped in H.
  destruct g as [|h1 [|h2 [|p [|m1 [|m2 [|? ?]]]]]]; try discriminate.
  repeat (apply andb_prop in H as [H ?]).
  repeat match goal with H : (_ =? _) = true |- _ => apply Z.eqb_eq in H; subst end.
  exists h1, h2, m1, m2. auto.
Qed.

Lemma colon_not_digit : is_digit 58 = false.
Proof. reflexivity. Qed.

Lemma dot_not_digit : is_digit 46 = false.
Proof. reflexivity. Qed.

Lemma time_format_match : forall g rest c,
  is_time_shaped g = true -> re_match TIME_FORMAT_RE g = Some (rest, c) ->
  exists h1 h2 m1 m2,
    g = [h1; h2; 58; m1; m2]
    /\ ((rest = [m2] /\ is_digit m2 = true)
        \/ exists h mi,
             rest = [] /\ py_int (group 4 c) = Ret h /\ py_int (group 5 c) = Ret mi
             /\ valid_clock h mi /\ written_time g h mi).
Proof.
  intros g rest c Hg H.
  apply time_shaped_inv in Hg as (h1 & h2 & m1 & m2 & -> & D1 & D2 & D3 & D4).
  exists h1, h2, m1, m2. split; [reflexivity|].
  apply re_match_sound in H as (m & E & Hs).
  unfold TIME_FORMAT_RE, RE_H, RE_M in Hs.
  inv_sem; unfold COLON in E; cbn [app] in E; inversion E; subst; clear E;
    try (rewrite colon_not_digit in *; discriminate);
    try (left; split; [reflexivity|assumption]);
    right; digit_facts; cbn [group Nat.eqb app];
    eexists; eexists; (split; [reflexivity|]);
    (split; [apply py_int_2; (eassumption || reflexivity)|]);
    (split; [apply py_int_2; (eassumption || reflexivity)|]);
    (split; [unfold valid_clock; lia|]);
    unfold written_time; cbn [firstn skipn];
    split; apply digits_value_2; (eassumption || reflexivity).
Qed.

Lemma strptime_time_raises : forall g msg,
  is_time_shaped g = true -> strptime_time (Some g) = Raise msg -> diagnostic msg.
Proof.
  intros g msg Hg H. unfold strptime_time, strptime_groups in H.
  destruct (re_match TIME_FORMAT_RE g) as [[rest c]|] eqn:E.
  - destruct (time_format_match g rest c Hg E)
      as (h1 & h2 & m1 & m2 & -> & [[-> Hd]|(h & mi & -> & Hh & Hm & _)]).
    + cbn [bind] in H. injection H as <-. now apply minute_left_over.
    + cbn [bind] in H. rewrite Hh in H. cbn [bind] in H. rewrite Hm in H.
      cbn [bind] in H. rewrite date_new_1900 in H. discriminate H.
  - cbn [bind] in H. injection H as <-. now apply no_such_time.
Qed.

Lemma strptime_time_written : forall g dt,
  is_time_shaped g = true -> strptime_time (Some g) = Ret dt ->
  exists h mi,
    dt = DateTime (Date 1900 1 1) (Time h mi 0)
    /\ valid_clock h mi /\ written_time g h mi.
Proof.
  intros g dt Hg H. unfold strptime_time, strptime_groups in H.
  destruct (re_match TIME_FORMAT_RE g) as [[rest c]|] eqn:E; [|discriminate H].
  destruct (time_format_match g rest c Hg E)
    as (h1 & h2 & m1 & m2 & -> & [[-> Hd]|(h & mi & -> & Hh & Hm & Hv & Hw)]);
    [discriminate H|].
  cbn [bind] in H. rewrite Hh in H. cbn [bind] in H. rewrite Hm in H.
  cbn [bind] in H. rewrite date_new_1900 in H. cbn [bind] in H.
  exists h, mi. split; [congruence|]. split; assumption.
Qed.

Lemma date_shaped_digits : forall g,
  is_date_shaped g = true ->
  exists d1 d2 m1 m2 y1 y2 y3 y4,
    g = [d1; d2; 46; m1; m2; 46; y1; y2; y3; y4]
    /\ is_digit d1 = true /\ is_digit d2 = true
    /\ is_digit m1 = true /\ is_digit m2 = true.
Proof.
  intros g H. unfold is_date_shaped in H.
  destruct g as [|d1 [|d2 [|p1 [|m1 [|m2 [|p2 [|y1 [|y2 [|y3 [|y4 [|? ?]]]]]]]]]]];
    try discriminate.
  repeat (apply andb_prop in H as [H ?]).
  repeat match goal with H : (_ =? _) = true |- _ => apply Z.eqb_eq in H; subst end.
  exists d1, d2, m1, m2, y1, y2, y3, y4. auto 10.
Qed.

Lemma blank_not_digit : is_digit 32 = false.
Proof. reflexivity. Qed.

Lemma date_format_match : forall g rest c,
  is_date_shaped g = true -> re_match DATE_FORMAT_RE g = Some (rest, c) ->
  exists y mo d,
    rest = [] /\ py_int (group 3 c) = Ret y /\ py_int (group 2 c) = Ret mo
    /\ py_int (group 1 c) = Ret d
    /\ 0 <= y <= 9999 /\ 1 <= mo <= 12 /\ 1 <= d <= 31 /\ written_date g y mo d.
Proof.
  intros g rest c Hg H.
  apply date_shaped_digits in Hg
    as (d1 & d2 & m1 & m2 & y1 & y2 & y3 & y4 & -> & D1 & D2 & D3 & D4).
  apply re_match_sound in H as (m & E & Hs).
  unfold DATE_FORMAT_RE, RE_d, RE_m, RE_Y in Hs.
  inv_sem; unfold DOT in E; cbn [app] in E; inversion E; subst; clear E;
    try (rewrite dot_not_digit in *; discriminate);
    try (rewrite blank_not_digit in *; discriminate);
    digit_facts; cbn [group Nat.eqb app];
    eexists; eexists; eexists; (split; [reflexivity|]);
    (split; [apply py_int_4; (eassumption || reflexivity)|]);
    (split; [apply py_int_2; (eassumption || reflexivity)|]);
    (split; [apply py_int_2; (eassumption || reflexivity)|]);
    (split; [lia|]); (split; [lia|]); (split; [lia|]);
    unfold written_date; cbn [firstn skipn];
    (split; [apply digits_value_2; (eassumption || reflexivity)|]);
    (split; [apply digits_value_2; (eassumption || reflexivity)|]);
    apply digits_value_4; (eassumption || reflexivity).
Qed.

Lemma strptime_date_raises : forall g msg,
  is_date_shaped g = true -> strptime_date (Some g) = Raise msg -> diagnostic msg.
Proof.
  intros g msg Hg H. unfold strptime_date, strptime_groups in H.
  destruct (re_match DATE_FORMAT_RE g) as [[rest c]|] eqn:E.
  - destruct (date_format_match g rest c Hg E)
      as (y & mo & d & -> & Hy & Hm & Hd & By & Bm & Bd & _).
    cbn [bind] in H. rewrite Hy in H. cbn [bind] in H. rewrite Hm in H.
    cbn [bind] in H. rewrite Hd in H. cbn [bind] in H.
    unfold date_new in H.
    destruct ((1 <=? y) && (y <=? 9999)) eqn:Ey; cbn [negb] in H.
    + replace ((1 <=? mo) && (mo <=? 12)) with true in H by lia. cbn [negb] in H.
      destruct ((1 <=? d) && (d <=? days_in_month y mo)); cbn [negb bind] in H;
        [discriminate H|].
      injection H as <-. apply no_such_day.
    + assert (y = 0) by lia. subst y. cbn [bind] in H. injection H as <-.
      apply year_zero.
  - cbn [bind] in H. injection H as <-. now apply no_such_date.
Qed.

Lemma strptime_date_written : forall g dt,
  is_date_shaped g = true -> strptime_date (Some g) = Ret dt ->
  exists y mo d,
    dt = DateTime (Date y mo d) (Time 0 0 0)
    /\ valid_date y mo d /\ written_date g y mo d.
Proof.
  intros g dt Hg H. unfold strptime_date, strptime_groups in H.
  destruct (re_match DATE_FORMAT_RE g) as [[rest c]|] eqn:E; [|discriminate H].
  destruct (date_format_match g rest c Hg E)
    as (y & mo & d & -> & Hy & Hm & Hd & By & Bm & Bd & Hw).
  cbn [bind] in H. rewrite Hy in H. cbn [bind] in H. rewrite Hm in H.
  cbn [bind] in H. rewrite Hd in H. cbn [bind] in H.
  unfold date_new in H.
  destruct ((1 <=? y) && (y <=? 9999)) eqn:Ey; cbn [negb] in H; [|discriminate H].
  destruct ((1 <=? mo) && (mo <=? 12)) eqn:Em; cbn [negb] in H; [|discriminate H].
  destruct ((1 <=? d) && (d <=? days_in_month y mo)) eqn:Ed; cbn [negb bind] in H;
    [|discriminate H].
  exists y, mo, d. split; [congruence|]. split; [unfold valid_date; lia|assumption].
Qed.

(** *** The message in place of a record *)

Lemma parse_report_none_inv : forall text e,
  parse_report text = (None, Some e) -> diagnostic e.
Proof.
  intros text e H. unfold parse_report, parse_report_body, bind in H.
  destruct (search DATE_PATTERN text) as [md|] eqn:Sd; cbv beta iota in H;
    [|injection H as <-; apply no_date].
  destruct (date_found _ _ Sd) as (? & gd & ? & _ & Hgd & Hmd & _).
  rewrite Hmd in H.
  destruct (strptime_date (Some gd)) as [dt|msg] eqn:Cd; cbv beta iota in H;
    [|injection H as <-; eapply strptime_date_raises; eassumption].
  destruct (search VEHICLE_PATTERN text) as [mv|] eqn:Sv; cbv beta iota in H;
    [|injection H as <-; apply no_vehicle].
  destruct (vehicle_found _ _ Sv) as (? & ? & ? & gv & ? & _ & _ & _ & _ & _ & _ & _ & Hmv).
  rewrite Hmv in H. cbv beta iota delta [py_strip] in H.
  destruct (search START_PATTERN text) as [ms|] eqn:Ss; cbv beta iota in H;
    [|injection H as <-; apply no_start].
  destruct (time_found START_LABELS text ms ltac:(discriminate) Ss) as (gs & Hms & Hgs).
  rewrite Hms in H.
  destruct (strptime_time (Some gs)) as [st|msg] eqn:Cs; cbv beta iota in H;
    [|injection H as <-; eapply strptime_time_raises; eassumption].
  destruct (search END_PATTERN text) as [me|] eqn:Se; cbv beta iota in H;
    [|injection H as <-; apply no_end].
  destruct (time_found END_LABELS text me ltac:(discriminate) Se) as (ge & Hme & Hge).
  rewrite Hme in H.
  destruct (strptime_time (Some ge)) as [et|msg] eqn:Ce; cbv beta iota in H;
    [|injection H as <-; eapply strptime_time_raises; eassumption].
  destruct (search OVERTIME_PATTERN text) as [mo|] eqn:So; cbv beta iota in H;
    [|injection H as <-; apply no_overtime].
  destruct (found_overtime_valid _ _ So) as (? & ? & _ & _ & Co). rewrite Co in H.
  cbv beta iota in H.
  assert (Co' : exists mins, overtime_minutes mo = Ret mins)
    by (destruct (overtime_minutes_total _ _ So) as [[_ E]|(? & ? & _ & _ & E)]; eauto).
  destruct Co' as [mins Co']. rewrite Co' in H. cbv beta iota in H.
  destruct (search KM_PATTERN text) as [mk|] eqn:Sk; cbv beta iota in H;
    [|injection H as <-; apply no_km].
  destruct (found_km_valid _ _ Sk) as (? & ? & _ & _ & Ck). rewrite Ck in H.
  cbv beta iota in H.
  destruct (km_mkad_of_total text) as [mkad Cm]. rewrite Cm in H.
  cbv beta iota in H. discriminate H.
Qed.

Lemma diagnostic_nonempty : forall e, diagnostic e -> e <> [].
Proof.
  intros e H E. destruct H; cbv in E; discriminate E.
Qed.

(** *** The numbers and the texts of a record *)

Lemma digits_value_from_nonneg : forall s acc n,
  0 <= acc -> digits_value_from acc s = Some n -> 0 <= n.
Proof.
  induction s as [|x s IH]; intros acc n Hacc H; simpl in H.
  - now inversion H; subst.
  - destruct (decimal x) as [v|] eqn:E; [|discriminate].
    apply decimal_bound in E. eapply IH; [|exact H]. lia.
Qed.

Lemma digits_value_nonneg : forall s n, digits_value s = Some n -> 0 <= n.
Proof.
  intros [|x s] n H; [discriminate|]. unfold digits_value in H.
  eapply digits_value_from_nonneg; [|exact H]. lia.
Qed.

Lemma parse_report_never_empty : forall text, parse_report text <> (None, None).
Proof.
  intros text H. unfold parse_report in H.
  destruct (parse_report_body text) as [[ro eo]|msg] eqn:Hb; [|discriminate H].
  injection H as -> ->.
  unfold parse_report_body, bind in Hb.
  repeat match type of Hb with
  | Raise _ = Ret _ => discriminate Hb
  | Ret (None, Some ?m) = Ret _ => discriminate Hb
  | Ret (Some ?r, None) = Ret _ => discriminate Hb
  | match ?x with _ => _ end = _ => destruct x; cbv beta iota in Hb
  end.
Qed.

(** The numbers of a record: hours between two times of one day, and floats
    of numbers written in digits. *)
Lemma record_numbers : forall text r e,
  parse_report text = (Some r, e) ->
  exists j hours mins km,
    -1439 <= j <= 1439
    /\ r_work_hours r = PyFloat.div (PyFloat.of_Z (60 * j)) (PyFloat.of_Z 3600)
    /\ 0 <= hours
    /\ (mins = PyInt 0 \/ exists n, 0 <= n /\ mins = PyFloat (PyFloat.of_Z n))
    /\ r_overtime r = PyFloat.add (PyFloat.of_Z hours) (div60 mins)
    /\ 0 <= km /\ r_total_km r = PyFloat.of_Z km
    /\ (r_km_mkad r = PyInt 0
        \/ exists n, 0 <= n /\ r_km_mkad r = PyFloat (PyFloat.of_Z n)).
Proof.
  intros text r e H.
  apply parse_report_some_inv in H
    as (md & dt & mv & v & ms & st & me & et & mo & h & mins & mk & km & mkad
        & _ & _ & _ & _ & _ & Cs & _ & Ce & So & Co & Co' & Sk & Ck & Cm & _ & ->).
  destruct (strptime_time_inv _ _ Cs) as (Hh1 & Hm1 & Hs1).
  destruct (strptime_time_inv _ _ Ce) as (Hh2 & Hm2 & Hs2).
  destruct (found_overtime_valid _ _ So) as (g1 & n1 & _ & Hn1 & Hf1).
  assert (h = PyFloat.of_Z n1) by congruence. subst h.
  destruct (found_km_valid _ _ Sk) as (gk & nk & _ & Hnk & Hfk).
  assert (km = PyFloat.of_Z nk) by congruence. subst km.
  exists ((hour (dt_time et) * 60 + minute (dt_time et))
          - (hour (dt_time st) * 60 + minute (dt_time st))), n1, mins, nk.
  cbv [r_work_hours r_overtime r_total_km r_km_mkad].
  split; [lia|]. split.
  { rewrite total_seconds_same_date by assumption. do 2 f_equal.
    unfold clock_seconds. lia. }
  split; [eapply digits_value_nonneg; eassumption|]. split.
  { destruct (overtime_minutes_total _ _ So) as [[_ E]|(g2 & n2 & _ & Hn2 & E)].
    - left. congruence.
    - right. exists n2. split; [eapply digits_value_nonneg; eassumption|congruence]. }
  split; [reflexivity|].
  split; [eapply digits_value_nonneg; eassumption|]. split; [reflexivity|].
  destruct (search KM_MKAD_PATTERN text) as [mm|] eqn:Sm.
  - right. apply digits_found in Sm as (g & Hg & Hne & Hd); [|discriminate].
    destruct (py_float_digits g Hne Hd) as (n & Hn & Hf).
    unfold km_mkad_of in Cm. rewrite Hg, Hf in Cm. cbn [bind] in Cm.
    exists n. split; [eapply digits_value_nonneg; eassumption|congruence].
  - left. unfold km_mkad_of in Cm. congruence.
Qed.

Lemma all_hours_shown : forallb hours_shown clock_differences = true.
Proof. vm_compute. reflexivity. Qed.

Lemma all_hours_within_a_day : forallb hours_within_a_day clock_differences = true.
Proof. vm_compute. reflexivity. Qed.

Lemma all_overtime_shown : forallb overtime_shown two_digits = true.
Proof. vm_compute. reflexivity. Qed.

Lemma str_eqb_eq : forall s t, str_eqb s t = true -> s = t.
Proof.
  induction s as [|a s IH]; intros [|b t] H; simpl in H; try discriminate.
  - reflexivity.
  - apply andb_prop in H as [Hab H]. apply Z.eqb_eq in Hab. subst.
    f_equal. now apply IH.
Qed.

Lemma hours_of_minutes_shown : forall j,
  -1439 <= j <= 1439 ->
  format_2f (PyFloat.div (PyFloat.of_Z (60 * j)) (PyFloat.of_Z 3600)) = shown_hours j.
Proof.
  intros j H. apply str_eqb_eq.
  exact (proj1 (forallb_forall _ _) all_hours_shown j (in_clock_differences j H)).
Qed.

Lemma hours_of_minutes_within_a_day : forall j,
  -1439 <= j <= 1439 ->
  hours_within_a_day j = true.
Proof.
  intros j H.
  exact (proj1 (forallb_forall _ _) all_hours_within_a_day j (in_clock_differences j H)).
Qed.

Lemma div60_nonnegative : forall mins,
  (mins = PyInt 0 \/ exists n, 0 <= n /\ mins = PyFloat (PyFloat.of_Z n)) ->
  nonnegative (div60 mins) = true.
Proof.
  intros mins [->|(n & Hn & ->)]; [reflexivity|]. unfold div60.
  change (PyFloat.of_Z 60) with (S754_finite false 8444249301319680 (-47)).
  apply div_nonnegative. now apply of_Z_nonnegative.
Qed.

Lemma nonnegative_not_nan : forall x, nonnegative x = true -> x <> S754_nan.
Proof. intros x H ->. discriminate H. Qed.

Lemma within_a_day_not_nan : forall j,
  hours_within_a_day j = true ->
  PyFloat.div (PyFloat.of_Z (60 * j)) (PyFloat.of_Z 3600) <> S754_nan.
Proof.
  intros j H E. unfold hours_within_a_day in H. cbv zeta in H. rewrite E in H.
  apply andb_prop in H as [H _]. unfold SFltb, SFcompare in H.
  destruct (PyFloat.of_Z (-24)); discriminate H.
Qed.

(** The texts of a record: a date and two times in digits, and a piece of
    one line of the report. *)
Lemma record_texts : forall text r e,
  parse_report text = (Some r, e) ->
  exists d st et pre g post,
    r_date r = date_str d /\ r_start_time r = time_str st
    /\ r_end_time r = time_str et
    /\ text = pre ++ g ++ post /\ one_line g /\ r_vehicle r = strip g.
Proof.
  intros text r e H.
  apply parse_report_some_inv in H
    as (md & dt & mv & v & ms & st & me & et & mo & h & mins & mk & km & mkad
        & _ & _ & Sv & Cv & _ & _ & _ & _ & _ & _ & _ & _ & _ & _ & _ & ->).
  apply vehicle_found in Sv
    as (pre & l & ws & g & post & E & _ & _ & _ & _ & Hg & _ & Hm).
  rewrite Hm in Cv. simpl in Cv. assert (v = strip g) by congruence. subst v.
  exists (dt_date dt), (dt_time st), (dt_time et), (pre ++ l ++ ws), g, post.
  cbv [r_date r_start_time r_end_time r_vehicle].
  repeat (split; [reflexivity|]).
  split; [now rewrite <- !app_assoc|]. split; [|reflexivity].
  now apply one_line_literal.
Qed.

Lemma strip_part : forall g, exists p q, g = p ++ strip g ++ q.
Proof.
  intros g. destruct (lstrip_suffix g) as [p E].
  destruct (rstrip_prefix (lstrip g)) as [q E'].
  exists p, q. unfold strip. now rewrite <- E', <- E.
Qed.

Lemma one_line_part : forall a b c, one_line (a ++ b ++ c) -> one_line b.
Proof.
  intros a b c H. apply Forall_app in H as [_ H]. now apply Forall_app in H as [H _].
Qed.

Lemma one_line_date_str : forall d, one_line (date_str d).
Proof. intros d. unfold date_str. one_line_parts. Qed.

Lemma one_line_time_str : forall t, one_line (time_str t).
Proof. intros t. unfold time_str. one_line_parts. Qed.

(** *** Line feeds *)

Lemma line_breaks_app : forall s t,
  line_breaks (s ++ t) = (line_breaks s + line_breaks t)%nat.
Proof. intros s t. apply count_occ_app. Qed.

Lemma line_breaks_one_line : forall s, one_line s -> line_breaks s = 0%nat.
Proof.
  intros s H. apply count_occ_not_In. intros Hin.
  exact (proj1 (Forall_forall _ _) H NL Hin eq_refl).
Qed.

Lemma line_breaks_cons_NL : forall s, line_breaks (NL :: s) = S (line_breaks s).
Proof. intros s. unfold line_breaks. now rewrite count_occ_cons_eq. Qed.

Lemma split_lines_one_line : forall s, one_line s -> split_lines s = [s].
Proof.
  induction s as [|c s IH]; intros H; [reflexivity|].
  apply Forall_cons_iff in H as [Hc H]. cbn [split_lines].
  destruct (Z.eqb_spec c NL); [contradiction|]. now rewrite IH.
Qed.

Lemma split_lines_app : forall a b,
  one_line a -> split_lines (a ++ NL :: b) = a :: split_lines b.
Proof.
  induction a as [|c a IH]; intros b H.
  - cbn [app split_lines]. now rewrite Z.eqb_refl.
  - apply Forall_cons_iff in H as [Hc H]. cbn [app split_lines].
    destruct (Z.eqb_spec c NL); [contradiction|]. now rewrite IH.
Qed.

Lemma split_lines_lines : forall l ls,
  Forall one_line (l :: ls) -> split_lines (lines (l :: ls)) = l :: ls.
Proof.
  intros l ls. revert l. induction ls as [|l' ls IH]; intros l H.
  - apply Forall_cons_iff in H as [H _]. now apply split_lines_one_line.
  - apply Forall_cons_iff in H as [H H'].
    change (lines (l :: l' :: ls)) with (l ++ NL :: lines (l' :: ls)).
    rewrite split_lines_app by assumption. now rewrite IH.
Qed.

Lemma line_breaks_lines : forall l ls,
  Forall one_line (l :: ls) -> line_breaks (lines (l :: ls)) = List.length ls.
Proof.
  intros l ls. revert l. induction ls as [|l' ls IH]; intros l H.
  - apply Forall_cons_iff in H as [H _]. now apply line_breaks_one_line.
  - apply Forall_cons_iff in H as [H H'].
    change (lines (l :: l' :: ls)) with (l ++ NL :: lines (l' :: ls)).
    rewrite line_breaks_app, line_breaks_cons_NL.
    rewrite (line_breaks_one_line l) by assumption.
    rewrite IH by assumption. reflexivity.
Qed.

(** *** What the store takes *)

Lemma utf8_size_app : forall s t, utf8_size (s ++ t) = utf8_size s + utf8_size t.
Proof.
  induction s as [|c s IH]; intros t; [reflexivity|].
  change (utf8_size ((c :: s) ++ t))
    with ((if c <? 128 then 1 else if c <? 2048 then 2
           else if c <? 65536 then 3 else 4) + utf8_size (s ++ t)).
  change (utf8_size (c :: s))
    with ((if c <? 128 then 1 else if c <? 2048 then 2
           else if c <? 65536 then 3 else 4) + utf8_size s).
  rewrite IH. lia.
Qed.

Lemma utf8_size_nonneg : forall s, 0 <= utf8_size s.
Proof.
  induction s as [|c s IH]; [simpl; lia|].
  change (utf8_size (c :: s))
    with ((if c <? 128 then 1 else if c <? 2048 then 2
           else if c <? 65536 then 3 else 4) + utf8_size s).
  destruct (c <? 128), (c <? 2048), (c <? 65536); lia.
Qed.

Lemma storable_part : forall a b c, storable (a ++ b ++ c) -> storable b.
Proof.
  intros a b c [Hs Hl]. rewrite !forallb_app in Hs.
  apply andb_prop in Hs as [_ Hs]. apply andb_prop in Hs as [Hs _].
  split; [assumption|]. rewrite !utf8_size_app in Hl.
  pose proof (utf8_size_nonneg a). pose proof (utf8_size_nonneg c). lia.
Qed.

Lemma storable_ascii : forall s,
  Forall (fun c => 0 <= c < 128) s -> (List.length s <= 100)%nat -> storable s.
Proof.
  intros s H Hl. split.
  - apply forallb_forall. intros c Hc.
    apply (proj1 (Forall_forall _ _) H) in Hc. unfold is_surrogate. lia.
  - assert (Hsz : utf8_size s = Z.of_nat (List.length s)).
    { clear Hl. induction H as [|c s Hc _ IH]; [reflexivity|].
      change (utf8_size (c :: s))
        with ((if c <? 128 then 1 else if c <? 2048 then 2
               else if c <? 65536 then 3 else 4) + utf8_size s).
      replace (c <? 128) with true by lia. rewrite IH. simpl List.length. lia. }
    rewrite Hsz. unfold SQLITE_MAX_LENGTH. lia.
Qed.

Lemma zero_padded_ascii : forall w n,
  Forall (fun c => 0 <= c < 128) (zero_padded w n).
Proof.
  intros w n. unfold zero_padded. apply Forall_forall. intros c Hc.
  apply in_map_iff in Hc as (i & <- & _).
  pose proof (Z.mod_pos_bound (n / 10 ^ Z.of_nat i) 10 ltac:(lia)). lia.
Qed.

Lemma storable_date_str : forall d, storable (date_str d).
Proof.
  intros d. apply storable_ascii.
  - unfold date_str.
    repeat (apply Forall_app; split); try apply zero_padded_ascii;
      repeat constructor; lia.
  - unfold date_str, zero_padded. rewrite !length_app, !length_map, !length_rev, !length_seq.
    simpl. lia.
Qed.

Lemma storable_time_str : forall t, storable (time_str t).
Proof.
  intros t. apply storable_ascii.
  - unfold time_str.
    repeat (apply Forall_app; split); try apply zero_padded_ascii;
      repeat constructor; lia.
  - unfold time_str, zero_padded. rewrite !length_app, !length_map, !length_rev, !length_seq.
    simpl. lia.
Qed.

Lemma first_surrogates_none : forall s pos,
  forallb (fun c => negb (is_surrogate c)) s = true -> first_surrogates s pos = None.
Proof.
  induction s as [|c s IH]; intros pos H; [reflexivity|]. simpl in H.
  apply andb_prop in H as [Hc H]. cbn [first_surrogates].
  destruct (is_surrogate c); [discriminate Hc|]. now apply IH.
Qed.

Lemma bind_text_storable : forall s, storable s -> bind_text s = Ret (SqlText s).
Proof.
  intros s [Hs Hl]. unfold bind_text. rewrite first_surrogates_none by assumption.
  replace (INT_MAX <? utf8_size s) with false; [reflexivity|].
  unfold SQLITE_MAX_LENGTH in Hl. unfold INT_MAX. lia.
Qed.

Lemma bind_number_float : forall f,
  f <> S754_nan -> bind_number (PyFloat f) = Ret (SqlReal f).
Proof. intros [s|s| |s m e] H; try reflexivity. congruence. Qed.

Ltac literal_line := apply one_line_literal; vm_compute; reflexivity.

(** The reply that shows a record of [parse_report] has the six lines of
    [format_report]: no text of the record breaks a line. *)
Lemma format_report_lines : forall text r e,
  parse_report text = (Some r, e) ->
  Forall one_line
    [u8 "📅 Дата: " ++ r_date r;
     u8 "🚘 Машина: " ++ r_vehicle r;
     u8 "⏰ Смена: " ++ r_start_time r ++ u8 " - " ++ r_end_time r;
     u8 "⏲️ Общее время: " ++ format_2f (r_work_hours r) ++ u8 " ч";
     u8 "⚡️ Переработка: " ++ format_2f (r_overtime r) ++ u8 " ч";
     u8 "🛣 Пробег: " ++ float_repr (r_total_km r) ++ u8 " км (за МКАД "
       ++ pynum_str (r_km_mkad r) ++ u8 " км)"].
Proof.
  intros text r e H.
  destruct (record_texts _ _ _ H) as (d & st & et & pre & g & post & Hd & Hs & He & Et & Hg & Hv).
  destruct (record_numbers _ _ _ H) as (_ & _ & _ & _ & _ & _ & _ & _ & _ & _ & _ & Hmk).
  assert (Hveh : one_line (r_vehicle r)).
  { rewrite Hv. destruct (strip_part g) as (p & q & Eg).
    apply (one_line_part p _ q). now rewrite <- Eg. }
  assert (Hmkad : one_line (pynum_str (r_km_mkad r))).
  { apply one_line_pynum_str. destruct Hmk as [->|(n & _ & ->)]; [lia|exact I]. }
  rewrite Hd, Hs, He.
  apply Forall_cons; [apply one_line_app; [literal_line|apply one_line_date_str]|].
  apply Forall_cons; [apply one_line_app; [literal_line|exact Hveh]|].
  apply Forall_cons.
  { apply one_line_app; [literal_line|].
    apply one_line_app; [apply one_line_time_str|].
    apply one_line_app; [literal_line|apply one_line_time_str]. }
  apply Forall_cons.
  { apply one_line_app; [literal_line|].
    apply one_line_app; [apply one_line_format_2f|literal_line]. }
  apply Forall_cons.
  { apply one_line_app; [literal_line|].
    apply one_line_app; [apply one_line_format_2f|literal_line]. }
  apply Forall_cons; [|apply Forall_nil].
  apply one_line_app; [literal_line|].
  apply one_line_app; [apply one_line_float_repr|].
  apply one_line_app; [literal_line|].
  apply one_line_app; [exact Hmkad|literal_line].
Qed.

(** *** Rows *)

Lemma largest_rowid_app : forall rows r seq,
  largest_rowid (Table (rows ++ [r]) seq)
  = Z.max (largest_rowid (Table rows seq)) (Z.max (c_id r) 0).
Proof.
  intros rows r seq. unfold largest_rowid. cbn [t_rows].
  induction rows as [|x rows IH]; simpl; [lia|]. rewrite IH. lia.
Qed.

Lemma largest_rowid_seq : forall rows seq seq',
  largest_rowid (Table rows seq) = largest_rowid (Table rows seq').
Proof. reflexivity. Qed.

Lemma largest_rowid_nonneg : forall t, 0 <= largest_rowid t.
Proof.
  intros [rows seq]. unfold largest_rowid. cbn [t_rows].
  induction rows as [|x rows IH]; simpl; lia.
Qed.

Lemma next_rowid_after : forall t r,
  next_rowid (Table (t_rows t ++ [r]) (next_rowid t)) = next_rowid t + 1
  \/ c_id r <> next_rowid t.
Proof.
  intros t r. destruct (Z.eq_dec (c_id r) (next_rowid t)) as [E|]; [left|now right].
  unfold next_rowid at 1. cbn [t_seq].
  rewrite largest_rowid_app, E.
  pose proof (largest_rowid_nonneg t).
  rewrite (largest_rowid_seq (t_rows t) (next_rowid t) (t_seq t)).
  replace (Table (t_rows t) (t_seq t)) with t by (now destruct t).
  unfold next_rowid. lia.
Qed.

(** A record of [parse_report] goes into the store as it is: texts as texts
    and numbers as floats. *)
Lemma save_report_parsed : forall text r e t,
  parse_report text = (Some r, e) -> storable text -> has_room t ->
  save_report (Some r) (Some t)
  = Ret (Some (Table (t_rows t ++ [row_of (next_rowid t) r]) (next_rowid t))).
Proof.
  intros text r e t H Hst Hroom.
  destruct (record_texts _ _ _ H) as (d & st & et & pre & g & post & Hd & Hs & He & Et & _ & Hv).
  destruct (record_numbers _ _ _ H)
    as (j & hours & mins & km & Hj & Hwh & Hh & Hmins & Hot & Hkm & Hk & Hmk).
  assert (Sv : storable (r_vehicle r)).
  { rewrite Hv. destruct (strip_part g) as (p & q & Eg).
    apply (storable_part p _ q). rewrite <- Eg.
    apply (storable_part pre _ post). now rewrite <- Et. }
  assert (Nwh : r_work_hours r <> S754_nan).
  { rewrite Hwh. now apply within_a_day_not_nan, hours_of_minutes_within_a_day. }
  assert (Not : r_overtime r <> S754_nan).
  { rewrite Hot. apply nonnegative_not_nan, add_nonnegative;
      [now apply of_Z_nonnegative|now apply div60_nonnegative]. }
  assert (Nkm : r_total_km r <> S754_nan).
  { rewrite Hk. now apply nonnegative_not_nan, of_Z_nonnegative. }
  assert (Sd : storable (r_date r)) by (rewrite Hd; apply storable_date_str).
  assert (Ss : storable (r_start_time r)) by (rewrite Hs; apply storable_time_str).
  assert (Se : storable (r_end_time r)) by (rewrite He; apply storable_time_str).
  assert (Hlast : (MAX_ROWID <=? Z.max (largest_rowid t) (t_seq t)) = false)
    by (unfold has_room, next_rowid in Hroom; lia).
  unfold save_report, row_of, next_rowid.
  rewrite (bind_text_storable _ Sd), (bind_text_storable _ Sv),
    (bind_text_storable _ Ss), (bind_text_storable _ Se),
    (bind_number_float _ Nwh), (bind_number_float _ Not), (bind_number_float _ Nkm).
  cbn [bind real_affinity].
  destruct Hmk as [E|(n & Hn & E)]; rewrite E.
  - change (bind_number (PyInt 0)) with (Ret (SqlInteger 0)).
    cbn [bind real_affinity real_of]. cbv zeta. rewrite Hlast. reflexivity.
  - rewrite bind_number_float
      by (apply nonnegative_not_nan, of_Z_nonnegative; exact Hn).
    cbn [bind real_affinity real_of]. cbv zeta. rewrite Hlast. reflexivity.
Qed.

(** *** One message *)

Lemma record_without_message : forall text r e,
  parse_report text = (Some r, e) -> e = None.
Proof.
  intros text r e H.
  apply parse_report_some_inv in H
    as (md & dt & mv & v & ms & st & me & et & mo & h & mins & mk & km & mkad
        & _ & _ & _ & _ & _ & _ & _ & _ & _ & _ & _ & _ & _ & _ & He & _).
  exact He.
Qed.

Lemma handle_message_rejected : forall text b e,
  parse_report text = (None, Some e) ->
  handle_message text b = Ret (Bot (bot_db b) (bot_replies b ++ [reply_to text])).
Proof.
  intros text b e H. pose proof (diagnostic_nonempty e (parse_report_none_inv _ _ H)).
  unfold handle_message, reply_to. rewrite H.
  destruct e as [|c e]; [congruence|reflexivity].
Qed.

Lemma handle_message_accepted : forall text b r e t,
  parse_report text = (Some r, e) -> bot_db b = Some t ->
  storable text -> has_room t ->
  handle_message text b
  = Ret (Bot (Some (Table (t_rows t ++ [row_of (next_rowid t) r]) (next_rowid t)))
             (bot_replies b ++ [reply_to text])).
Proof.
  intros text b r e t H Hdb Hst Hroom.
  pose proof (save_report_parsed _ _ _ _ H Hst Hroom) as Hsave.
  pose proof (record_without_message _ _ _ H). subst e.
  unfold handle_message, reply_to. rewrite H, Hdb, Hsave. reflexivity.
Qed.

(** *** The messages of a chat *)

Lemma records_of_rejected : forall text rest e,
  parse_report text = (None, e) -> records_of (text :: rest) = records_of rest.
Proof. intros text rest e H. cbn [records_of]. now rewrite H. Qed.

Lemma records_of_accepted : forall text rest r e,
  parse_report text = (Some r, e) -> records_of (text :: rest) = r :: records_of rest.
Proof. intros text rest r e H. cbn [records_of]. now rewrite H. Qed.

(** From a store with its table: each message is answered, and the records
    of the accepted ones are added in order, numbered from the next
    identifier on. *)
Lemma handle_messages_from : forall texts b t,
  bot_db b = Some t -> Forall storable texts ->
  next_rowid t + Z.of_nat (List.length texts) <= MAX_ROWID + 1 ->
  exists t',
    handle_messages texts b
    = Ret (Bot (Some t') (bot_replies b ++ map reply_to texts))
    /\ t_rows t' = t_rows t ++ rows_from (next_rowid t) (records_of texts)
    /\ next_rowid t' = next_rowid t + Z.of_nat (List.length (records_of texts)).
Proof.
  induction texts as [|text rest IH]; intros b t Hdb Hst Hroom.
  - exists t. cbn [handle_messages map records_of rows_from List.length].
    rewrite !app_nil_r, Z.add_0_r. repeat split. destruct b. simpl in Hdb. now subst.
  - apply Forall_cons_iff in Hst as [Hs Hst].
    cbn [List.length] in Hroom. rewrite Nat2Z.inj_succ in Hroom.
    cbn [handle_messages map].
    destruct (parse_report text) as [[r|] e] eqn:Hp.
    + rewrite (handle_message_accepted _ _ _ _ _ Hp Hdb Hs)
        by (unfold has_room; lia).
      cbn [bind].
      set (t1 := Table (t_rows t ++ [row_of (next_rowid t) r]) (next_rowid t)).
      assert (Hn1 : next_rowid t1 = next_rowid t + 1).
      { destruct (next_rowid_after t (row_of (next_rowid t) r)) as [E|E];
          [exact E|exfalso; apply E; reflexivity]. }
      destruct (IH (Bot (Some t1) (bot_replies b ++ [reply_to text])) t1
                   eq_refl Hst ltac:(lia)) as (t' & Hrun & Hrows & Hnext).
      exists t'. rewrite Hrun. cbn [bot_replies]. rewrite <- app_assoc.
      split; [reflexivity|].
      rewrite (records_of_accepted _ _ _ _ Hp). cbn [rows_from List.length].
      rewrite Hrows, Hnext, Hn1. unfold t1. cbn [t_rows].
      rewrite <- app_assoc. split; [reflexivity|lia].
    + destruct e as [e|]; [|exfalso; exact (parse_report_never_empty _ Hp)].
      rewrite (handle_message_rejected _ _ _ Hp). cbn [bind].
      destruct (IH (Bot (bot_db b) (bot_replies b ++ [reply_to text])) t
                   Hdb Hst ltac:(lia)) as (t' & Hrun & Hrows & Hnext).
      exists t'. rewrite Hrun. cbn [bot_replies]. rewrite <- app_assoc.
      split; [reflexivity|].
      rewrite (records_of_rejected _ _ _ Hp). split; assumption.
Qed.

(** ** Further properties of [main.py] *)

(** X1.  [parse_report] returns a record exactly when each of the six
    required fields is found and converts; the distance beyond the ring road
    never decides. *)
Theorem record_iff_required_fields_valid : forall text,
  (exists r, parse_report text = (Some r, None))
  <-> (forall f, In f FIELDS -> field_status f text = Valid).
Proof.
  intros text. split.
  - intros [r H] f _.
    apply parse_report_some_inv in H
      as (md & dt & mv & v & ms & st & me & et & mo & h & mins & mk & km & mkad
          & Sd & Cd & Sv & Cv & Ss & Cs & Se & Ce & So & Co & Co' & Sk & Ck & _).
    destruct f; cbv beta iota delta [field_status pattern_of convert bind].
    + now rewrite Sd, Cd.
    + now rewrite Sv, Cv.
    + now rewrite Ss, Cs.
    + now rewrite Se, Ce.
    + now rewrite So, Co, Co'.
    + now rewrite Sk, Ck.
  - intros Hv.
    destruct (parse_report_all_valid text Hv)
      as (dt & v & ms & st & me & et & h & mins & km & mkad & _ & _ & _ & _ & _ & Hp).
    eauto.
Qed.

(** X2.  When [parse_report] returns no record, its message is the name of
    a missing field or what [strptime] says of a date or a time of the right
    shape: that it does not match the format, that a digit of the minutes is
    left over, that the month has no such day, that the year is 0.  It is
    never empty. *)
Theorem message_is_a_diagnostic : forall text e,
  parse_report text = (None, Some e) -> diagnostic e /\ e <> [].
Proof.
  intros text e H. pose proof (parse_report_none_inv _ _ H) as D.
  split; [exact D|now apply diagnostic_nonempty].
Qed.

(** X3.  The date of a record is a date of the calendar, the one the
    digits of the leftmost DD.MM.YYYY of the text stand for (a year from 1 to
    9999, a day the month has), written year first. *)
Theorem accepted_date_is_of_the_calendar : forall text r,
  parse_report text = (Some r, None) ->
  exists m g y mo d,
    search DATE_PATTERN text = Some m /\ m_group 1 m = Some g
    /\ written_date g y mo d /\ valid_date y mo d
    /\ r_date r = date_str (Date y mo d).
Proof.
  intros text r H.
  apply parse_report_some_inv in H
    as (md & dt & mv & v & ms & st & me & et & mo & h & mins & mk & km & mkad
        & Sd & Cd & _ & _ & _ & _ & _ & _ & _ & _ & _ & _ & _ & _ & _ & ->).
  destruct (date_found _ _ Sd) as (? & g & ? & _ & Hg & Hm & _).
  rewrite Hm in Cd.
  destruct (strptime_date_written _ _ Hg Cd) as (y & mo' & d & -> & Hv & Hw).
  exists md, g, y, mo', d. cbv [r_date dt_date]. auto.
Qed.

(** X4.  The two times of a record are times of the clock, the ones the
    digits after the start and the end labels stand for (hours to 23,
    minutes to 59), written with the seconds 00. *)
Theorem accepted_times_are_of_the_clock : forall text r,
  parse_report text = (Some r, None) ->
  exists ms gs hs mis me ge he mie,
    search START_PATTERN text = Some ms /\ m_group 1 ms = Some gs
    /\ written_time gs hs mis /\ valid_clock hs mis
    /\ r_start_time r = time_str (Time hs mis 0)
    /\ search END_PATTERN text = Some me /\ m_group 1 me = Some ge
    /\ written_time ge he mie /\ valid_clock he mie
    /\ r_end_time r = time_str (Time he mie 0).
Proof.
  intros text r H.
  apply parse_report_some_inv in H
    as (md & dt & mv & v & ms & st & me & et & mo & h & mins & mk & km & mkad
        & _ & _ & _ & _ & Ss & Cs & Se & Ce & _ & _ & _ & _ & _ & _ & _ & ->).
  destruct (time_found START_LABELS text ms ltac:(discriminate) Ss) as (gs & Hms & Hgs).
  destruct (time_found END_LABELS text me ltac:(discriminate) Se) as (ge & Hme & Hge).
  rewrite Hms in Cs. rewrite Hme in Ce.
  destruct (strptime_time_written _ _ Hgs Cs) as (hs & mis & -> & Hvs & Hws).
  destruct (strptime_time_written _ _ Hge Ce) as (he & mie & -> & Hve & Hwe).
  exists ms, gs, hs, mis, me, ge, he, mie.
  cbv [r_start_time r_end_time dt_time]. auto 12.
Qed.

(** X5.  Of the numbers of a record only the hours of work can be
    negative, and they lie strictly between -24 and 24; the overtime and the
    two distances are floats that are numbers or infinite, with the sign bit
    clear. *)
Theorem only_work_hours_can_be_negative : forall text r,
  parse_report text = (Some r, None) ->
  nonnegative (r_overtime r) = true
  /\ nonnegative (r_total_km r) = true
  /\ nonnegative (real_of (r_km_mkad r)) = true
  /\ SFltb (PyFloat.of_Z (-24)) (r_work_hours r) = true
  /\ SFltb (r_work_hours r) (PyFloat.of_Z 24) = true.
Proof.
  intros text r H.
  destruct (record_numbers _ _ _ H)
    as (j & hours & mins & km & Hj & Hwh & Hh & Hmins & Hot & Hkm & Hk & Hmk).
  rewrite Hot, Hk, Hwh. split; [|split; [|split]].
  - apply add_nonnegative; [now apply of_Z_nonnegative|now apply div60_nonnegative].
  - now apply of_Z_nonnegative.
  - destruct Hmk as [->|(n & Hn & ->)]; [reflexivity|].
    cbn [real_of]. now apply of_Z_nonnegative.
  - pose proof (hours_of_minutes_within_a_day j Hj) as Hd.
    unfold hours_within_a_day in Hd. cbv zeta in Hd.
    apply andb_prop in Hd. exact Hd.
Qed.

(** X6.  The fourth line of the reply shows the hours of work as the
    difference of the two clock times in hours, rounded to the nearest
    hundredth, with a minus sign when the end is before the start. *)
Theorem work_hours_are_shown_to_the_hundredth : forall text r,
  parse_report text = (Some r, None) ->
  exists st et,
    start_time_of text = Some st /\ end_time_of text = Some et
    /\ nth 3 (reply_lines r) []
       = u8 "⏲️ Общее время: " ++ shown_hours ((clock_seconds et - clock_seconds st) / 60)
         ++ u8 " ч".
Proof.
  intros text r H.
  pose proof (format_report_lines _ _ _ H) as Hl.
  apply parse_report_some_inv in H
    as (md & dt & mv & v & ms & st & me & et & mo & h & mins & mk & km & mkad
        & _ & _ & _ & _ & Ss & Cs & Se & Ce & _ & _ & _ & _ & _ & _ & _ & ->).
  destruct (strptime_time_inv _ _ Cs) as (Hh1 & Hm1 & Hs1).
  destruct (strptime_time_inv _ _ Ce) as (Hh2 & Hm2 & Hs2).
  exists (dt_time st), (dt_time et).
  split; [unfold start_time_of, clock_time_of; now rewrite Ss, Cs|].
  split; [unfold end_time_of, clock_time_of; now rewrite Se, Ce|].
  unfold reply_lines, format_report. rewrite split_lines_lines by exact Hl.
  cbn [nth r_work_hours]. do 2 f_equal.
  rewrite total_seconds_same_date by assumption.
  set (j := (hour (dt_time et) * 60 + minute (dt_time et))
            - (hour (dt_time st) * 60 + minute (dt_time st))).
  assert (Hj : -1439 <= j <= 1439) by (unfold j; lia).
  assert (E : clock_seconds (dt_time et) - clock_seconds (dt_time st) = j * 60)
    by (unfold clock_seconds, j; lia).
  rewrite E, Z.div_mul by lia. rewrite (Z.mul_comm j 60).
  now apply hours_of_minutes_shown.
Qed.

(** X7.  The fifth line of the reply shows the overtime as the hours and
    the minutes of the overtime line, in hours to the nearest hundredth, when
    neither number goes beyond 99. *)
Theorem overtime_is_shown_to_the_hundredth : forall text r,
  parse_report text = (Some r, None) ->
  exists m g1 hours,
    search OVERTIME_PATTERN text = Some m
    /\ m_group 1 m = Some g1 /\ digits_value g1 = Some hours
    /\ ((m_group 2 m = None
         /\ (hours <= 99 ->
             nth 4 (reply_lines r) []
             = u8 "⚡️ Переработка: " ++ shown_hours (60 * hours) ++ u8 " ч"))
        \/ exists g2 minutes,
             m_group 2 m = Some g2 /\ digits_value g2 = Some minutes
             /\ (hours <= 99 -> minutes <= 99 ->
                 nth 4 (reply_lines r) []
                 = u8 "⚡️ Переработка: " ++ shown_hours (60 * hours + minutes)
                   ++ u8 " ч")).
Proof.
  intros text r H.
  pose proof (format_report_lines _ _ _ H) as Hl.
  assert (Hn : forall j,
             format_2f (r_overtime r) = shown_hours j ->
             nth 4 (reply_lines r) []
             = u8 "⚡️ Переработка: " ++ shown_hours j ++ u8 " ч").
  { intros j E. unfold reply_lines, format_report.
    rewrite split_lines_lines by exact Hl. cbn [nth]. now rewrite E. }
  apply parse_report_some_inv in H
    as (md & dt & mv & v & ms & st & me & et & mo & h & mins & mk & km & mkad
        & _ & _ & _ & _ & _ & _ & _ & _ & So & Co & Co' & _ & _ & _ & _ & ->).
  destruct (found_overtime_valid _ _ So) as (g1 & n1 & Hg1 & Hn1 & Hf1).
  assert (h = PyFloat.of_Z n1) by congruence. subst h.
  pose proof (digits_value_nonneg _ _ Hn1) as H0.
  exists mo, g1, n1. split; [assumption|]. split; [assumption|].
  split; [assumption|]. cbv [r_overtime] in Hn.
  pose proof all_overtime_shown as A. rewrite forallb_forall in A.
  destruct (overtime_minutes_total _ _ So) as [[H2 Hm]|(g2 & n2 & H2 & Hn2 & Hm)].
  - left. split; [assumption|]. intros Hle.
    assert (mins = PyInt 0) by congruence. subst mins.
    apply Hn.
    assert (Hin : In n1 two_digits).
    { unfold two_digits. apply in_map_iff. exists (Z.to_nat n1).
      split; [lia|]. apply in_seq. lia. }
    specialize (A n1 Hin). unfold overtime_shown in A.
    apply andb_prop in A as [A _]. apply str_eqb_eq in A. exact A.
  - right. exists g2, n2. split; [assumption|]. split; [assumption|].
    intros Hle Hle2.
    assert (mins = PyFloat (PyFloat.of_Z n2)) by congruence. subst mins.
    pose proof (digits_value_nonneg _ _ Hn2) as H02.
    apply Hn.
    assert (Hin : In n1 two_digits).
    { unfold two_digits. apply in_map_iff. exists (Z.to_nat n1).
      split; [lia|]. apply in_seq. lia. }
    assert (Hin2 : In n2 two_digits).
    { unfold two_digits. apply in_map_iff. exists (Z.to_nat n2).
      split; [lia|]. apply in_seq. lia. }
    specialize (A n1 Hin). unfold overtime_shown in A.
    apply andb_prop in A as [_ A]. rewrite forallb_forall in A.
    specialize (A n2 Hin2). apply str_eqb_eq in A. exact A.
Qed.

(** X8.  The last line of the reply shows the total distance as the number
    of its digits followed by ".0", leading zeros dropped, and the distance
    beyond the ring road the same way when the text gives one and as a bare
    "0" when it gives none; for distances below 2^53, which the float holds
    exactly. *)
Theorem distances_are_shown_as_written : forall text r,
  parse_report text = (Some r, None) ->
  exists m g km,
    search KM_PATTERN text = Some m
    /\ m_group 1 m = Some g /\ digits_value g = Some km
    /\ ((search KM_MKAD_PATTERN text = None
         /\ (km < 2 ^ 53 ->
             nth 5 (reply_lines r) []
             = u8 "🛣 Пробег: " ++ str_of_int km ++ u8 ".0" ++ u8 " км (за МКАД "
               ++ u8 "0" ++ u8 " км)"))
        \/ exists m' g' mkad,
             search KM_MKAD_PATTERN text = Some m'
             /\ m_group 1 m' = Some g' /\ digits_value g' = Some mkad
             /\ (km < 2 ^ 53 -> mkad < 2 ^ 53 ->
                 nth 5 (reply_lines r) []
                 = u8 "🛣 Пробег: " ++ str_of_int km ++ u8 ".0" ++ u8 " км (за МКАД "
                   ++ str_of_int mkad ++ u8 ".0" ++ u8 " км)")).
Proof.
  intros text r H.
  pose proof (format_report_lines _ _ _ H) as Hl.
  assert (Hn : nth 5 (reply_lines r) []
               = u8 "🛣 Пробег: " ++ float_repr (r_total_km r) ++ u8 " км (за МКАД "
                 ++ pynum_str (r_km_mkad r) ++ u8 " км)").
  { unfold reply_lines, format_report.
    rewrite split_lines_lines by exact Hl. reflexivity. }
  apply parse_report_some_inv in H
    as (md & dt & mv & v & ms & st & me & et & mo & h & mins & mk & km & mkad
        & _ & _ & _ & _ & _ & _ & _ & _ & _ & _ & _ & Sk & Ck & Cm & _ & ->).
  destruct (found_km_valid _ _ Sk) as (gk & nk & Hgk & Hnk & Hfk).
  assert (km = PyFloat.of_Z nk) by congruence. subst km.
  pose proof (digits_value_nonneg _ _ Hnk) as H0.
  exists mk, gk, nk. split; [assumption|]. split; [assumption|].
  split; [assumption|]. cbv [r_total_km r_km_mkad] in Hn.
  destruct (search KM_MKAD_PATTERN text) as [mm|] eqn:Sm.
  - right. apply digits_found in Sm as (g & Hg & Hne & Hd); [|discriminate].
    destruct (py_float_digits g Hne Hd) as (n & Hn' & Hf).
    unfold km_mkad_of in Cm. rewrite Hg, Hf in Cm. cbn [bind] in Cm.
    assert (mkad = PyFloat (PyFloat.of_Z n)) by congruence. subst mkad.
    pose proof (digits_value_nonneg _ _ Hn') as H0'.
    exists mm, g, n. split; [reflexivity|]. split; [assumption|].
    split; [assumption|]. intros Hk Hm. rewrite Hn. cbn [pynum_str].
    rewrite !float_repr_integer by lia. now rewrite <- !app_assoc.
  - left. split; [reflexivity|]. intros Hk.
    unfold km_mkad_of in Cm.
    assert (mkad = PyInt 0) by congruence. subst mkad.
    rewrite Hn. cbn [pynum_str]. rewrite float_repr_integer by lia.
    rewrite <- !app_assoc. reflexivity.
Qed.

(** X9.  The reply that shows a record has six lines, whatever the report
    says: the date, the vehicle, the shift, the hours of work, the overtime
    and the distances, and no field brings a line break with it. *)
Theorem reply_has_six_lines : forall text r,
  parse_report text = (Some r, None) ->
  reply_lines r
  = [u8 "📅 Дата: " ++ r_date r;
     u8 "🚘 Машина: " ++ r_vehicle r;
     u8 "⏰ Смена: " ++ r_start_time r ++ u8 " - " ++ r_end_time r;
     u8 "⏲️ Общее время: " ++ format_2f (r_work_hours r) ++ u8 " ч";
     u8 "⚡️ Переработка: " ++ format_2f (r_overtime r) ++ u8 " ч";
     u8 "🛣 Пробег: " ++ float_repr (r_total_km r) ++ u8 " км (за МКАД "
       ++ pynum_str (r_km_mkad r) ++ u8 " км)"]
  /\ line_breaks (format_report r) = 5%nat.
Proof.
  intros text r H. pose proof (format_report_lines _ _ _ H) as Hl.
  split.
  - unfold reply_lines, format_report. now rewrite split_lines_lines by exact Hl.
  - unfold format_report. now rewrite line_breaks_lines by exact Hl.
Qed.

(** X10.  A report that [parse_report] rejects is answered with the
    warning sign and the message, and leaves the store as it was: no message
    is empty, so [handle_message] never takes one for a record. *)
Theorem rejected_report_is_answered_not_stored : forall text b e,
  parse_report text = (None, Some e) ->
  handle_message text b
  = Ret (Bot (bot_db b) (bot_replies b ++ [u8 "⚠️ Ошибка: " ++ e])).
Proof.
  intros text b e H. rewrite (handle_message_rejected _ _ _ H).
  unfold reply_to. now rewrite H.
Qed.

(** X11.  A report that [parse_report] accepts, of well-formed Unicode, is
    stored as one new row under the next identifier, provided the table
    exists and has an identifier left, and then answered with the
    confirmation, an empty line and the record as [format_report] shows it.
    The row holds the four texts of the record and its four numbers as
    floats, none of them NULL: the 0 of an absent distance is stored as 0.0. *)
Theorem accepted_report_is_stored_and_shown : forall text r b t,
  parse_report text = (Some r, None) -> bot_db b = Some t ->
  storable text -> has_room t ->
  handle_message text b
  = Ret (Bot (Some (Table (t_rows t ++ [row_of (next_rowid t) r]) (next_rowid t)))
             (bot_replies b
              ++ [u8 "✅ Отчёт сохранён!" ++ [NL; NL] ++ format_report r])).
Proof.
  intros text r b t H Hdb Hst Hroom.
  rewrite (handle_message_accepted _ _ _ _ _ H Hdb Hst Hroom).
  unfold reply_to. now rewrite H.
Qed.

(** X12.  A record whose vehicle holds a surrogate code point is not
    stored: binding the vehicle raises the [UnicodeEncodeError] of the first
    surrogates, before the row is inserted and before any reply. *)
Theorem vehicle_with_surrogate_is_not_stored : forall text r b t c start stop,
  parse_report text = (Some r, None) -> bot_db b = Some t ->
  first_surrogates (r_vehicle r) 0 = Some (c, start, stop) ->
  handle_message text b = Raise (surrogates_msg c start stop).
Proof.
  intros text r b t c start stop H Hdb Hsur.
  destruct (record_texts _ _ _ H) as (d & st & et & pre & g & post & Hd & _).
  assert (Sd : storable (r_date r)) by (rewrite Hd; apply storable_date_str).
  unfold handle_message. rewrite H, Hdb. unfold save_report.
  rewrite (bind_text_storable _ Sd). cbn [bind].
  unfold bind_text at 1. rewrite Hsur. reflexivity.
Qed.

(** X13.  A session: after [init_db], the texts of a chat, each of
    well-formed Unicode, are each answered on their own, in order, and the
    table gains the records of the accepted ones in the order they came,
    numbered on from the next identifier, from 1 when the store was new.  A
    report sent twice is stored twice. *)
Theorem session_stores_the_accepted_reports : forall texts db,
  Forall storable texts ->
  (forall t, init_db db = Some t ->
             next_rowid t + Z.of_nat (List.length texts) <= MAX_ROWID + 1) ->
  exists t t',
    init_db db = Some t
    /\ handle_messages texts (Bot (init_db db) [])
       = Ret (Bot (Some t') (map reply_to texts))
    /\ t_rows t' = t_rows t ++ rows_from (next_rowid t) (records_of texts)
    /\ (db = None -> t_rows t' = rows_from 1 (records_of texts)).
Proof.
  intros texts db Hst Hroom.
  assert (Ht : exists t, init_db db = Some t)
    by (destruct db as [t|]; eexists; reflexivity).
  destruct Ht as [t Ht].
  destruct (handle_messages_from texts (Bot (init_db db) []) t Ht Hst (Hroom t Ht))
    as (t' & Hrun & Hrows & _).
  exists t, t'. split; [assumption|]. split; [exact Hrun|]. split; [assumption|].
  intros ->. cbv in Ht. injection Ht as <-. exact Hrows.
Qed.

End Parser.

(** ** The claims on concrete reports *)

Ltac all_fields_valid :=
  let f := fresh "f" in
  intros f _; destruct f; vm_compute; reflexivity.

(** The example of the specification gives the record it announces. *)
Example day_shift_parsed : forall ud,
  parse_report ud day_shift = (Some day_shift_record, None).
Proof. intros ud. vm_compute. reflexivity. Qed.

Example night_shift_parsed : forall ud,
  parse_report ud night_shift = (Some night_shift_record, None).
Proof. intros ud. vm_compute. reflexivity. Qed.

(** C1, the claim as stated fails: every required label is there with a
    value of the right shape, and there is no record. *)
Lemma valid_shapes_do_not_suffice :
  (forall ud f, In f FIELDS -> field_shaped ud f bad_clock_report = true)
  /\ (forall ud, parse_report ud bad_clock_report = (None, Some BAD_CLOCK_MSG)).
Proof.
  split.
  - intros ud f _. destruct f; vm_compute; reflexivity.
  - intros ud. vm_compute. reflexivity.
Qed.

(** C1 on a shift from 22:00 to 02:00: a record, and negative hours. *)
Lemma night_shift_work_hours :
  exists r st et,
    start_time_of arabic_indic night_shift = Some st
    /\ end_time_of arabic_indic night_shift = Some et
    /\ parse_report arabic_indic night_shift = (Some r, None)
    /\ r_work_hours r
       = PyFloat.div (PyFloat.of_Z (clock_seconds et - clock_seconds st))
                     (PyFloat.of_Z 3600)
    /\ (clock_seconds et < clock_seconds st ->
        PyFloat.is_negative (r_work_hours r) = true).
Proof.
  apply (work_hours_is_clock_difference arabic_indic night_shift).
  all_fields_valid.
Defined.

(** C3 on a report without the start label. *)
Lemma missing_start_is_named :
  parse_report arabic_indic no_start_report = (None, Some (missing_msg FStart)).
Proof.
  apply (missing_field_is_named arabic_indic no_start_report FStart).
  - intros l Hin Ho. apply occurs_occursb in Ho.
    destruct Hin as [<-|[<-|[]]]; vm_compute in Ho; discriminate Ho.
  - intros f' Hne. destruct f'; try congruence; vm_compute; reflexivity.
Defined.

(** C4, the claim as stated fails: vehicle, times, overtime and distance are
    all missing, and the message is the one of the date that does not
    convert, not the one that names the vehicle. *)
Lemma invalid_date_hides_missing_fields :
  (forall ud, field_status ud FDate invalid_date_only = Invalid DAY_RANGE_MSG)
  /\ (forall ud f, In f [FVehicle; FStart; FEnd; FOvertime; FKm] ->
                   field_status ud f invalid_date_only = Missing)
  /\ (forall ud, parse_report ud invalid_date_only = (None, Some DAY_RANGE_MSG))
  /\ (forall ud, parse_report ud invalid_date_only
                 <> (None, Some (missing_msg FVehicle))).
Proof.
  split; [|split; [|split]].
  - intros ud. vm_compute. reflexivity.
  - intros ud f Hin.
    destruct Hin as [<-|[<-|[<-|[<-|[<-|[]]]]]]; vm_compute; reflexivity.
  - intros ud. vm_compute. reflexivity.
  - intros ud H. vm_compute in H. discriminate H.
Qed.

(** C4 on a report without start time and without distance. *)
Lemma first_of_two_missing_is_named :
  parse_report arabic_indic no_start_no_km_report
  = (None, Some (missing_msg FStart)).
Proof.
  apply (first_missing_field_is_named arabic_indic no_start_no_km_report FStart).
  - vm_compute. reflexivity.
  - intros f' Hin. destruct Hin as [<-|[<-|[]]]; vm_compute; reflexivity.
Defined.

(** C5, the claim as stated fails: the overtime line is "Переработка 2",
    every other field is valid, and the overtime is 2.25, the day of the date
    on the line below being taken for the minutes. *)
Lemma minutes_taken_from_next_line :
  (forall ud f, In f FIELDS -> field_status ud f date_after_overtime = Valid)
  /\ (forall ud, overtime_value (parse_report ud date_after_overtime)
                 = Some (9 # 4)%Q)
  /\ overtime_line_is date_after_overtime (u8 "Переработка 2")
       (lines [u8 "ТС Газель"; u8 "Начало смены 08:00";
               u8 "Окончание смены 16:30"; u8 "Общий пробег 120"] ++ [NL])
       (NL :: u8 "15.03.2024").
Proof.
  split; [|split].
  - intros ud f _. destruct f; vm_compute; reflexivity.
  - intros ud. vm_compute. reflexivity.
  - split; [vm_compute; reflexivity|]. split; [right; eexists; reflexivity|].
    split; [right; eexists; reflexivity|]. vm_compute. reflexivity.
Qed.

(** C5 on a report whose overtime line is "Переработка 2", the distance on
    the line below. *)
Lemma night_shift_overtime :
  r_overtime night_shift_record = overtime_of 2 None.
Proof.
  apply (proj1 (proj2 (overtime_is_hours_plus_minutes_over_60 arabic_indic))
           night_shift
           (lines [u8 "15.03.2024"; u8 "ТС Газель"; u8 "Начало смены 22:00";
                   u8 "Окончание смены 02:00"] ++ [NL])
           (NL :: u8 "Общий пробег 120")).
  - split; [vm_compute; reflexivity|]. split; [right; eexists; reflexivity|].
    split; [right; eexists; reflexivity|]. vm_compute. reflexivity.
  - vm_compute. reflexivity.
  - vm_compute. reflexivity.
Defined.

(** C6 on a report without the optional distance. *)
Lemma night_shift_km_mkad :
  exists r,
    parse_report arabic_indic night_shift = (Some r, None)
    /\ r_km_mkad r = PyInt 0.
Proof.
  apply (km_mkad_defaults_to_zero arabic_indic night_shift).
  - intros Ho. apply occurs_occursb in Ho. vm_compute in Ho. discriminate Ho.
  - all_fields_valid.
Defined.

(** C7 on a start time 25:99. *)
Lemma bad_clock_is_reported :
  field_shaped arabic_indic FStart bad_clock_report = true
  /\ (FStart = FDate \/ FStart = FStart \/ FStart = FEnd)
  /\ parse_report arabic_indic bad_clock_report = (None, Some BAD_CLOCK_MSG).
Proof.
  apply (invalid_value_reports_conversion_error arabic_indic bad_clock_report
           FStart BAD_CLOCK_MSG).
  - intros f' Hin. destruct Hin as [<-|[<-|[]]]; vm_compute; reflexivity.
  - vm_compute. reflexivity.
Defined.

(** C8, the claim as stated fails: after the vehicle label its line holds a
    blank only, and the vehicle of the record is the line below. *)
Lemma vehicle_taken_from_next_line :
  vehicle_on_label_line blank_vehicle_report = Some []
  /\ (forall ud, vehicle_value (parse_report ud blank_vehicle_report)
                 = Some (u8 "Начало смены 08:00")).
Proof.
  split.
  - vm_compute. reflexivity.
  - intros ud. vm_compute. reflexivity.
Qed.

(** The leftmost label that whitespace follows decides: a later label on
    the same line is part of the vehicle, and a label with a colon after it
    is passed over for the next one. *)
Example label_in_vehicle_parsed : forall ud,
  vehicle_value (parse_report ud label_in_vehicle) = Some (u8 "Смена 1").
Proof. intros ud. vm_compute. reflexivity. Qed.

Example label_with_colon_parsed : forall ud,
  vehicle_value (parse_report ud label_with_colon) = Some (u8 "дневная").
Proof. intros ud. vm_compute. reflexivity. Qed.

(** C8 on the example of the specification. *)
Lemma day_shift_vehicle :
  exists g,
    vehicle_capture day_shift g
    /\ (forall g', vehicle_capture day_shift g' -> g' = g)
    /\ r_vehicle day_shift_record = strip g
    /\ (forall c rest, r_vehicle day_shift_record = c :: rest -> is_space c = false)
    /\ (forall rest c, r_vehicle day_shift_record = rest ++ [c] -> is_space c = false).
Proof.
  apply (vehicle_is_stripped_capture arabic_indic day_shift day_shift_record).
  vm_compute. reflexivity.
Defined.

(** C9, the claim as stated fails: the text has no standalone token of the
    shape of a date, and a date is found in it. *)
Lemma embedded_date_is_found :
  (forall ud, search ud DATE_PATTERN embedded_date
              = Some (MatchObj 1 [(1%nat, u8 "15.03.2024")]))
  /\ (forall ud, ~ has_standalone_date ud embedded_date).
Proof.
  split.
  - intros ud. vm_compute. reflexivity.
  - intros ud (pre & g & post & E & Hs & Hpre & Hpost).
    destruct (date_shaped_inv ud g Hs)
      as (d1 & d2 & m1 & m2 & y1 & y2 & y3 & y4 & -> & Hd1 & Hd2).
    change embedded_date
      with [49; 49; 53; 46; 48; 51; 46; 50; 48; 50; 52; 53] in E.
    destruct pre as [|a [|b [|c pre]]]; simpl in E.
    + discriminate E.
    + assert (Ha : a = 49) by congruence.
      specialize (Hpre [] a eq_refl). subst a.
      vm_compute in Hpre. discriminate Hpre.
    + assert (H2 : d2 = 46) by congruence. subst d2.
      vm_compute in Hd2. discriminate Hd2.
    + apply (f_equal (@List.length Z)) in E. simpl in E.
      rewrite length_app in E. simpl in E. lia.
Qed.


(** ** The further properties on concrete reports *)

(** X2 on a start time 25:99. *)
Lemma bad_clock_message_is_a_diagnostic :
  diagnostic arabic_indic BAD_CLOCK_MSG /\ BAD_CLOCK_MSG <> [].
Proof.
  apply (message_is_a_diagnostic arabic_indic bad_clock_report).
  vm_compute. reflexivity.
Defined.

(** X3 on the example of the specification. *)
Lemma day_shift_date_is_of_the_calendar :
  exists m g y mo d,
    search arabic_indic DATE_PATTERN day_shift = Some m /\ m_group 1 m = Some g
    /\ written_date arabic_indic g y mo d /\ valid_date y mo d
    /\ r_date day_shift_record = date_str (Date y mo d).
Proof.
  apply (accepted_date_is_of_the_calendar arabic_indic day_shift).
  vm_compute. reflexivity.
Defined.

(** X4 on a shift over midnight. *)
Lemma night_shift_times_are_of_the_clock :
  exists ms gs hs mis me ge he mie,
    search arabic_indic START_PATTERN night_shift = Some ms /\ m_group 1 ms = Some gs
    /\ written_time arabic_indic gs hs mis /\ valid_clock hs mis
    /\ r_start_time night_shift_record = time_str (Time hs mis 0)
    /\ search arabic_indic END_PATTERN night_shift = Some me /\ m_group 1 me = Some ge
    /\ written_time arabic_indic ge he mie /\ valid_clock he mie
    /\ r_end_time night_shift_record = time_str (Time he mie 0).
Proof.
  apply (accepted_times_are_of_the_clock arabic_indic night_shift).
  vm_compute. reflexivity.
Defined.

(** X5 on a shift over midnight, whose hours of work are negative. *)
Lemma night_shift_numbers :
  nonnegative (r_overtime night_shift_record) = true
  /\ nonnegative (r_total_km night_shift_record) = true
  /\ nonnegative (real_of (r_km_mkad night_shift_record)) = true
  /\ SFltb (PyFloat.of_Z (-24)) (r_work_hours night_shift_record) = true
  /\ SFltb (r_work_hours night_shift_record) (PyFloat.of_Z 24) = true.
Proof.
  apply (only_work_hours_can_be_negative arabic_indic night_shift).
  vm_compute. reflexivity.
Defined.

(** X6 on a shift over midnight. *)
Lemma night_shift_hours_are_shown :
  exists st et,
    start_time_of arabic_indic night_shift = Some st /\ end_time_of arabic_indic night_shift = Some et
    /\ nth 3 (reply_lines night_shift_record) []
       = u8 "⏲️ Общее время: " ++ shown_hours ((clock_seconds et - clock_seconds st) / 60)
         ++ u8 " ч".
Proof.
  apply (work_hours_are_shown_to_the_hundredth arabic_indic night_shift).
  vm_compute. reflexivity.
Defined.

(** X7 on an overtime of 1 hour 15 minutes. *)
Lemma day_shift_overtime_is_shown :
  exists m g1 hours,
    search arabic_indic OVERTIME_PATTERN day_shift = Some m
    /\ m_group 1 m = Some g1 /\ digits_value arabic_indic g1 = Some hours
    /\ ((m_group 2 m = None
         /\ (hours <= 99 ->
             nth 4 (reply_lines day_shift_record) []
             = u8 "⚡️ Переработка: " ++ shown_hours (60 * hours) ++ u8 " ч"))
        \/ exists g2 minutes,
             m_group 2 m = Some g2 /\ digits_value arabic_indic g2 = Some minutes
             /\ (hours <= 99 -> minutes <= 99 ->
                 nth 4 (reply_lines day_shift_record) []
                 = u8 "⚡️ Переработка: " ++ shown_hours (60 * hours + minutes)
                   ++ u8 " ч")).
Proof.
  apply (overtime_is_shown_to_the_hundredth arabic_indic day_shift).
  vm_compute. reflexivity.
Defined.

(** X8 on the example of the specification. *)
Lemma day_shift_distances_are_shown :
  exists m g km,
    search arabic_indic KM_PATTERN day_shift = Some m
    /\ m_group 1 m = Some g /\ digits_value arabic_indic g = Some km
    /\ ((search arabic_indic KM_MKAD_PATTERN day_shift = None
         /\ (km < 2 ^ 53 ->
             nth 5 (reply_lines day_shift_record) []
             = u8 "🛣 Пробег: " ++ str_of_int km ++ u8 ".0" ++ u8 " км (за МКАД "
               ++ u8 "0" ++ u8 " км)"))
        \/ exists m' g' mkad,
             search arabic_indic KM_MKAD_PATTERN day_shift = Some m'
             /\ m_group 1 m' = Some g' /\ digits_value arabic_indic g' = Some mkad
             /\ (km < 2 ^ 53 -> mkad < 2 ^ 53 ->
                 nth 5 (reply_lines day_shift_record) []
                 = u8 "🛣 Пробег: " ++ str_of_int km ++ u8 ".0" ++ u8 " км (за МКАД "
                   ++ str_of_int mkad ++ u8 ".0" ++ u8 " км)")).
Proof.
  apply (distances_are_shown_as_written arabic_indic day_shift).
  vm_compute. reflexivity.
Defined.

(** X9 on a shift over midnight. *)
Lemma night_shift_reply_has_six_lines :
  reply_lines night_shift_record
  = [u8 "📅 Дата: " ++ r_date night_shift_record;
     u8 "🚘 Машина: " ++ r_vehicle night_shift_record;
     u8 "⏰ Смена: " ++ r_start_time night_shift_record ++ u8 " - "
       ++ r_end_time night_shift_record;
     u8 "⏲️ Общее время: " ++ format_2f (r_work_hours night_shift_record) ++ u8 " ч";
     u8 "⚡️ Переработка: " ++ format_2f (r_overtime night_shift_record) ++ u8 " ч";
     u8 "🛣 Пробег: " ++ float_repr (r_total_km night_shift_record) ++ u8 " км (за МКАД "
       ++ pynum_str (r_km_mkad night_shift_record) ++ u8 " км)"]
  /\ line_breaks (format_report night_shift_record) = 5%nat.
Proof.
  apply (reply_has_six_lines arabic_indic night_shift).
  vm_compute. reflexivity.
Defined.

(** X10 on a start time 25:99, sent to a bot whose store is new. *)
Lemma bad_clock_is_answered_not_stored :
  handle_message arabic_indic bad_clock_report (Bot (init_db None) [])
  = Ret bot (Bot (init_db None) [u8 "⚠️ Ошибка: " ++ BAD_CLOCK_MSG]).
Proof.
  apply (rejected_report_is_answered_not_stored arabic_indic bad_clock_report
           (Bot (init_db None) []) BAD_CLOCK_MSG).
  vm_compute. reflexivity.
Defined.

(** X11 on the example of the specification, sent to a bot whose store is
    new. *)
Lemma day_shift_is_stored_and_shown :
  handle_message arabic_indic day_shift (Bot (init_db None) [])
  = Ret bot (Bot (Some (Table [row_of 1 day_shift_record] 1))
                 [u8 "✅ Отчёт сохранён!" ++ [NL; NL] ++ format_report day_shift_record]).
Proof.
  apply (accepted_report_is_stored_and_shown arabic_indic day_shift
           day_shift_record (Bot (init_db None) []) (Table [] 0)).
  - vm_compute. reflexivity.
  - reflexivity.
  - split; [vm_compute; reflexivity|vm_compute; discriminate].
  - vm_compute. discriminate.
Defined.

(** X12 on a vehicle whose name ends in one half of a surrogate pair. *)
Lemma lone_surrogate_is_not_stored :
  handle_message arabic_indic lone_surrogate_report (Bot (init_db None) [])
  = Raise bot (surrogates_msg 55357 6 7).
Proof.
  apply (vehicle_with_surrogate_is_not_stored arabic_indic
           lone_surrogate_report lone_surrogate_record
           (Bot (init_db None) []) (Table [] 0)).
  - vm_compute. reflexivity.
  - reflexivity.
  - vm_compute. reflexivity.
Defined.

(** X13 on three messages to a bot whose store is new: the report of the
    example, a report without a start time, the report of the example
    again. *)
Lemma session_of_three_messages :
  exists t t',
    init_db None = Some t
    /\ handle_messages arabic_indic [day_shift; no_start_report; day_shift]
         (Bot (init_db None) [])
       = Ret bot (Bot (Some t')
                      (map (reply_to arabic_indic)
                           [day_shift; no_start_report; day_shift]))
    /\ t_rows t'
       = t_rows t
         ++ rows_from (next_rowid t)
              (records_of arabic_indic [day_shift; no_start_report; day_shift])
    /\ (@None table = None ->
        t_rows t'
        = rows_from 1
            (records_of arabic_indic [day_shift; no_start_report; day_shift])).
Proof.
  apply (session_stores_the_accepted_reports arabic_indic
           [day_shift; no_start_report; day_shift] None).
  - repeat apply Forall_cons; try apply Forall_nil;
      (split; [vm_compute; reflexivity|vm_compute; discriminate]).
  - intros t E. vm_compute in E. injection E as <-. vm_compute. discriminate.
Defined.

(** The replies as the chat shows them, and the store after the three
    messages. *)
Example day_shift_shown :
  reply_to arabic_indic day_shift = day_shift_reply.
Proof. vm_compute. reflexivity. Qed.

Example night_shift_shown :
  reply_to arabic_indic night_shift = night_shift_reply.
Proof. vm_compute. reflexivity. Qed.

Example lone_surrogate_message :
  surrogates_msg 55357 6 7
  = u8 "'utf-8' codec can't encode character '\ud83d' in position 6: surrogates not allowed".
Proof. vm_compute. reflexivity. Qed.

Example three_messages_handled :
  handle_messages arabic_indic [day_shift; no_start_report; day_shift]
    (Bot (init_db None) [])
  = Ret bot (Bot (Some (Table [row_of 1 day_shift_record;
                               row_of 2 day_shift_record] 2))
                 [day_shift_reply;
                  u8 "⚠️ Ошибка: " ++ MSG_NO_START;
                  day_shift_reply]).
Proof. vm_compute. reflexivity. Qed.
